(** * Virgil SDK (JavaScript): access tokens, the caching token provider
      and the key entry storage

    A shallow embedding of
    - [Jwt] (parse, serialise, identity, appId, isExpired),
    - [CachingJwtProvider] (the single-flight renewal of a cached token),
    - [KeyEntryStorage] (save, load, update over a storage adapter),
    with the JavaScript built-ins they call (string splitting, JSON, base64,
    ISO dates) modelled next to them.

    Text and bytes.  A JavaScript string is modelled by the sequence of its
    UTF-8 bytes and a [Buffer] by the sequence of its bytes, both as [string]
    (a list of 8-bit characters); [Buffer.from(s, 'utf8')] and
    [buf.toString('utf8')] are then the identity. *)

From Stdlib Require Import ZArith NArith Lia Bool List Ascii String.
From Stdlib Require Import DecimalString DecimalN DecimalFacts DecimalPos.
From stdpp Require Import gmap strings.

Import ListNotations.
Local Open Scope Z_scope.
Set Warnings "-register-all".

(** ** Thrown values and results *)

Definition Buffer := string.

(** What a JavaScript [throw] (or a rejected promise) carries. *)
Inductive exn : Type :=
| Error (message : string)
| TypeError (message : string)
| SyntaxError
| InvalidKeyEntryError
| KeyEntryAlreadyExistsError (name : string)
| KeyEntryDoesNotExistError (name : string)
| StorageEntryAlreadyExistsError
| ThrownString (s : string)
| ThrownOther (tag : nat).

(** A computation that returns or throws. *)
Inductive result (A : Type) : Type :=
| Ok (a : A)
| Throw (e : exn).
Arguments Ok {A} a.
Arguments Throw {A} e.

#[global] Instance result_ret : MRet result := fun A a => Ok a.
#[global] Instance result_bind : MBind result := fun A B k r =>
  match r with
  | Ok a => k a
  | Throw e => Throw e
  end.

Definition of_option {A} (e : exn) (o : option A) : result A :=
  match o with
  | Some a => Ok a
  | None => Throw e
  end.

(** [try { ... } catch (e) { throw handler }]: every failure becomes [e]. *)
Definition catch_all {A} (e : exn) (r : result A) : result A :=
  match r with
  | Ok a => Ok a
  | Throw _ => Throw e
  end.

(** ** Strings *)

Module Str.

Definition dot : ascii := ".".
Definition dquote : ascii := "034".
Definition backslash : ascii := "\".

(** [s.split(sep)] for a one-character separator: never empty, one more part
    than there are separators. *)
Fixpoint split (sep : ascii) (s : string) : list string :=
  match s with
  | EmptyString => [EmptyString]
  | String c s' =>
      if Ascii.eqb c sep then EmptyString :: split sep s'
      else match split sep s' with
           | p :: ps => String c p :: ps
           | [] => [String c EmptyString]
           end
  end.

Fixpoint mem (c : ascii) (s : string) : bool :=
  match s with
  | EmptyString => false
  | String d s' => Ascii.eqb d c || mem c s'
  end.

(** [s.indexOf(p)]: the first position at which [p] occurs in [s], -1 if none. *)
Fixpoint indexOf (p s : string) : Z :=
  if String.prefix p s then 0
  else match s with
       | EmptyString => -1
       | String _ s' =>
           let i := indexOf p s' in
           if i <? 0 then -1 else i + 1
       end.

(** [s.substr(n)]: [s] without its first [n] characters. *)
Fixpoint substr (n : nat) (s : string) : string :=
  match n, s with
  | O, _ => s
  | S n', String _ s' => substr n' s'
  | S _, EmptyString => EmptyString
  end.

Fixpoint map (f : ascii -> ascii) (s : string) : string :=
  match s with
  | EmptyString => EmptyString
  | String c s' => String (f c) (map f s')
  end.

(** [s.split(c)[0]]: the text before the first [c]. *)
Fixpoint before (c : ascii) (s : string) : string :=
  match s with
  | EmptyString => EmptyString
  | String d s' => if Ascii.eqb d c then EmptyString else String d (before c s')
  end.

(** How often [c] occurs in [s]. *)
Fixpoint count (c : ascii) (s : string) : nat :=
  match s with
  | EmptyString => O
  | String d s' => ((if Ascii.eqb d c then 1 else 0) + count c s')%nat
  end.

End Str.

(** ** Base64 *)

Module Base64.

Local Open Scope N_scope.

(** The standard alphabet: sextet to character and back. *)
Definition char_of_sextet (n : N) : ascii :=
  if n <? 26 then ascii_of_N (65 + n)
  else if n <? 52 then ascii_of_N (71 + n)
  else if n <? 62 then ascii_of_N (n - 4)
  else if n =? 62 then "+"%char
  else "/"%char.

Definition sextet_of_char (c : ascii) : option N :=
  let n := N_of_ascii c in
  if (65 <=? n) && (n <=? 90) then Some (n - 65)
  else if (97 <=? n) && (n <=? 122) then Some (n - 71)
  else if (48 <=? n) && (n <=? 57) then Some (n + 4)
  else if n =? 43 then Some 62
  else if n =? 47 then Some 63
  else None.

Definition pad : ascii := "="%char.

(** [buf.toString('base64')]: three bytes give four characters; a last group
    of one or two bytes is padded with [=]. *)
Fixpoint encode (b : Buffer) : string :=
  match b with
  | EmptyString => EmptyString
  | String x EmptyString =>
      let x := N_of_ascii x in
      String (char_of_sextet (x / 4))
        (String (char_of_sextet (x mod 4 * 16)) (String pad (String pad EmptyString)))
  | String x (String y EmptyString) =>
      let x := N_of_ascii x in
      let y := N_of_ascii y in
      String (char_of_sextet (x / 4))
        (String (char_of_sextet (x mod 4 * 16 + y / 16))
           (String (char_of_sextet (y mod 16 * 4)) (String pad EmptyString)))
  | String x (String y (String z b')) =>
      let x := N_of_ascii x in
      let y := N_of_ascii y in
      let z := N_of_ascii z in
      String (char_of_sextet (x / 4))
        (String (char_of_sextet (x mod 4 * 16 + y / 16))
           (String (char_of_sextet (y mod 16 * 4 + z / 64))
              (String (char_of_sextet (z mod 64)) (encode b'))))
  end.

(** Strict decoding of padded base64 text: groups of four characters of the
    alphabet, padding only in the last group; [None] for anything else. *)
Fixpoint decode (s : string) : option Buffer :=
  match s with
  | EmptyString => Some EmptyString
  | String c0 (String c1 (String c2 (String c3 s'))) =>
      match sextet_of_char c0, sextet_of_char c1 with
      | Some s0, Some s1 =>
          let x := ascii_of_N (s0 * 4 + s1 / 16) in
          if Ascii.eqb c2 pad then
            if Ascii.eqb c3 pad then
              match s' with
              | EmptyString => Some (String x EmptyString)
              | _ => None
              end
            else None
          else
            match sextet_of_char c2 with
            | Some s2 =>
                let y := ascii_of_N (s1 mod 16 * 16 + s2 / 4) in
                if Ascii.eqb c3 pad then
                  match s' with
                  | EmptyString => Some (String x (String y EmptyString))
                  | _ => None
                  end
                else
                  match sextet_of_char c3, decode s' with
                  | Some s3, Some b' =>
                      let z := ascii_of_N (s2 mod 4 * 64 + s3) in
                      Some (String x (String y (String z b')))
                  | _, _ => None
                  end
            | None => None
            end
      | _, _ => None
      end
  | _ => None
  end.

(** Modelled from the spec: Lib/base64 is not under src/.  The spec gives the
    URL-safe variant as: [+] becomes [-], [/] becomes [_], trailing [=] are
    stripped on encode and re-added as needed on decode; decoding malformed
    base64 throws. *)
Definition to_url_char (c : ascii) : ascii :=
  if Ascii.eqb c "+" then "-"%char
  else if Ascii.eqb c "/" then "_"%char
  else c.

Definition of_url_char (c : ascii) : ascii :=
  if Ascii.eqb c "-" then "+"%char
  else if Ascii.eqb c "_" then "/"%char
  else c.

Definition base64UrlFromBase64 (s : string) : string :=
  Str.map to_url_char (Str.before pad s).

Definition base64UrlToBase64 (s : string) : option string :=
  let t := Str.map of_url_char s in
  match (N.of_nat (String.length t) mod 4) with
  | 0 => Some t
  | 2 => Some (t +:+ "==")
  | 3 => Some (t +:+ "=")
  | _ => None
  end.

Definition base64UrlEncode (b : Buffer) : string :=
  base64UrlFromBase64 (encode b).

Definition base64UrlDecode (s : string) : result Buffer :=
  of_option (Error "Invalid base64 string")
    (t ← base64UrlToBase64 s; decode t).

End Base64.

(** ** Dates *)

Module Date.

Local Open Scope Z_scope.

(** A [Date] is its time value: milliseconds since the Unix epoch. *)
Definition Date := Z.

Definition msPerDay : Z := 86400000.

(** The proleptic Gregorian calendar: day number (0 = 1970-01-01) to
    (year, month, day) and back. *)
Definition civil_from_days (z : Z) : Z * Z * Z :=
  let z := z + 719468 in
  let era := z / 146097 in
  let doe := z - era * 146097 in
  let yoe := (doe - doe / 1460 + doe / 36524 - doe / 146096) / 365 in
  let doy := doe - (365 * yoe + yoe / 4 - yoe / 100) in
  let mp := (5 * doy + 2) / 153 in
  let d := doy - (153 * mp + 2) / 5 + 1 in
  let m := if mp <? 10 then mp + 3 else mp - 9 in
  let y := yoe + era * 400 in
  (if m <=? 2 then y + 1 else y, m, d).

Definition days_from_civil (y m d : Z) : Z :=
  let y := if m <=? 2 then y - 1 else y in
  let era := y / 400 in
  let yoe := y - era * 400 in
  let doy := (153 * (if m >? 2 then m - 3 else m + 9) + 2) / 5 + d - 1 in
  let doe := yoe * 365 + yoe / 4 - yoe / 100 + doy in
  era * 146097 + doe - 719468.

Definition digit_char (n : Z) : ascii := ascii_of_N (48 + Z.to_N n).

(** The last [k] decimal digits of [n]. *)
Fixpoint digits (k : nat) (n : Z) : string :=
  match k with
  | O => EmptyString
  | S k' => digits k' (n / 10) +:+ String (digit_char (n mod 10)) EmptyString
  end.

Definition digit_val (c : ascii) : option Z :=
  let n := Z.of_N (N_of_ascii c) in
  if (48 <=? n) && (n <=? 57) then Some (n - 48) else None.

(** Reads exactly [k] decimal digits. *)
Fixpoint read_digits (k : nat) (acc : Z) (s : string) : option (Z * string) :=
  match k with
  | O => Some (acc, s)
  | S k' =>
      match s with
      | String c s' =>
          match digit_val c with
          | Some d => read_digits k' (acc * 10 + d) s'
          | None => None
          end
      | EmptyString => None
      end
  end.

Definition expect (c : ascii) (s : string) : option string :=
  match s with
  | String d s' => if Ascii.eqb c d then Some s' else None
  | EmptyString => None
  end.

(** The time values a Date can hold (ECMAScript TimeClip). *)
Definition in_range (t : Z) : bool := (-8640000000000000 <=? t) && (t <=? 8640000000000000).

(** [date.toISOString()]: YYYY-MM-DDTHH:mm:ss.sssZ, the year with a sign and
    six digits outside 0..9999. *)
Definition toISOString (t : Date) : string :=
  let day := t / msPerDay in
  let ms := t mod msPerDay in
  let '(y, m, d) := civil_from_days day in
  let year :=
    if (0 <=? y) && (y <=? 9999) then digits 4 y
    else if y <? 0 then String "-" (digits 6 (- y))
    else String "+" (digits 6 y) in
  year +:+ "-" +:+ digits 2 m +:+ "-" +:+ digits 2 d +:+ "T" +:+
  digits 2 (ms / 3600000) +:+ ":" +:+ digits 2 (ms / 60000 mod 60) +:+ ":" +:+
  digits 2 (ms / 1000 mod 60) +:+ "." +:+ digits 3 (ms mod 1000) +:+ "Z".

Definition read_year (s : string) : option (Z * string) :=
  match s with
  | String c s' =>
      if Ascii.eqb c "-" then
        match read_digits 6 0 s' with
        | Some (y, r) => Some (- y, r)
        | None => None
        end
      else if Ascii.eqb c "+" then read_digits 6 0 s'
      else read_digits 4 0 s
  | EmptyString => None
  end.

Definition read_fields (s : string) : option Date :=
  '(y, s) ← read_year s;
  s ← expect "-" s;
  '(m, s) ← read_digits 2 0 s;
  s ← expect "-" s;
  '(d, s) ← read_digits 2 0 s;
  s ← expect "T" s;
  '(h, s) ← read_digits 2 0 s;
  s ← expect ":" s;
  '(mi, s) ← read_digits 2 0 s;
  s ← expect ":" s;
  '(sec, s) ← read_digits 2 0 s;
  s ← expect "." s;
  '(ms, s) ← read_digits 3 0 s;
  s ← expect "Z" s;
  match s with
  | EmptyString =>
      Some (days_from_civil y m d * msPerDay + h * 3600000 + mi * 60000 + sec * 1000 + ms)
  | _ => None
  end.

(** [new Date(text).getTime()] for the text [toISOString] writes: the fields
    are read back and must be the canonical rendering of the instant they
    name.  [None] is the Invalid Date.  (JavaScript also reads other date
    formats; they are read as Invalid Date here.) *)
Definition parse (s : string) : option Date :=
  match read_fields s with
  | Some t => if in_range t && String.eqb (toISOString t) s then Some t else None
  | None => None
  end.

(** Modelled from the spec: Lib/timestamp is not under src/.
    [getUnixTimestamp(date)] is the spec's unixSeconds: whole seconds since
    the epoch; [addSeconds(date, n)] is the date [n] seconds later. *)
Definition getUnixTimestamp (d : Date) : Z := d / 1000.

Definition addSeconds (d : Date) (seconds : Z) : Date := d + seconds * 1000.

End Date.

(** ** JavaScript values and JSON *)

(** The values the modelled code handles: JSON data, plus the [Buffer] and
    [Date] objects the key entry storage puts into its entries.  An object is
    the list of its own properties in insertion order; a property holding
    [undefined] is modelled as an absent property (reads and
    [JSON.stringify] do not tell the two apart).  Numbers are integers. *)
Inductive value : Type :=
| VNull
| VBool (b : bool)
| VNum (n : Z)
| VStr (s : string)
| VBuffer (b : Buffer)
| VDate (t : option Date.Date)
| VArr (l : list value)
| VObj (m : list (string * value)).

Module Obj.

(** [o[k]] on the own properties. *)
Fixpoint get (m : list (string * value)) (k : string) : option value :=
  match m with
  | [] => None
  | (k', v) :: m' => if String.eqb k' k then Some v else get m' k
  end.

(** [o[k] = v]: replaces in place, or appends a new property. *)
Fixpoint set (m : list (string * value)) (k : string) (v : value) : list (string * value) :=
  match m with
  | [] => [(k, v)]
  | (k', v') :: m' =>
      if String.eqb k' k then (k', v) :: m' else (k', v') :: set m' k v
  end.

(** [delete o[k]] (also the rest pattern [{k, ...rest}]). *)
Fixpoint remove (m : list (string * value)) (k : string) : list (string * value) :=
  match m with
  | [] => []
  | (k', v') :: m' =>
      if String.eqb k' k then remove m' k else (k', v') :: remove m' k
  end.

(** [o[k] = v] where [v] may be [undefined]. *)
Definition set_opt (m : list (string * value)) (k : string) (v : option value) :=
  match v with
  | Some v => set m k v
  | None => remove m k
  end.

(** [Object.assign(target, source)]. *)
Definition assign (target source : list (string * value)) : list (string * value) :=
  fold_left (fun o kv => set o (fst kv) (snd kv)) source target.

End Obj.

Module JSON.

Import Str.

Definition hex_char (n : N) : ascii :=
  if (n <? 10)%N then ascii_of_N (48 + n) else ascii_of_N (87 + n).

Definition hex_val (c : ascii) : option N :=
  let n := N_of_ascii c in
  if (48 <=? n)%N && (n <=? 57)%N then Some (n - 48)%N
  else if (97 <=? n)%N && (n <=? 102)%N then Some (n - 87)%N
  else if (65 <=? n)%N && (n <=? 70)%N then Some (n - 55)%N
  else None.

(** One character of a string literal, as [JSON.stringify] quotes it. *)
Definition escape_char (c : ascii) : string :=
  let n := N_of_ascii c in
  if Ascii.eqb c dquote then String backslash (String dquote EmptyString)
  else if Ascii.eqb c backslash then String backslash (String backslash EmptyString)
  else if (n =? 8)%N then String backslash "b"
  else if (n =? 9)%N then String backslash "t"
  else if (n =? 10)%N then String backslash "n"
  else if (n =? 12)%N then String backslash "f"
  else if (n =? 13)%N then String backslash "r"
  else if (n <? 32)%N then
    String backslash (String "u" (String "0" (String "0"
      (String (hex_char (n / 16)) (String (hex_char (n mod 16)) EmptyString)))))
  else String c EmptyString.

Fixpoint escape (s : string) : string :=
  match s with
  | EmptyString => EmptyString
  | String c s' => escape_char c +:+ escape s'
  end.

Definition quote (s : string) : string :=
  String dquote (escape s +:+ String dquote EmptyString).

Definition print_N (n : N) : string := NilEmpty.string_of_uint (N.to_uint n).

Definition print_Z (n : Z) : string :=
  if n <? 0 then String "-" (print_N (Z.to_N (- n))) else print_N (Z.to_N n).

Definition member (k v : string) : string := quote k +:+ ":" +:+ v.

(** [JSON.stringify(v)].  A Date is written by its [toJSON] (the ISO text,
    [null] when invalid), a Buffer by its [toJSON] (type and data). *)
Fixpoint stringify (v : value) : string :=
  match v with
  | VNull => "null"
  | VBool true => "true"
  | VBool false => "false"
  | VNum n => print_Z n
  | VStr s => quote s
  | VBuffer b =>
      "{" +:+ member "type" (quote "Buffer") +:+ "," +:+
      member "data"
        ("[" +:+ String.concat ","
                   (List.map (fun c => print_N (N_of_ascii c)) (list_ascii_of_string b)) +:+ "]")
      +:+ "}"
  | VDate (Some t) => quote (Date.toISOString t)
  | VDate None => "null"
  | VArr l => "[" +:+ String.concat "," (List.map stringify l) +:+ "]"
  | VObj m =>
      "{" +:+ String.concat ","
                (List.map (fun kv => member (fst kv) (stringify (snd kv))) m) +:+ "}"
  end.

Definition is_ws (c : ascii) : bool :=
  let n := N_of_ascii c in
  (n =? 32)%N || (n =? 9)%N || (n =? 10)%N || (n =? 13)%N.

Fixpoint skip_ws (s : string) : string :=
  match s with
  | String c s' => if is_ws c then skip_ws s' else s
  | EmptyString => EmptyString
  end.

Definition is_digit (c : ascii) : bool :=
  let n := N_of_ascii c in (48 <=? n)%N && (n <=? 57)%N.

(** The longest prefix of digits, and what follows it. *)
Fixpoint span_digits (s : string) : string * string :=
  match s with
  | String c s' =>
      if is_digit c then
        let '(ds, r) := span_digits s' in (String c ds, r)
      else (EmptyString, s)
  | EmptyString => (EmptyString, EmptyString)
  end.

(** The characters of a string literal after its opening quote: the text
    they denote and what follows the closing quote.  Escapes [\uXXXX] above
    U+007F are outside the modelled fragment. *)
Fixpoint parse_chars (s : string) : option (string * string) :=
  match s with
  | EmptyString => None
  | String c s' =>
      if Ascii.eqb c dquote then Some (EmptyString, s')
      else if Ascii.eqb c backslash then
        match s' with
        | String e s'' =>
            let simple (d : ascii) :=
              match parse_chars s'' with
              | Some (t, r) => Some (String d t, r)
              | None => None
              end in
            if Ascii.eqb e dquote then simple dquote
            else if Ascii.eqb e backslash then simple backslash
            else if Ascii.eqb e "/" then simple "/"%char
            else if Ascii.eqb e "b" then simple (ascii_of_N 8)
            else if Ascii.eqb e "t" then simple (ascii_of_N 9)
            else if Ascii.eqb e "n" then simple (ascii_of_N 10)
            else if Ascii.eqb e "f" then simple (ascii_of_N 12)
            else if Ascii.eqb e "r" then simple (ascii_of_N 13)
            else if Ascii.eqb e "u" then
              match s'' with
              | String h1 (String h2 (String h3 (String h4 s4))) =>
                  match hex_val h1, hex_val h2, hex_val h3, hex_val h4, parse_chars s4 with
                  | Some 0%N, Some 0%N, Some a, Some b, Some (t, r) =>
                      if (a <? 8)%N then Some (String (ascii_of_N (a * 16 + b)) t, r)
                      else None
                  | _, _, _, _, _ => None
                  end
              | _ => None
              end
            else None
        | EmptyString => None
        end
      else if (N_of_ascii c <? 32)%N then None
      else
        match parse_chars s' with
        | Some (t, r) => Some (String c t, r)
        | None => None
        end
  end.

Definition uint_eqb (a b : Decimal.uint) : bool :=
  if Decimal.uint_eq_dec a b then true else false.

(** The digits of an integer literal: [0], or digits that do not start with
    [0]. *)
Definition parse_digits (neg : bool) (s : string) : option (Z * string) :=
  let '(ds, r) := span_digits s in
  match NilEmpty.uint_of_string ds with
  | Some d =>
      if uint_eqb d Decimal.Nil then None
      else if uint_eqb (Decimal.unorm d) d then
        let n := Z.of_N (N.of_uint d) in
        Some (if neg then - n else n, r)
      else None
  | None => None
  end.

(** An integer literal: an optional minus sign, then the digits.  Fractions
    and exponents are outside the modelled fragment.  The integer is kept
    as it is written; JavaScript does so up to 2^53 (see [safe] below) and
    rounds beyond, to Infinity in the end. *)
Definition parse_number (s : string) : option (Z * string) :=
  match s with
  | String c s' =>
      if Ascii.eqb c "-" then parse_digits true s' else parse_digits false s
  | EmptyString => None
  end.

Fixpoint expect (w : string) (s : string) : option string :=
  match w with
  | EmptyString => Some s
  | String c w' =>
      match s with
      | String d s' => if Ascii.eqb c d then expect w' s' else None
      | EmptyString => None
      end
  end.

(** The object a member list denotes: a repeated key keeps its first
    position and its last value. *)
Definition obj_of_members (ms : list (string * value)) : list (string * value) :=
  Obj.assign [] ms.

(** Recursive descent over the JSON grammar; [fuel] bounds the number of
    nested calls and is always taken larger than the text. *)
Fixpoint parse_value (fuel : nat) (s : string) : option (value * string) :=
  match fuel with
  | O => None
  | S fuel' =>
      match skip_ws s with
      | EmptyString => None
      | String c s' =>
          if Ascii.eqb c "{" then
            match skip_ws s' with
            | String d r =>
                if Ascii.eqb d "}" then Some (VObj [], r)
                else
                  match parse_members fuel' s' with
                  | Some (ms, r) => Some (VObj (obj_of_members ms), r)
                  | None => None
                  end
            | EmptyString => None
            end
          else if Ascii.eqb c "[" then
            match skip_ws s' with
            | String d r =>
                if Ascii.eqb d "]" then Some (VArr [], r)
                else
                  match parse_elements fuel' s' with
                  | Some (vs, r) => Some (VArr vs, r)
                  | None => None
                  end
            | EmptyString => None
            end
          else if Ascii.eqb c dquote then
            match parse_chars s' with
            | Some (t, r) => Some (VStr t, r)
            | None => None
            end
          else if Ascii.eqb c "t" then
            match expect "rue" s' with Some r => Some (VBool true, r) | None => None end
          else if Ascii.eqb c "f" then
            match expect "alse" s' with Some r => Some (VBool false, r) | None => None end
          else if Ascii.eqb c "n" then
            match expect "ull" s' with Some r => Some (VNull, r) | None => None end
          else
            match parse_number (String c s') with
            | Some (n, r) => Some (VNum n, r)
            | None => None
            end
      end
  end

with parse_elements (fuel : nat) (s : string) : option (list value * string) :=
  match fuel with
  | O => None
  | S fuel' =>
      match parse_value fuel' s with
      | Some (v, r) =>
          match skip_ws r with
          | String c r' =>
              if Ascii.eqb c "," then
                match parse_elements fuel' r' with
                | Some (vs, r'') => Some (v :: vs, r'')
                | None => None
                end
              else if Ascii.eqb c "]" then Some ([v], r')
              else None
          | EmptyString => None
          end
      | None => None
      end
  end

with parse_members (fuel : nat) (s : string) : option (list (string * value) * string) :=
  match fuel with
  | O => None
  | S fuel' =>
      match skip_ws s with
      | String q s1 =>
          if Ascii.eqb q dquote then
            match parse_chars s1 with
            | Some (k, r) =>
                match skip_ws r with
                | String c r1 =>
                    if Ascii.eqb c ":" then
                      match parse_value fuel' r1 with
                      | Some (v, r2) =>
                          match skip_ws r2 with
                          | String c' r3 =>
                              if Ascii.eqb c' "," then
                                match parse_members fuel' r3 with
                                | Some (ms, r4) => Some ((k, v) :: ms, r4)
                                | None => None
                                end
                              else if Ascii.eqb c' "}" then Some ([(k, v)], r3)
                              else None
                          | EmptyString => None
                          end
                      | None => None
                      end
                    else None
                | EmptyString => None
                end
            | None => None
            end
          else None
      | EmptyString => None
      end
  end.

(** [JSON.parse(text)]: one value, with nothing but white space after it;
    a [SyntaxError] otherwise. *)
Definition parse (text : string) : result value :=
  match parse_value (S (String.length text)) text with
  | Some (v, r) =>
      match skip_ws r with
      | EmptyString => Ok v
      | _ => Throw SyntaxError
      end
  | None => Throw SyntaxError
  end.

(** No key twice. *)
Fixpoint distinct (ks : list string) : bool :=
  match ks with
  | [] => true
  | k :: ks' => negb (existsb (String.eqb k) ks') && distinct ks'
  end.

(** Plain JSON data: built from [null], booleans, numbers, text, arrays and
    objects without a repeated key (no Buffer, no Date). *)
Fixpoint plain (v : value) : bool :=
  match v with
  | VBuffer _ | VDate _ => false
  | VArr l => forallb plain l
  | VObj m => distinct (List.map fst m) && forallb (fun kv => plain (snd kv)) m
  | _ => true
  end.


(** Helpers for stating what the parser does on what [stringify] wrote. *)

(** The text does not go on with a digit. *)
Definition no_digit_head (s : string) : bool :=
  match s with
  | EmptyString => true
  | String c _ => negb (is_digit c)
  end.

(** The number of nested parser calls a value needs. *)
Fixpoint size (v : value) : nat :=
  match v with
  | VArr l => S (list_sum (List.map (fun x => S (size x)) l))
  | VObj m => S (list_sum (List.map (fun kv => S (size (snd kv))) m))
  | _ => 1
  end.

(** What may follow a value inside a JSON text. *)
Definition delim (s : string) : bool :=
  match s with
  | EmptyString => true
  | String c _ => Ascii.eqb c "," || Ascii.eqb c "]" || Ascii.eqb c "}"
  end.

(** The characters a value can start with. *)
Definition starter (c : ascii) : bool :=
  Ascii.eqb c "{" || Ascii.eqb c "[" || Ascii.eqb c dquote || Ascii.eqb c "t" ||
  Ascii.eqb c "f" || Ascii.eqb c "n" || Ascii.eqb c "-" || is_digit c.

(** One member of an object, as [stringify] writes it. *)
Definition member_text (kv : string * value) : string :=
  member (fst kv) (stringify (snd kv)).

Definition index_key (i : nat) : string := print_N (N.of_nat i).

(** The reviver pass of [JSON.parse(text, reviver)]: bottom-up, every
    property of every object and array, then the value itself under the
    key it is held by (the empty key for the root). *)
Fixpoint internalize (reviver : string -> value -> result value) (key : string)
    (v : value) : result value :=
  match v with
  | VArr l =>
      l' ← (fix go (i : nat) (l : list value) : result (list value) :=
              match l with
              | [] => Ok []
              | x :: l0 =>
                  x' ← internalize reviver (index_key i) x;
                  l1 ← go (S i) l0;
                  Ok (x' :: l1)
              end) O l;
      reviver key (VArr l')
  | VObj m =>
      m' ← (fix go (m : list (string * value)) : result (list (string * value)) :=
              match m with
              | [] => Ok []
              | (k, x) :: m0 =>
                  x' ← internalize reviver k x;
                  m1 ← go m0;
                  Ok ((k, x') :: m1)
              end) m;
      reviver key (VObj m')
  | _ => reviver key v
  end.

(** The members of an object under the reviver pass, one by one. *)
Fixpoint internalize_members (rv : string -> value -> result value)
    (m : list (string * value)) : result (list (string * value)) :=
  match m with
  | [] => Ok []
  | (k, x) :: m0 =>
      x' ← internalize rv k x;
      m1 ← internalize_members rv m0;
      Ok ((k, x') :: m1)
  end.

Definition parse_with (text : string) (reviver : string -> value -> result value)
  : result value :=
  v ← parse text;
  internalize reviver EmptyString v.

End JSON.

(** ** Reading properties and comparing, as JavaScript does *)

Module JS.

(** [v.k]: reading a property of [null] throws; an object gives its own
    property; the other values of the model have no own property of the
    names read here, which reads as [undefined] ([None]). *)
Definition get (v : value) (k : string) : result (option value) :=
  match v with
  | VNull => Throw (TypeError "Cannot read properties of null")
  | VObj m => Ok (Obj.get m k)
  | _ => Ok None
  end.

(** [ToNumber] on the values of the model; [None] is NaN.  Exact for
    [undefined], [null], booleans, numbers and Dates; text and the other
    objects are taken as NaN. *)
Definition ToNumber (v : option value) : option Z :=
  match v with
  | Some VNull => Some 0
  | Some (VBool b) => Some (if b then 1 else 0)
  | Some (VNum n) => Some n
  | Some (VDate t) => t
  | _ => None
  end.

(** [v < n] for a number [n]: false when [v] is NaN. *)
Definition lt (v : option value) (n : Z) : bool :=
  match ToNumber v with
  | Some x => x <? n
  | None => false
  end.

End JS.

(** ** Jwt *)

Module Jwt.

Import Base64.

Definition SubjectPrefix : string := "identity-".
Definition IssuerPrefix : string := "virgil-".
Definition VirgilContentType : string := "virgil-jwt;v=1".
Definition JwtContentType : string := "JWT".

(** The typed views of a token's header and body, and the objects they are
    at run time ([ada] absent when not given). *)
Record IJwtHeader : Type := {
  alg : string;
  typ : string;
  cty : string;
  kid : string
}.

Record IJwtBody : Type := {
  iss : string;
  sub : string;
  iat : Z;
  exp : Z;
  ada : option (list (string * string))
}.

Definition header_value (h : IJwtHeader) : value :=
  VObj [("alg", VStr (alg h)); ("typ", VStr (typ h)); ("cty", VStr (cty h));
        ("kid", VStr (kid h))].

Definition extra_value (d : list (string * string)) : value :=
  VObj (List.map (fun kv => (fst kv, VStr (snd kv))) d).

Definition body_value (b : IJwtBody) : value :=
  VObj ([("iss", VStr (iss b)); ("sub", VStr (sub b)); ("iat", VNum (iat b));
         ("exp", VNum (exp b))]
        ++ match ada b with
           | Some d => [("ada", extra_value d)]
           | None => []
           end).

(** A token: the three public fields, and the two the constructor derives
    from them once. *)
Record Jwt : Type := {
  header : value;
  body : value;
  signature : option Buffer;
  unsignedData : Buffer;
  stringRepresentation : string
}.

Definition headerBase64 (header : value) : string :=
  base64UrlEncode (JSON.stringify header).

Definition bodyBase64 (body : value) : string :=
  base64UrlEncode (JSON.stringify body).

Definition signatureBase64 (signature : Buffer) : string :=
  base64UrlEncode signature.

(** [new Jwt(header, body, signature)]. *)
Definition new (header body : value) (signature : option Buffer) : Jwt :=
  let withoutSignature := headerBase64 header +:+ "." +:+ bodyBase64 body in
  {| header := header;
     body := body;
     signature := signature;
     unsignedData := withoutSignature;
     stringRepresentation :=
       match signature with
       | None => withoutSignature
       | Some sig => withoutSignature +:+ "." +:+ signatureBase64 sig
       end |}.

Definition toString (jwt : Jwt) : string := stringRepresentation jwt.

Definition WrongJwtFormat : exn := Error "Wrong JWT format".

(** [Jwt.fromString(jwtStr)]. *)
Definition fromString (jwtStr : string) : result Jwt :=
  match Str.split Str.dot jwtStr with
  | [p0; p1; p2] =>
      catch_all WrongJwtFormat
        (headerJson ← base64UrlDecode p0;
         bodyJson ← base64UrlDecode p1;
         signature ← base64UrlDecode p2;
         header ← JSON.parse headerJson;
         body ← JSON.parse bodyJson;
         Ok (new header body (Some signature)))
  | _ => Throw WrongJwtFormat
  end.

(** The steps [fromString] takes on the three parts. *)
Definition decoded (p0 p1 p2 : string) : result (value * value * Buffer) :=
  headerJson ← base64UrlDecode p0;
  bodyJson ← base64UrlDecode p1;
  signature ← base64UrlDecode p2;
  header ← JSON.parse headerJson;
  body ← JSON.parse bodyJson;
  Ok (header, body, signature).

(** [x.indexOf(prefix) !== 0 ? throw e : x.substr(prefix.length)] for the
    value [x] a property read gave: text is searched and cut; an array has
    [indexOf] but no [substr]; anything else has neither. *)
Definition strip_prefix (prefix : string) (e : exn) (x : option value) : result string :=
  match x with
  | Some (VStr s) =>
      if Str.indexOf prefix s =? 0 then Ok (Str.substr (String.length prefix) s)
      else Throw e
  | Some (VArr (VStr p :: _)) =>
      if String.eqb p prefix then Throw (TypeError "substr is not a function")
      else Throw e
  | Some (VArr _) => Throw e
  | _ => Throw (TypeError "indexOf is not a function")
  end.

(** [jwt.identity()]. *)
Definition identity (jwt : Jwt) : result string :=
  s ← JS.get (body jwt) "sub";
  strip_prefix SubjectPrefix (Error "wrong sub format") s.

(** [jwt.appId()]. *)
Definition appId (jwt : Jwt) : result string :=
  s ← JS.get (body jwt) "iss";
  strip_prefix IssuerPrefix (Error "wrong iss format") s.

(** [jwt.isExpired(at)]. *)
Definition isExpired (jwt : Jwt) (at_ : Date.Date) : result bool :=
  let now := Date.getUnixTimestamp at_ in
  e ← JS.get (body jwt) "exp";
  Ok (JS.lt e now).

End Jwt.

(** ** CachingJwtProvider *)

Module Provider.

Import Jwt.

Definition TOKEN_EXPIRATION_MARGIN : Z := 5.

(** What the renewal callback hands back: a [Jwt] or its text. *)
Inductive token : Type :=
| TokenJwt (jwt : Jwt)
| TokenString (s : string).

(** A promise of a [Jwt], once settled. *)
Inductive settled : Type :=
| Fulfilled (jwt : Jwt)
| Rejected (e : exn).

(** The provider object, with the promises its renewals created (a promise
    is named by its position in [promises]; [None] is pending).  Two ghost
    fields record the calls of [renewJwtFn]: [outstanding] lists the calls
    that have not settled yet, each by the promise chained on it, and
    [renewCalls] counts all calls made so far. *)
Record provider : Type := {
  cachedJwt : option Jwt;
  jwtPromise : option nat;
  promises : list (option settled);
  outstanding : list nat;
  renewCalls : nat
}.

(** What [getJwt] returns: [Promise.resolve(this.cachedJwt)], or the shared
    promise [this.jwtPromise]. *)
Inductive handle : Type :=
| Resolved (jwt : Jwt)
| Shared (p : nat).

(** What [renewJwtFn(context)] does when it is called: it returns (a token or
    a promise, which settles later), or it throws.  The callback does not
    call back into the provider. *)
Inductive reaction : Type :=
| Returns
| Throws (e : exn).

(** How the promise of a call of [renewJwtFn] settles. *)
Inductive outcome : Type :=
| Resolves (t : token)
| Rejects (err : exn).

(** [new CachingJwtProvider(renewJwtFn, initialToken)]. *)
Definition create (initialToken : option token) : result provider :=
  cached ←
    match initialToken with
    | None => Ok None
    | Some (TokenString EmptyString) => Ok None
    | Some (TokenString s) => jwt ← fromString s; Ok (Some jwt)
    | Some (TokenJwt jwt) => Ok (Some jwt)
    end;
  Ok {| cachedJwt := cached; jwtPromise := None; promises := [];
        outstanding := []; renewCalls := 0 |}.

(** [this.cachedJwt && !this.cachedJwt.isExpired(addSeconds(now, MARGIN))]:
    the cached token to return at once, if any. *)
Definition cache_hit (p : provider) (now : Date.Date) : result (option Jwt) :=
  match cachedJwt p with
  | Some jwt =>
      expired ← isExpired jwt (Date.addSeconds now TOKEN_EXPIRATION_MARGIN);
      Ok (if (expired : bool) then None else Some jwt)
  | None => Ok None
  end.

(** [this.getJwt(context)] at clock reading [now]; [r] is what [renewJwtFn]
    does if this call invokes it. *)
Definition getJwt (p : provider) (now : Date.Date) (r : reaction)
  : result handle * provider :=
  match cache_hit p now with
  | Throw e => (Throw e, p)
  | Ok (Some jwt) => (Ok (Resolved jwt), p)
  | Ok None =>
      match jwtPromise p with
      | Some h => (Ok (Shared h), p)
      | None =>
          match r with
          | Throws e =>
              (Throw e,
               {| cachedJwt := cachedJwt p; jwtPromise := None;
                  promises := promises p; outstanding := outstanding p;
                  renewCalls := S (renewCalls p) |})
          | Returns =>
              let h := length (promises p) in
              (Ok (Shared h),
               {| cachedJwt := cachedJwt p; jwtPromise := Some h;
                  promises := promises p ++ [None];
                  outstanding := h :: outstanding p;
                  renewCalls := S (renewCalls p) |})
          end
      end
  end.

Definition getToken := getJwt.

Definition with_cache (p : provider) (jwt : Jwt) : provider :=
  {| cachedJwt := Some jwt; jwtPromise := None; promises := promises p;
     outstanding := outstanding p; renewCalls := renewCalls p |}.

Definition clear_promise (p : provider) : provider :=
  {| cachedJwt := cachedJwt p; jwtPromise := None; promises := promises p;
     outstanding := outstanding p; renewCalls := renewCalls p |}.

(** [typeof token === "string" ? Jwt.fromString(token) : token]. *)
Definition coerce (t : token) : result Jwt :=
  match t with
  | TokenString s => fromString s
  | TokenJwt jwt => Ok jwt
  end.

(** The [.then] handler. *)
Definition onFulfilled (p : provider) (t : token) : result Jwt * provider :=
  match coerce t with
  | Ok jwt => (Ok jwt, with_cache p jwt)
  | Throw e => (Throw e, p)
  end.

(** The [.catch] handler ([console.error] is not modelled). *)
Definition onRejected (p : provider) (err : exn) : result Jwt * provider :=
  match err with
  | ThrownString s =>
      match fromString s with
      | Ok jwt => (Ok jwt, with_cache p jwt)
      | Throw _ => (Throw err, clear_promise p)
      end
  | _ => (Throw err, clear_promise p)
  end.

(** [promise.then(onFulfilled).catch(onRejected)] for a settled promise. *)
Definition handlers (p : provider) (o : outcome) : result Jwt * provider :=
  match o with
  | Resolves t =>
      match onFulfilled p t with
      | (Ok jwt, p') => (Ok jwt, p')
      | (Throw e, p') => onRejected p' e
      end
  | Rejects err => onRejected p err
  end.

Definition settle_result (r : result Jwt) : settled :=
  match r with
  | Ok jwt => Fulfilled jwt
  | Throw e => Rejected e
  end.

(** The call of [renewJwtFn] behind promise [h] settles: the handlers run
    and [h] settles with what they return or throw.  The settlement and the
    run of the handlers are one step here: only [getJwt] and the two
    handlers touch the provider's fields, so a [getJwt] that runs between
    the settlement and the handlers finds the provider as it was before the
    settlement, and counts as a call made before this step. *)
Definition settle (p : provider) (h : nat) (o : outcome) : option provider :=
  if bool_decide (h ∈ outstanding p) then
    let '(r, p') := handlers p o in
    Some {| cachedJwt := cachedJwt p'; jwtPromise := jwtPromise p';
            promises := <[h := Some (settle_result r)]> (promises p');
            outstanding := List.filter (fun x => negb (Nat.eqb x h)) (outstanding p');
            renewCalls := renewCalls p' |}
  else None.

(** What becomes of a handle. *)
Definition resolution (p : provider) (h : handle) : option settled :=
  match h with
  | Resolved jwt => Some (Fulfilled jwt)
  | Shared i => mjoin (promises p !! i)
  end.

Inductive event : Type :=
| Call (now : Date.Date) (r : reaction)
| Settle (h : nat) (o : outcome).

Definition step (p : provider) (ev : event) : option provider :=
  match ev with
  | Call now r => Some (snd (getJwt p now r))
  | Settle h o => settle p h o
  end.

(** The states a provider can be in: after [create], any sequence of calls
    and settlements. *)
Inductive reachable : provider -> Prop :=
| reachable_create initialToken p :
    create initialToken = Ok p -> reachable p
| reachable_step p ev p' :
    reachable p -> step p ev = Some p' -> reachable p'.

(** [n] calls of [getJwt] one after the other at the given clock readings,
    with no settlement in between: the handles returned, and the provider
    after them. *)
Fixpoint calls (p : provider) (nows : list Date.Date) : list (result handle) * provider :=
  match nows with
  | [] => ([], p)
  | now :: nows' =>
      let '(h, p1) := getJwt p now Returns in
      let '(hs, p2) := calls p1 nows' in
      (h :: hs, p2)
  end.

(** The marker and the outstanding call go together: either neither is
    there, or the marker names the one outstanding call, whose promise is
    pending. *)
Definition inv (p : provider) : Prop :=
  match jwtPromise p with
  | None => outstanding p = []
  | Some h => outstanding p = [h] /\ promises p !! h = Some None
  end.

End Provider.

(** ** KeyEntryStorage *)

(** Modelled from the spec: the storage adapter (IStorageAdapter and its
    implementations) is not under src/.  The spec gives its interface:
    exists, load (bytes or null), store (fails distinguishably when the name
    already exists), update, remove, list, clear. *)
Class IStorageAdapter (S : Type) : Type := {
  adapter_exists : S -> string -> bool;
  adapter_load : S -> string -> option Buffer;
  adapter_store : S -> string -> Buffer -> result S;
  adapter_update : S -> string -> Buffer -> result S;
  adapter_remove : S -> string -> bool * S;
  adapter_list : S -> list Buffer;
  adapter_clear : S -> S
}.

(** An adapter that keeps the entries in memory. *)
#[global] Instance MemoryAdapter : IStorageAdapter (gmap string Buffer) := {
  adapter_exists m name := bool_decide (is_Some (m !! name));
  adapter_load m name := m !! name;
  adapter_store m name data :=
    match m !! name with
    | Some _ => Throw StorageEntryAlreadyExistsError
    | None => Ok (<[name := data]> m)
    end;
  adapter_update m name data := Ok (<[name := data]> m);
  adapter_remove m name := (bool_decide (is_Some (m !! name)), delete name m);
  adapter_list m := snd <$> map_to_list m;
  adapter_clear _ := ∅
}.

(** What the spec's contract for the adapter comes to, for one name: a name
    that is not stored can be stored, a stored name cannot be stored again,
    a stored name can be updated, and [load] gives back the bytes last
    written. *)
Class StorageAdapterLaws (S : Type) `{IStorageAdapter S} : Prop := {
  store_new : forall (st : S) name data,
    adapter_load st name = None ->
    exists st', adapter_store st name data = Ok st' /\ adapter_load st' name = Some data;
  store_existing : forall (st : S) name data,
    adapter_load st name <> None ->
    adapter_store st name data = Throw StorageEntryAlreadyExistsError;
  update_existing : forall (st : S) name data,
    adapter_load st name <> None ->
    exists st', adapter_update st name data = Ok st' /\ adapter_load st' name = Some data
}.

Module KeyEntryStorage.

Definition VALUE_KEY : string := "value".
Definition CREATION_DATE_KEY : string := "creationDate".
Definition MODIFICATION_DATE_KEY : string := "modificationDate".

(** [Data]: base64 text, or bytes. *)
Inductive Data : Type :=
| DataString (s : string)
| DataBytes (b : Buffer).

Definition KeyEntryMeta := list (string * string).

Definition meta_value (meta : KeyEntryMeta) : value :=
  VObj (List.map (fun kv => (fst kv, VStr (snd kv))) meta).

(** [!value] for a [Data]: only the empty text is falsy. *)
Definition falsy (d : Data) : bool :=
  match d with
  | DataString EmptyString => true
  | _ => false
  end.

Definition requiredArg (name : string) (value : string) : result unit :=
  match value with
  | EmptyString => Throw (TypeError ("Argument '" +:+ name +:+ "' is required."))
  | _ => Ok tt
  end.

Definition requiredProp {A} (name : string) (is_falsy : A -> bool) (value : A)
  : result unit :=
  if is_falsy value
  then Throw (TypeError ("Invalid argument. Property " +:+ name +:+ " is required"))
  else Ok tt.

Definition validateName := requiredArg "name".
Definition validateNameProperty :=
  requiredProp "name" (fun s : string => String.eqb s EmptyString).
Definition validateValueProperty := requiredProp "value" falsy.

(** Modelled from the spec: '@virgilsecurity/data-utils' is not under src/.
    [dataToUint8Array(data, 'base64')] gives the bytes of a [Data]: those the
    base64 text stands for, or the bytes themselves.  [Buffer.from(x,
    'base64')] gives the bytes a base64 text stands for.  The spec does not
    say what either does with text that is not base64, or with a value that
    is not text; both are taken to throw. *)
Definition dataToUint8Array (d : Data) : result Buffer :=
  match d with
  | DataString s => of_option (TypeError "not base64") (Base64.decode s)
  | DataBytes b => Ok b
  end.

Definition Buffer_from_base64 (v : value) : result value :=
  match v with
  | VStr s => b ← of_option (TypeError "not base64") (Base64.decode s); Ok (VBuffer b)
  | _ => Throw (TypeError "The first argument must be of type string")
  end.

(** [toBuffer(x)] for the value read from an entry. *)
Definition toBuffer (v : option value) : result Buffer :=
  match v with
  | Some (VBuffer b) => Ok b
  | _ => Throw (TypeError "not a Buffer")
  end.

(** [new Date(v)]: text is parsed, a number is the time value; exact for
    text, numbers, [null] and booleans, Invalid Date for the rest. *)
Definition new_Date (v : value) : value :=
  match v with
  | VStr s => VDate (Date.parse s)
  | VNum n => VDate (if Date.in_range n then Some n else None)
  | VNull => VDate (Some 0)
  | VBool b => VDate (Some (if b then 1 else 0))
  | _ => VDate None
  end.

(** The properties of an entry; an entry that is not an object is outside
    the modelled fragment. *)
Definition props (entry : value) : result (list (string * value)) :=
  match entry with
  | VObj m => Ok m
  | _ => Throw (TypeError "not an object")
  end.

(** [serializeKeyEntry(keyEntry)]. *)
Definition serializeKeyEntry (keyEntry : value) : result Buffer :=
  m ← props keyEntry;
  let rest := Obj.remove m VALUE_KEY in
  b ← toBuffer (Obj.get m VALUE_KEY);
  let serializableEntry := VObj (Obj.set rest VALUE_KEY (VStr (Base64.encode b))) in
  Ok (JSON.stringify serializableEntry).

Definition reviver (key : string) (v : value) : result value :=
  if String.eqb key VALUE_KEY then Buffer_from_base64 v
  else if String.eqb key CREATION_DATE_KEY || String.eqb key MODIFICATION_DATE_KEY
  then Ok (new_Date v)
  else Ok v.

(** [deserializeKeyEntry(data)]. *)
Definition deserializeKeyEntry (data : Buffer) : result value :=
  let dataStr := data in
  catch_all InvalidKeyEntryError (JSON.parse_with dataStr reviver).

(** The names the reviver treats specially. *)
Definition reserved (k : string) : bool :=
  String.eqb k VALUE_KEY || String.eqb k CREATION_DATE_KEY ||
  String.eqb k MODIFICATION_DATE_KEY.

(** A meta the stored form gives back: no key twice, no reserved key. *)
Definition meta_ok (x : KeyEntryMeta) : bool :=
  JSON.distinct (List.map fst x) && forallb (fun kv => negb (reserved (fst kv))) x.

(** The entry [save] builds when no meta is supplied. *)
Definition new_entry (name : string) (b : Buffer) (created modified : Date.Date) : value :=
  VObj [("name", VStr name); ("value", VBuffer b);
        ("creationDate", VDate (Some created));
        ("modificationDate", VDate (Some modified))].

(** The entry [load] reads back from it. *)
Definition loaded_entry (name : string) (b : Buffer) (created modified : Date.Date) : value :=
  VObj [("name", VStr name);
        ("creationDate", VDate (Some created));
        ("modificationDate", VDate (Some modified));
        ("value", VBuffer b)].

(** The entry [update] returns when it gives a meta to an entry that [save]
    stored without one. *)
Definition updated_entry (name : string) (b : Buffer) (created now : Date.Date)
    (x : KeyEntryMeta) : value :=
  VObj [("name", VStr name);
        ("creationDate", VDate (Some created));
        ("modificationDate", VDate (Some now));
        ("value", VBuffer b);
        ("meta", meta_value x)].

(** The entry [save] builds when a meta is supplied. *)
Definition saved_entry (name : string) (b : Buffer) (x : KeyEntryMeta)
    (created modified : Date.Date) : value :=
  VObj [("name", VStr name); ("value", VBuffer b); ("meta", meta_value x);
        ("creationDate", VDate (Some created));
        ("modificationDate", VDate (Some modified))].

(** The entry [save] builds, with or without a meta. *)
Definition key_entry (name : string) (b : Buffer) (meta : option KeyEntryMeta)
    (created modified : Date.Date) : value :=
  match meta with
  | Some x => saved_entry name b x created modified
  | None => new_entry name b created modified
  end.

Section Operations.

Context {S : Type} `{IStorageAdapter S}.

(** [storage.exists(name)]. *)
Definition exists_ (st : S) (name : string) : result bool :=
  _ ← validateName name;
  Ok (adapter_exists st name).

(** [storage.load(name)]: [None] is the [null] given for a name that is not
    stored.  Stored text that reads back as [null] gives [Some VNull], which
    is the same [null] to the caller (see [loaded_value]). *)
Definition load (st : S) (name : string) : result (option value) :=
  _ ← validateName name;
  match adapter_load st name with
  | None => Ok None
  | Some data => entry ← deserializeKeyEntry data; Ok (Some entry)
  end.

(** [storage.remove(name)]. *)
Definition remove (st : S) (name : string) : result (bool * S) :=
  _ ← validateName name;
  Ok (adapter_remove st name).

(** [storage.save({name, value, meta})] ([val] is the value); [created] and [modified] are what
    the two [new Date()] of the entry literal read off the clock, in that
    order. *)
Definition save (st : S) (created modified : Date.Date)
    (name : string) (val : Data) (meta : option KeyEntryMeta)
  : result (value * S) :=
  _ ← validateNameProperty name;
  _ ← validateValueProperty val;
  myValue ← dataToUint8Array val;
  let keyEntry :=
    VObj (Obj.set_opt
            (Obj.set_opt
               (Obj.set_opt
                  (Obj.set_opt
                     (Obj.set_opt [] "name" (Some (VStr name)))
                     "value" (Some (VBuffer myValue)))
                  "meta" (meta_value <$> meta))
               "creationDate" (Some (VDate (Some created))))
            "modificationDate" (Some (VDate (Some modified)))) in
  data ← serializeKeyEntry keyEntry;
  match adapter_store st name data with
  | Ok st' => Ok (keyEntry, st')
  | Throw StorageEntryAlreadyExistsError => Throw (KeyEntryAlreadyExistsError name)
  | Throw error => Throw error
  end.

(** Whether an optional [Data] is truthy: given, and not the empty text. *)
Definition truthy (val : option Data) : bool :=
  match val with
  | Some d => negb (falsy d)
  | None => false
  end.

(** [storage.list()]. *)
Definition list (st : S) : result (list value) :=
  mapM deserializeKeyEntry (adapter_list st).

(** [storage.update({name, value, meta})] ([val] is the value); [now] is what [new Date()]
    reads. *)
Definition update (st : S) (now : Date.Date)
    (name : string) (val : option Data) (meta : option KeyEntryMeta)
  : result (value * S) :=
  _ ← validateNameProperty name;
  if negb (truthy val || bool_decide (is_Some meta)) then
    Throw (TypeError "Invalid argument. Either `value` or `meta` property is required.")
  else
    match adapter_load st name with
    | None => Throw (KeyEntryDoesNotExistError name)
    | Some data =>
        entry ← deserializeKeyEntry data;
        m ← props entry;
        newValue ←
          match val with
          | Some d =>
              if falsy d then Ok (Obj.get m "value")
              else b ← dataToUint8Array d; Ok (Some (VBuffer b))
          | None => Ok (Obj.get m "value")
          end;
        let newMeta :=
          match meta with
          | Some x => Some (meta_value x)
          | None => Obj.get m "meta"
          end in
        let updatedEntry :=
          VObj (Obj.set_opt
                  (Obj.set_opt
                     (Obj.set_opt m "value" newValue)
                     "meta" newMeta)
                  "modificationDate" (Some (VDate (Some now)))) in
        data' ← serializeKeyEntry updatedEntry;
        st' ← adapter_update st name data';
        Ok (updatedEntry, st')
    end.

(** [storage.clear()]. *)
Definition clear (st : S) : S := adapter_clear st.

End Operations.


End KeyEntryStorage.

(** ** Sample data *)

Module Samples.

Import Jwt Provider KeyEntryStorage.

Definition sample_header : IJwtHeader :=
  {| alg := "VEDS512"; typ := JwtContentType; cty := VirgilContentType; kid := "key-1" |}.

Definition sample_body : IJwtBody :=
  {| iss := "virgil-app"; sub := "identity-alice"; iat := 1700000000; exp := 1700003600;
     ada := Some [("role", "admin")] |}.

(** A body whose subject and issuer lack their prefixes. *)
Definition odd_body : IJwtBody :=
  {| iss := "app"; sub := "alice"; iat := 1700000000; exp := 1700003600; ada := None |}.

(** The sample token, signed with four bytes. *)
Definition sample_jwt : Jwt :=
  new (header_value sample_header) (body_value sample_body) (Some "sig!").

(** A provider created without an initial token. *)
Definition empty_provider : provider :=
  {| cachedJwt := None; jwtPromise := None; promises := []; outstanding := [];
     renewCalls := 0 |}.

(** The same provider after one call started a renewal. *)
Definition renewing_provider : provider :=
  {| cachedJwt := None; jwtPromise := Some 0%nat; promises := [None];
     outstanding := [0%nat]; renewCalls := 1 |}.

(** A provider created with the sample token. *)
Definition warm_provider : provider :=
  {| cachedJwt := Some sample_jwt; jwtPromise := None; promises := [];
     outstanding := []; renewCalls := 0 |}.

(** The bytes 1, 2, 3. *)
Definition bytes123 : Buffer :=
  String (ascii_of_nat 1) (String (ascii_of_nat 2) (String (ascii_of_nat 3) EmptyString)).

(** The in-memory store after [save] put the bytes 1, 2, 3 under the name
    k. *)
Definition stored_text : Buffer :=
  Eval vm_compute in
    JSON.stringify
      (VObj [("name", VStr "k");
             ("creationDate", VStr (Date.toISOString 1700000000123));
             ("modificationDate", VStr (Date.toISOString 1700000000123));
             ("value", VStr (Base64.encode bytes123))]).

Definition store_k : gmap string Buffer := {[ "k" := stored_text ]}.



End Samples.

(** * Facts *)

#[local] Arguments String.append : simpl nomatch.

Module StrFacts.

Import Str.

Lemma append_assoc (a b c : string) : (a +:+ b) +:+ c = a +:+ (b +:+ c).
Proof. induction a as [|x a IH]; simpl; [reflexivity | now rewrite IH]. Qed.

Lemma append_nil_r (a : string) : a +:+ "" = a.
Proof. induction a as [|x a IH]; simpl; [reflexivity | now rewrite IH]. Qed.

Lemma length_append (a b : string) :
  String.length (a +:+ b) = (String.length a + String.length b)%nat.
Proof. induction a as [|x a IH]; simpl; [reflexivity | now rewrite IH]. Qed.

Lemma mem_append c (a b : string) : mem c (a +:+ b) = mem c a || mem c b.
Proof.
  induction a as [|x a IH]; simpl; [reflexivity|].
  rewrite IH. now rewrite orb_assoc.
Qed.

(** A text without the separator is a single part. *)
Lemma split_free sep (s : string) : mem sep s = false -> split sep s = [s].
Proof.
  induction s as [|c s IH]; simpl; [reflexivity|].
  intros H. apply orb_false_iff in H as [Hc Hs].
  rewrite Hc, (IH Hs). reflexivity.
Qed.

(** Splitting goes through the first separator after a separator-free part. *)
Lemma split_app sep (a b : string) :
  mem sep a = false -> split sep (a +:+ String sep b) = a :: split sep b.
Proof.
  induction a as [|c a IH]; simpl.
  - intros _. now rewrite Ascii.eqb_refl.
  - intros H. apply orb_false_iff in H as [Hc Ha].
    rewrite Hc, (IH Ha). reflexivity.
Qed.

Lemma split_nonempty sep s : split sep s <> [].
Proof.
  destruct s as [|c s]; simpl; [discriminate|].
  destruct (Ascii.eqb c sep); [discriminate|].
  destruct (split sep s); discriminate.
Qed.

(** The number of parts is one more than the number of separators. *)
Lemma length_split sep s : length (split sep s) = S (count sep s).
Proof.
  induction s as [|c s IH]; simpl; [reflexivity|].
  destruct (Ascii.eqb c sep); simpl.
  - now rewrite IH.
  - destruct (split sep s) eqn:E; simpl in *; [discriminate | exact IH].
Qed.







End StrFacts.

Module Base64Facts.

Import Str StrFacts Base64.
Local Open Scope N_scope.

(** Case analysis on a sextet. *)
Lemma sextet_cases (P : N -> Prop) :
  (forall k : nat, (k < 64)%nat -> P (N.of_nat k)) -> forall n, n < 64 -> P n.
Proof.
  intros H n Hn. rewrite <- (N2Nat.id n). apply H. lia.
Qed.

Ltac each_sextet :=
  let k := fresh "k" in
  let Hk := fresh "Hk" in
  intros k Hk;
  do 64 (destruct k as [|k]; [vm_compute; repeat split|]); exfalso; lia.

Lemma sextet_of_char_of_sextet n : n < 64 -> sextet_of_char (char_of_sextet n) = Some n.
Proof. revert n. apply sextet_cases. each_sextet. Qed.

Lemma char_of_sextet_ge n : 64 <= n -> char_of_sextet n = "/"%char.
Proof.
  intros H. unfold char_of_sextet.
  repeat match goal with
  | |- context [?a <? ?b] => destruct (N.ltb_spec a b); [lia|]
  | |- context [?a =? ?b] => destruct (N.eqb_spec a b); [lia|]
  end. reflexivity.
Qed.

(** No character of the alphabet is the padding, a dot, or one of the two
    characters the URL-safe variant introduces. *)
Lemma char_of_sextet_plain n :
  Ascii.eqb (char_of_sextet n) pad = false /\
  Ascii.eqb (to_url_char (char_of_sextet n)) dot = false /\
  Ascii.eqb (to_url_char (char_of_sextet n)) pad = false /\
  of_url_char (to_url_char (char_of_sextet n)) = char_of_sextet n.
Proof.
  destruct (N.lt_ge_cases n 64) as [Hlt|Hge].
  - revert n Hlt. apply sextet_cases. each_sextet.
  - rewrite (char_of_sextet_ge n Hge). vm_compute. auto.
Qed.

Lemma encode_1 x :
  encode (String x "") =
  String (char_of_sextet (N_of_ascii x / 4))
    (String (char_of_sextet (N_of_ascii x mod 4 * 16)) (String pad (String pad ""))).
Proof. reflexivity. Qed.

Lemma encode_2 x y :
  encode (String x (String y "")) =
  String (char_of_sextet (N_of_ascii x / 4))
    (String (char_of_sextet (N_of_ascii x mod 4 * 16 + N_of_ascii y / 16))
       (String (char_of_sextet (N_of_ascii y mod 16 * 4)) (String pad ""))).
Proof. reflexivity. Qed.

Lemma encode_3 x y z b :
  encode (String x (String y (String z b))) =
  String (char_of_sextet (N_of_ascii x / 4))
    (String (char_of_sextet (N_of_ascii x mod 4 * 16 + N_of_ascii y / 16))
       (String (char_of_sextet (N_of_ascii y mod 16 * 4 + N_of_ascii z / 64))
          (String (char_of_sextet (N_of_ascii z mod 64)) (encode b)))).
Proof. reflexivity. Qed.

(** Induction three bytes at a time. *)
Lemma string_ind3 (P : string -> Prop) :
  P "" -> (forall x, P (String x "")) -> (forall x y, P (String x (String y ""))) ->
  (forall x y z b, P b -> P (String x (String y (String z b)))) ->
  forall b, P b.
Proof.
  intros H0 H1 H2 H3.
  fix IH 1. intros [|x [|y [|z b]]];
    [exact H0 | apply H1 | apply H2 | apply H3; apply IH].
Qed.

Ltac arith := zify; Z.to_euclidean_division_equations; lia.

Lemma decode_4 n0 n1 n2 n3 s :
  n0 < 64 -> n1 < 64 -> n2 < 64 -> n3 < 64 ->
  decode (String (char_of_sextet n0) (String (char_of_sextet n1)
            (String (char_of_sextet n2) (String (char_of_sextet n3) s)))) =
  match decode s with
  | Some b =>
      Some (String (ascii_of_N (n0 * 4 + n1 / 16))
              (String (ascii_of_N (n1 mod 16 * 16 + n2 / 4))
                 (String (ascii_of_N (n2 mod 4 * 64 + n3)) b)))
  | None => None
  end.
Proof.
  intros H0 H1 H2 H3. cbn [decode].
  rewrite !sextet_of_char_of_sextet by assumption.
  destruct (char_of_sextet_plain n2) as [-> _].
  destruct (char_of_sextet_plain n3) as [-> _].
  reflexivity.
Qed.

Lemma decode_3 n0 n1 n2 :
  n0 < 64 -> n1 < 64 -> n2 < 64 ->
  decode (String (char_of_sextet n0) (String (char_of_sextet n1)
            (String (char_of_sextet n2) (String pad "")))) =
  Some (String (ascii_of_N (n0 * 4 + n1 / 16))
          (String (ascii_of_N (n1 mod 16 * 16 + n2 / 4)) "")).
Proof.
  intros H0 H1 H2. cbn [decode].
  rewrite !sextet_of_char_of_sextet by assumption.
  destruct (char_of_sextet_plain n2) as [-> _].
  reflexivity.
Qed.

Lemma decode_2 n0 n1 :
  n0 < 64 -> n1 < 64 ->
  decode (String (char_of_sextet n0) (String (char_of_sextet n1)
            (String pad (String pad "")))) =
  Some (String (ascii_of_N (n0 * 4 + n1 / 16)) "").
Proof.
  intros H0 H1. cbn [decode].
  rewrite !sextet_of_char_of_sextet by assumption.
  reflexivity.
Qed.

(** [Buffer.from(buf.toString('base64'), 'base64')] gives [buf] back. *)
Lemma decode_encode b : decode (encode b) = Some b.
Proof.
  induction b as [|x|x y|x y z b IH] using string_ind3.
  - reflexivity.
  - rewrite encode_1. pose proof (N_ascii_bounded x).
    rewrite decode_2 by arith.
    replace (_ + _) with (N_of_ascii x) by arith.
    now rewrite ascii_N_embedding.
  - rewrite encode_2. pose proof (N_ascii_bounded x). pose proof (N_ascii_bounded y).
    rewrite decode_3 by arith.
    replace (_ / 4 * 4 + _) with (N_of_ascii x) by arith.
    replace (_ mod 16 * 16 + _) with (N_of_ascii y) by arith.
    now rewrite !ascii_N_embedding.
  - rewrite encode_3.
    pose proof (N_ascii_bounded x). pose proof (N_ascii_bounded y).
    pose proof (N_ascii_bounded z).
    rewrite decode_4 by arith. rewrite IH.
    replace (_ / 4 * 4 + _) with (N_of_ascii x) by arith.
    replace (_ mod 16 * 16 + _) with (N_of_ascii y) by arith.
    replace (_ mod 4 * 64 + _) with (N_of_ascii z) by arith.
    now rewrite !ascii_N_embedding.
Qed.

(** The URL-safe text of a base64 text, group by group. *)
Lemma fromBase64_4 n0 n1 n2 n3 s :
  base64UrlFromBase64
    (String (char_of_sextet n0) (String (char_of_sextet n1)
       (String (char_of_sextet n2) (String (char_of_sextet n3) s)))) =
  String (to_url_char (char_of_sextet n0)) (String (to_url_char (char_of_sextet n1))
    (String (to_url_char (char_of_sextet n2)) (String (to_url_char (char_of_sextet n3))
       (base64UrlFromBase64 s)))).
Proof.
  unfold base64UrlFromBase64. cbn [before].
  destruct (char_of_sextet_plain n0) as [-> _].
  destruct (char_of_sextet_plain n1) as [-> _].
  destruct (char_of_sextet_plain n2) as [-> _].
  destruct (char_of_sextet_plain n3) as [-> _].
  reflexivity.
Qed.

Lemma toBase64_4 c0 c1 c2 c3 s :
  base64UrlToBase64 (String c0 (String c1 (String c2 (String c3 s)))) =
  option_map (fun t => String (of_url_char c0) (String (of_url_char c1)
                (String (of_url_char c2) (String (of_url_char c3) t))))
    (base64UrlToBase64 s).
Proof.
  unfold base64UrlToBase64. cbn [Str.map String.length].
  rewrite !Nat2N.inj_succ.
  replace (N.succ (N.succ (N.succ (N.succ (N.of_nat (String.length (Str.map of_url_char s)))))) mod 4)
    with (N.of_nat (String.length (Str.map of_url_char s)) mod 4) by arith.
  destruct (N.of_nat (String.length (Str.map of_url_char s)) mod 4) as [|[[|[]|]|[|[]|]|]];
    reflexivity.
Qed.

(** Stripping the padding and re-adding it gives the base64 text back. *)
Lemma toBase64_fromBase64 b :
  base64UrlToBase64 (base64UrlFromBase64 (encode b)) = Some (encode b).
Proof.
  induction b as [|x|x y|x y z b IH] using string_ind3.
  - reflexivity.
  - rewrite encode_1. unfold base64UrlFromBase64, base64UrlToBase64. cbn [before].
    destruct (char_of_sextet_plain (N_of_ascii x / 4)) as (-> & _ & _ & E0).
    destruct (char_of_sextet_plain (N_of_ascii x mod 4 * 16)) as (-> & _ & _ & E1).
    rewrite Ascii.eqb_refl. cbn. now rewrite E0, E1.
  - rewrite encode_2. unfold base64UrlFromBase64, base64UrlToBase64. cbn [before].
    destruct (char_of_sextet_plain (N_of_ascii x / 4)) as (-> & _ & _ & E0).
    destruct (char_of_sextet_plain (N_of_ascii x mod 4 * 16 + N_of_ascii y / 16))
      as (-> & _ & _ & E1).
    destruct (char_of_sextet_plain (N_of_ascii y mod 16 * 4)) as (-> & _ & _ & E2).
    rewrite Ascii.eqb_refl. cbn. now rewrite E0, E1, E2.
  - rewrite encode_3, fromBase64_4, toBase64_4, IH. cbn [option_map].
    destruct (char_of_sextet_plain (N_of_ascii x / 4)) as (_ & _ & _ & ->).
    destruct (char_of_sextet_plain (N_of_ascii x mod 4 * 16 + N_of_ascii y / 16))
      as (_ & _ & _ & ->).
    destruct (char_of_sextet_plain (N_of_ascii y mod 16 * 4 + N_of_ascii z / 64))
      as (_ & _ & _ & ->).
    destruct (char_of_sextet_plain (N_of_ascii z mod 64)) as (_ & _ & _ & ->).
    reflexivity.
Qed.

(** [base64UrlDecode(base64UrlEncode(buf))] gives [buf] back. *)
Lemma base64UrlDecode_encode b : base64UrlDecode (base64UrlEncode b) = Ok b.
Proof.
  unfold base64UrlDecode, base64UrlEncode.
  rewrite toBase64_fromBase64. cbn. now rewrite decode_encode.
Qed.

(** URL-safe base64 text has no dot in it. *)
Lemma base64UrlEncode_no_dot b : mem dot (base64UrlEncode b) = false.
Proof.
  unfold base64UrlEncode.
  induction b as [|x|x y|x y z b IH] using string_ind3.
  - reflexivity.
  - rewrite encode_1. unfold base64UrlFromBase64. cbn [before].
    destruct (char_of_sextet_plain (N_of_ascii x / 4)) as (-> & E0 & _).
    destruct (char_of_sextet_plain (N_of_ascii x mod 4 * 16)) as (-> & E1 & _).
    rewrite Ascii.eqb_refl. cbn. now rewrite E0, E1.
  - rewrite encode_2. unfold base64UrlFromBase64. cbn [before].
    destruct (char_of_sextet_plain (N_of_ascii x / 4)) as (-> & E0 & _).
    destruct (char_of_sextet_plain (N_of_ascii x mod 4 * 16 + N_of_ascii y / 16))
      as (-> & E1 & _).
    destruct (char_of_sextet_plain (N_of_ascii y mod 16 * 4)) as (-> & E2 & _).
    rewrite Ascii.eqb_refl. cbn. now rewrite E0, E1, E2.
  - rewrite encode_3, fromBase64_4. cbn [mem]. rewrite IH.
    destruct (char_of_sextet_plain (N_of_ascii x / 4)) as (_ & -> & _).
    destruct (char_of_sextet_plain (N_of_ascii x mod 4 * 16 + N_of_ascii y / 16))
      as (_ & -> & _).
    destruct (char_of_sextet_plain (N_of_ascii y mod 16 * 4 + N_of_ascii z / 64))
      as (_ & -> & _).
    destruct (char_of_sextet_plain (N_of_ascii z mod 64)) as (_ & -> & _).
    reflexivity.
Qed.

End Base64Facts.

Module JSONFacts.

Import Str StrFacts JSON.

Ltac each_char c := destruct c as [[] [] [] [] [] [] [] []].

(** *** Text literals *)

Lemma parse_chars_escape (s rest : string) :
  parse_chars (escape s +:+ String dquote rest) = Some (s, rest).
Proof.
  induction s as [|c s IH].
  - simpl. reflexivity.
  - cbn [escape]. rewrite append_assoc.
    each_char c; simpl; rewrite IH; reflexivity.
Qed.

Lemma parse_chars_quote (s rest : string) :
  exists t, quote s +:+ rest = String dquote t /\ parse_chars t = Some (s, rest).
Proof.
  exists (escape s +:+ String dquote rest). split.
  - unfold quote. simpl. now rewrite append_assoc.
  - apply parse_chars_escape.
Qed.

(** *** Numbers *)

Lemma span_digits_uint (d : Decimal.uint) (rest : string) :
  no_digit_head rest = true ->
  span_digits (NilEmpty.string_of_uint d +:+ rest) = (NilEmpty.string_of_uint d, rest).
Proof.
  intros Hrest. induction d; simpl; try (rewrite IHd; reflexivity).
  destruct rest as [|c rest]; simpl; [reflexivity|].
  simpl in Hrest. apply negb_true_iff in Hrest. now rewrite Hrest.
Qed.

Lemma to_uint_normal (n : N) :
  N.to_uint n <> Decimal.Nil /\ Decimal.unorm (N.to_uint n) = N.to_uint n.
Proof.
  split.
  - destruct n as [|p]; simpl; [discriminate | apply Unsigned.to_uint_nonnil].
  - rewrite <- (DecimalN.Unsigned.of_to n) at 2.
    now rewrite DecimalN.Unsigned.to_of.
Qed.

Lemma print_N_head (n : N) :
  exists c t, print_N n = String c t /\ is_digit c = true.
Proof.
  unfold print_N. destruct (to_uint_normal n) as [Hnil _].
  destruct (N.to_uint n); try congruence; simpl; eauto.
Qed.

Lemma uint_eqb_refl d : uint_eqb d d = true.
Proof. unfold uint_eqb. destruct (Decimal.uint_eq_dec d d); congruence. Qed.

Lemma uint_eqb_neq a b : a <> b -> uint_eqb a b = false.
Proof. unfold uint_eqb. destruct (Decimal.uint_eq_dec a b); congruence. Qed.

Lemma parse_digits_print_N neg (n : N) (rest : string) :
  no_digit_head rest = true ->
  parse_digits neg (print_N n +:+ rest) =
  Some (if neg then (- Z.of_N n)%Z else Z.of_N n, rest).
Proof.
  intros Hrest. unfold parse_digits, print_N.
  rewrite (span_digits_uint _ _ Hrest), NilEmpty.usu.
  destruct (to_uint_normal n) as [Hnil Hnorm].
  rewrite (uint_eqb_neq _ _ Hnil), Hnorm, uint_eqb_refl.
  now rewrite DecimalN.Unsigned.of_to.
Qed.

Lemma digit_not_minus c : is_digit c = true -> Ascii.eqb c "-" = false.
Proof. each_char c; intros Hc; try discriminate; reflexivity. Qed.

Lemma parse_number_print_Z (n : Z) (rest : string) :
  no_digit_head rest = true ->
  parse_number (print_Z n +:+ rest) = Some (n, rest).
Proof.
  intros Hrest. unfold print_Z.
  destruct (Z.ltb_spec n 0) as [Hneg|Hpos].
  - cbn [String.append parse_number]. rewrite Ascii.eqb_refl.
    rewrite (parse_digits_print_N true _ _ Hrest). do 2 f_equal. lia.
  - destruct (print_N_head (Z.to_N n)) as (c & t & E & Hc).
    pose proof (parse_digits_print_N false (Z.to_N n) rest Hrest) as Hp.
    rewrite E in *. cbn [String.append parse_number] in *.
    rewrite (digit_not_minus c Hc), Hp. do 2 f_equal. lia.
Qed.

Lemma print_Z_head (n : Z) :
  exists c t, print_Z n = String c t /\ (c = "-"%char \/ is_digit c = true).
Proof.
  unfold print_Z. destruct (n <? 0)%Z.
  - eauto.
  - destruct (print_N_head (Z.to_N n)) as (c & t & E & Hc). eauto.
Qed.

(** *** Values *)

Lemma delim_no_digit s : delim s = true -> no_digit_head s = true.
Proof.
  destruct s as [|c s]; simpl; [reflexivity|].
  each_char c; intros H; try discriminate; reflexivity.
Qed.

Lemma stringify_head v :
  plain v = true -> exists c t, stringify v = String c t /\ starter c = true.
Proof.
  destruct v as [| [] | n | s | b | t | l | m]; simpl; intros Hp; try discriminate;
    try (eexists _, _; split; [reflexivity | reflexivity]).
  destruct (print_Z_head n) as (c & t & E & [-> | Hc]); rewrite E.
  - eexists _, _; split; reflexivity.
  - eexists _, _; split; [reflexivity|].
    unfold starter. rewrite Hc. now rewrite !orb_true_r.
Qed.

Lemma parse_value_number f c t :
  c = "-"%char \/ is_digit c = true ->
  parse_value (S f) (String c t) =
  match parse_number (String c t) with
  | Some (n, r) => Some (VNum n, r)
  | None => None
  end.
Proof.
  intros [-> | Hc]; [reflexivity|].
  revert Hc. each_char c; intros Hc; try discriminate; reflexivity.
Qed.

Lemma starter_facts c :
  starter c = true ->
  is_ws c = false /\ Ascii.eqb c "]" = false /\ Ascii.eqb c "}" = false.
Proof. each_char c; intros H; try discriminate; repeat split. Qed.

Lemma concat_cons (x : string) (y : string) (l : list string) :
  String.concat "," (x :: y :: l) = x +:+ String "," (String.concat "," (y :: l)).
Proof. reflexivity. Qed.

Lemma skip_ws_starter c t : starter c = true -> skip_ws (String c t) = String c t.
Proof. intros H. simpl. now destruct (starter_facts c H) as (-> & _). Qed.

Lemma elements_head (l : list value) (x : string) :
  l <> [] -> forallb plain l = true ->
  exists c t, String.concat "," (List.map stringify l) +:+ x = String c t /\
              starter c = true.
Proof.
  destruct l as [|v l]; [congruence|]. intros _ Hp. simpl in Hp.
  apply andb_true_iff in Hp as [Hv _].
  destruct (stringify_head v Hv) as (c & t & E & Hc).
  destruct l as [|v' l].
  - simpl. rewrite E. simpl. eauto.
  - cbn [List.map]. rewrite concat_cons, E. simpl. eauto.
Qed.

Lemma members_head (m : list (string * value)) (x : string) :
  m <> [] ->
  exists t, String.concat "," (List.map member_text m) +:+ x = String dquote t.
Proof.
  destruct m as [|[k v] m]; [congruence|]. intros _.
  destruct m as [|kv m].
  - simpl. unfold member_text, member, quote. simpl. eauto.
  - cbn [List.map]. rewrite concat_cons. unfold member_text at 1, member, quote.
    simpl. eauto.
Qed.

Lemma assign_distinct (acc m : list (string * value)) :
  distinct (List.map fst (acc ++ m)) = true -> Obj.assign acc m = acc ++ m.
Proof.
  revert acc. induction m as [|[k v] m IH]; intros acc Hd.
  - simpl. now rewrite app_nil_r.
  - unfold Obj.assign. cbn [fold_left fst snd].
    assert (Hset : Obj.set acc k v = acc ++ [(k, v)]).
    { clear IH. induction acc as [|[k' v'] acc IHacc]; [reflexivity|].
      cbn [Obj.set]. cbn [app List.map fst distinct] in Hd.
      apply andb_true_iff in Hd as [Hk Hd].
      apply negb_true_iff in Hk.
      rewrite List.map_app, existsb_app in Hk.
      apply orb_false_iff in Hk as [_ Hk]. cbn in Hk.
      apply orb_false_iff in Hk as [Hk _].
      rewrite Hk. now rewrite (IHacc Hd). }
    rewrite Hset. fold (Obj.assign (acc ++ [(k, v)]) m).
    rewrite IH; rewrite <- app_assoc; [reflexivity | exact Hd].
Qed.

Ltac norm_app :=
  repeat first [rewrite append_assoc | progress cbn [String.append]].

Lemma parse_members_step f (k x : string) :
  parse_members (S f) (String dquote (escape k +:+ String dquote (String ":" x))) =
  match parse_value f x with
  | Some (v, r2) =>
      match skip_ws r2 with
      | String c r3 =>
          if Ascii.eqb c "," then
            match parse_members f r3 with
            | Some (ms, r4) => Some ((k, v) :: ms, r4)
            | None => None
            end
          else if Ascii.eqb c "}" then Some ([(k, v)], r3)
          else None
      | EmptyString => None
      end
  | None => None
  end.
Proof.
  cbn [parse_members].
  change (skip_ws (String dquote ?t)) with (String dquote t).
  cbv iota. rewrite Ascii.eqb_refl, parse_chars_escape. reflexivity.
Qed.

(** Parsing what [JSON.stringify] wrote: the value, the elements of an
    array and the members of an object, by induction on the fuel. *)
Lemma parse_stringify_fuel (f : nat) :
  (forall v rest, plain v = true -> (size v <= f)%nat -> delim rest = true ->
     parse_value f (stringify v +:+ rest) = Some (v, rest)) /\
  (forall l rest, l <> [] -> forallb plain l = true ->
     (list_sum (List.map (fun x => S (size x)) l) <= f)%nat ->
     parse_elements f (String.concat "," (List.map stringify l) +:+ String "]" rest)
     = Some (l, rest)) /\
  (forall m rest, m <> [] -> forallb (fun kv => plain (snd kv)) m = true ->
     (list_sum (List.map (fun kv => S (size (snd kv))) m) <= f)%nat ->
     parse_members f (String.concat "," (List.map member_text m) +:+ String "}" rest)
     = Some (m, rest)).
Proof.
  induction f as [|f (IHv & IHl & IHm)].
  { split; [|split].
    - intros v rest _ Hs. destruct v; simpl in Hs; lia.
    - intros [|v l] rest Hne _ Hs; [congruence | simpl in Hs; lia].
    - intros [|kv m] rest Hne _ Hs; [congruence | simpl in Hs; lia]. }
  split; [|split].
  - intros v rest Hp Hs Hd.
    destruct v as [| [] | n | s | b | t | l | m]; try discriminate Hp;
      try reflexivity.
    + (* number *)
      destruct (print_Z_head n) as (c & t & E & Hc).
      cbn [stringify]. pose proof (parse_number_print_Z n rest (delim_no_digit _ Hd)) as Hn.
      rewrite E in *. cbn [String.append] in *.
      now rewrite (parse_value_number f c _ Hc), Hn.
    + (* text *)
      destruct (parse_chars_quote s rest) as (t & E & Ht).
      cbn [stringify]. rewrite E. simpl. now rewrite Ht.
    + (* array *)
      cbn [stringify]. rewrite !append_assoc. cbn [String.append].
      destruct l as [|v l]; [reflexivity|].
      cbn [plain] in Hp. cbn [size] in Hs.
      destruct (elements_head (v :: l) (String "]" rest)) as (c & t & E & Hc);
        [discriminate | exact Hp |].
      destruct (starter_facts c Hc) as (Hws & Hb & _).
      change ("]" +:+ rest) with (String "]" rest).
      pose proof (IHl (v :: l) rest ltac:(discriminate) Hp ltac:(simpl in *; lia)) as Hl.
      rewrite E in *. simpl. rewrite Hws, Hb. now rewrite Hl.
    + (* object *)
      cbn [stringify]. rewrite !append_assoc. cbn [String.append].
      destruct m as [|kv m]; [reflexivity|].
      cbn [plain] in Hp. apply andb_true_iff in Hp as [Hk Hp]. cbn [size] in Hs.
      destruct (members_head (kv :: m) (String "}" rest)) as (t & E);
        [discriminate|].
      change ("}" +:+ rest) with (String "}" rest).
      pose proof (IHm (kv :: m) rest ltac:(discriminate) Hp ltac:(simpl in *; lia)) as Hm.
      fold member_text. change (fun kv0 => member (fst kv0) (stringify (snd kv0))) with member_text.
      rewrite E in *. simpl. rewrite Hm.
      unfold obj_of_members. now rewrite (assign_distinct [] (kv :: m) Hk).
  - intros l rest Hne Hp Hs.
    destruct l as [|v l]; [congruence|]. clear Hne.
    cbn [forallb] in Hp. apply andb_true_iff in Hp as [Hv Hp].
    cbn [List.map list_sum] in Hs.
    destruct l as [|v' l].
    + cbn [List.map String.concat parse_elements].
      rewrite (IHv v (String "]" rest) Hv ltac:(simpl in Hs; lia) eq_refl).
      reflexivity.
    + pose proof (IHl (v' :: l) rest ltac:(discriminate) Hp ltac:(simpl in *; lia)) as Hl.
      cbn [List.map] in *. rewrite concat_cons, append_assoc. cbn [String.append].
      set (tail := String.concat "," _ +:+ String "]" rest) in *. clearbody tail.
      cbn [String.append parse_elements].
      rewrite (IHv v _ Hv) by (first [reflexivity | simpl in *; lia]).
      simpl. now rewrite Hl.
  - intros m rest Hne Hp Hs.
    destruct m as [|[k v] m]; [congruence|]. clear Hne.
    cbn [forallb snd] in Hp. apply andb_true_iff in Hp as [Hv Hp].
    cbn [List.map list_sum snd] in Hs.
    destruct m as [|kv m].
    + cbn [List.map String.concat]. unfold member_text, member, quote. cbn [fst snd].
      norm_app. rewrite parse_members_step.
      rewrite (IHv v (String "}" rest) Hv ltac:(simpl in *; lia) eq_refl).
      reflexivity.
    + pose proof (IHm (kv :: m) rest ltac:(discriminate) Hp ltac:(simpl in *; lia)) as Hm.
      cbn [List.map] in *. rewrite concat_cons, append_assoc. cbn [String.append].
      set (tail := String.concat "," _ +:+ String "}" rest) in *. clearbody tail.
      unfold member_text at 1, member, quote. cbn [fst snd].
      norm_app. rewrite parse_members_step.
      rewrite (IHv v _ Hv) by (first [reflexivity | simpl in *; lia]).
      simpl. now rewrite Hm.
Qed.

(** Induction on values, through the lists they hold. *)
Lemma value_induction (P : value -> Prop) :
  P VNull -> (forall b, P (VBool b)) -> (forall n, P (VNum n)) ->
  (forall s, P (VStr s)) -> (forall b, P (VBuffer b)) -> (forall t, P (VDate t)) ->
  (forall l, Forall P l -> P (VArr l)) ->
  (forall m, Forall (fun kv => P (snd kv)) m -> P (VObj m)) ->
  forall v, P v.
Proof.
  intros Hnull Hbool Hnum Hstr Hbuf Hdate Harr Hobj.
  fix IH 1. intros [| b | n | s | b | t | l | m].
  - exact Hnull.
  - apply Hbool.
  - apply Hnum.
  - apply Hstr.
  - apply Hbuf.
  - apply Hdate.
  - apply Harr. induction l as [|x l IHl]; constructor; [apply IH | exact IHl].
  - apply Hobj. induction m as [|[k x] m IHm]; constructor; [apply IH | exact IHm].
Qed.

Lemma length_concat_comma (l : list string) :
  l <> [] ->
  (String.length (String.concat "," l) + 1 =
   list_sum (List.map (fun x => S (String.length x)) l))%nat.
Proof.
  induction l as [|x l IH]; [congruence|]. intros _.
  destruct l as [|y l].
  - simpl. lia.
  - rewrite concat_cons. cbn [List.map list_sum fold_right] in *.
    rewrite length_append. cbn [String.length].
    specialize (IH ltac:(discriminate)). simpl in IH. simpl. lia.
Qed.

Lemma list_sum_le {A} (f g : A -> nat) (l : list A) :
  Forall (fun x => (f x <= g x)%nat) l ->
  (list_sum (List.map f l) <= list_sum (List.map g l))%nat.
Proof. induction 1; simpl; lia. Qed.

Lemma length_quote s : (2 <= String.length (quote s))%nat.
Proof. unfold quote. cbn [String.length]. rewrite length_append. simpl. lia. Qed.

Lemma length_print_N n : (1 <= String.length (print_N n))%nat.
Proof. destruct (print_N_head n) as (c & t & -> & _). simpl. lia. Qed.

(** A text is at least as long as the value it writes is large. *)
Lemma size_le_length v : (size v <= String.length (stringify v))%nat.
Proof.
  induction v as [| b | n | s | b | t | l IH | m IH] using value_induction.
  - simpl. lia.
  - destruct b; simpl; lia.
  - cbn [stringify size]. unfold print_Z.
    destruct (n <? 0)%Z; [simpl; lia | apply length_print_N].
  - pose proof (length_quote s). simpl. lia.
  - cbn [stringify size]. rewrite !length_append. simpl. lia.
  - destruct t as [t|]; [|simpl; lia].
    pose proof (length_quote (Date.toISOString t)). simpl. lia.
  - cbn [stringify size]. rewrite !length_append. cbn [String.length].
    destruct l as [|x l]; [simpl; lia|].
    pose proof (length_concat_comma (List.map stringify (x :: l)) ltac:(discriminate)) as HL.
    rewrite List.map_map in HL.
    pose proof (list_sum_le (fun x => S (size x)) (fun x => S (String.length (stringify x)))
                  (x :: l)) as Hle.
    rewrite Forall_forall in IH.
    assert (Hall : Forall (fun x => (S (size x) <= S (String.length (stringify x)))%nat) (x :: l)).
    { apply Forall_forall. intros y Hy. specialize (IH y Hy). lia. }
    specialize (Hle Hall). lia.
  - cbn [stringify size]. rewrite !length_append. cbn [String.length].
    destruct m as [|x m]; [simpl; lia|].
    pose proof (length_concat_comma
                  (List.map (fun kv => member (fst kv) (stringify (snd kv))) (x :: m))
                  ltac:(discriminate)) as HL.
    rewrite List.map_map in HL.
    pose proof (list_sum_le (fun kv => S (size (snd kv)))
                  (fun kv => S (String.length (member (fst kv) (stringify (snd kv)))))
                  (x :: m)) as Hle.
    rewrite Forall_forall in IH.
    assert (Hall : Forall (fun kv : string * value =>
                     (S (size (snd kv)) <=
                      S (String.length (member (fst kv) (stringify (snd kv)))))%nat) (x :: m)).
    { apply Forall_forall. intros y Hy. specialize (IH y Hy).
      unfold member. rewrite !length_append. simpl. lia. }
    specialize (Hle Hall). lia.
Qed.

(** [JSON.parse(JSON.stringify(v))] is [v] for plain data. *)
Lemma parse_stringify v : plain v = true -> JSON.parse (stringify v) = Ok v.
Proof.
  intros Hp. unfold JSON.parse.
  destruct (parse_stringify_fuel (S (String.length (stringify v)))) as (Hv & _).
  pose proof (size_le_length v) as Hs.
  specialize (Hv v "" Hp ltac:(lia) eq_refl).
  rewrite append_nil_r in Hv. rewrite Hv. reflexivity.
Qed.

End JSONFacts.

Module DateFacts.

Import Str StrFacts Date.
Local Open Scope Z_scope.

Ltac euclid := Z.to_euclidean_division_equations; lia.

(** The day number of a calendar date is the day it was computed from. *)
Lemma days_from_civil_from_days z :
  let '(y, m, d) := civil_from_days z in
  days_from_civil y m d = z /\ 1 <= m <= 12 /\ 1 <= d <= 31 /\
  (z + 719468) / 146097 * 400 <= y <= (z + 719468) / 146097 * 400 + 400.
Proof.
  unfold civil_from_days. cbv zeta.
  set (era := (z + 719468) / 146097).
  set (doe := z + 719468 - era * 146097).
  assert (Hdoe : 0 <= doe <= 146096) by (subst doe era; euclid).
  assert (Hz : z = era * 146097 + doe - 719468) by (subst doe; lia).
  clearbody doe. clearbody era.
  set (yoe := (doe - doe / 1460 + doe / 36524 - doe / 146096) / 365).
  assert (Hyoe : 0 <= yoe <= 399) by (subst yoe; euclid).
  set (doy := doe - (365 * yoe + yoe / 4 - yoe / 100)).
  assert (Hdoy : 0 <= doy <= 365) by (subst doy yoe; euclid).
  assert (Hdoe' : doe = yoe * 365 + yoe / 4 - yoe / 100 + doy) by (subst doy; lia).
  clearbody doy. clearbody yoe.
  set (mp := (5 * doy + 2) / 153).
  assert (Hmp : 0 <= mp <= 11) by (subst mp; euclid).
  set (d := doy - (153 * mp + 2) / 5 + 1).
  assert (Hd : 1 <= d <= 31) by (subst d mp; euclid).
  assert (Hdoy' : doy = (153 * mp + 2) / 5 + d - 1) by (subst d; lia).
  clearbody d. clearbody mp.
  unfold days_from_civil.
  destruct (mp <? 10) eqn:E.
  - destruct (mp + 3 <=? 2) eqn:E1; [lia|].
    destruct (mp + 3 >? 2) eqn:E2; [|lia].
    replace (mp + 3 - 3) with mp by lia.
    replace ((yoe + era * 400) / 400) with era by euclid.
    replace (yoe + era * 400 - era * 400) with yoe by lia.
    lia.
  - destruct (mp - 9 <=? 2) eqn:E1; [|lia].
    destruct (mp - 9 >? 2) eqn:E2; [lia|].
    replace (mp - 9 + 9) with mp by lia.
    replace ((yoe + era * 400 + 1 - 1) / 400) with era by euclid.
    replace (yoe + era * 400 + 1 - 1 - era * 400) with yoe by lia.
    lia.
Qed.

Lemma digit_val_char d :
  0 <= d <= 9 ->
  digit_val (digit_char d) = Some d /\
  Ascii.eqb (digit_char d) "-" = false /\ Ascii.eqb (digit_char d) "+" = false.
Proof.
  intros H.
  assert (Hc : d = 0 \/ d = 1 \/ d = 2 \/ d = 3 \/ d = 4 \/ d = 5 \/ d = 6 \/ d = 7 \/
               d = 8 \/ d = 9) by lia.
  repeat destruct Hc as [-> | Hc]; try subst d; repeat split.
Qed.

Lemma digits_S k n :
  digits (S k) n = digits k (n / 10) +:+ String (digit_char (n mod 10)) "".
Proof. reflexivity. Qed.

(** Reading back the digits [digits] wrote. *)
Lemma read_digits_digits (k j : nat) (n acc : Z) (rest : string) :
  0 <= n < 10 ^ Z.of_nat k ->
  read_digits (k + j) acc (digits k n +:+ rest) =
  read_digits j (acc * 10 ^ Z.of_nat k + n) rest.
Proof.
  revert j n acc rest. induction k as [|k IH]; intros j n acc rest Hn.
  - simpl in *. f_equal. lia.
  - rewrite digits_S, append_assoc. cbn [String.append].
    replace (S k + j)%nat with (k + S j)%nat by lia.
    rewrite Nat2Z.inj_succ, Z.pow_succ_r in Hn by lia.
    rewrite IH by euclid.
    cbn [read_digits].
    destruct (digit_val_char (n mod 10) ltac:(euclid)) as (-> & _).
    f_equal. rewrite Nat2Z.inj_succ, Z.pow_succ_r by lia.
    pose proof (Z.div_mod n 10 ltac:(lia)). lia.
Qed.

Lemma read_digits_exact (k : nat) (n : Z) (rest : string) :
  0 <= n < 10 ^ Z.of_nat k ->
  read_digits k 0 (digits k n +:+ rest) = Some (n, rest).
Proof.
  intros Hn. replace k with (k + 0)%nat at 1 by lia.
  rewrite read_digits_digits by exact Hn. reflexivity.
Qed.

Lemma digits_head (k : nat) (n : Z) (rest : string) :
  exists d t, digits (S k) n +:+ rest = String (digit_char d) t /\ 0 <= d <= 9.
Proof.
  revert n rest. induction k as [|k IH]; intros n rest.
  - exists (n mod 10), rest. split; [reflexivity | euclid].
  - rewrite digits_S, append_assoc. apply IH.
Qed.

Lemma read_year_plain (y : Z) (rest : string) :
  0 <= y <= 9999 -> read_year (digits 4 y +:+ rest) = Some (y, rest).
Proof.
  intros Hy. pose proof (read_digits_exact 4 y rest ltac:(simpl; lia)) as Hr.
  destruct (digits_head 3 y rest) as (d & t & E & Hd).
  rewrite E in *. unfold read_year.
  destruct (digit_val_char d Hd) as (_ & -> & ->). exact Hr.
Qed.

Lemma read_year_any (y : Z) (rest : string) :
  -999999 <= y <= 999999 ->
  read_year
    ((if (0 <=? y) && (y <=? 9999) then digits 4 y
      else if y <? 0 then String "-" (digits 6 (- y))
      else String "+" (digits 6 y)) +:+ rest) = Some (y, rest).
Proof.
  intros Hy.
  destruct ((0 <=? y) && (y <=? 9999)) eqn:E.
  - apply read_year_plain. lia.
  - destruct (y <? 0) eqn:E1.
    + cbn [String.append read_year]. change (Ascii.eqb "-" "-") with true. cbv iota.
      rewrite read_digits_exact by (simpl; lia). f_equal. f_equal. lia.
    + cbn [String.append read_year]. change (Ascii.eqb "+" "-") with false.
      change (Ascii.eqb "+" "+") with true. cbv iota.
      rewrite read_digits_exact by (simpl; lia). reflexivity.
Qed.

(** [new Date(date.toISOString())] is the same instant. *)
Lemma parse_toISOString (t : Date) :
  in_range t = true -> parse (toISOString t) = Some t.
Proof.
  intros Hr. unfold parse.
  assert (Hf : read_fields (toISOString t) = Some t).
  { unfold toISOString.
    pose proof (days_from_civil_from_days (t / msPerDay)) as Hc.
    destruct (civil_from_days (t / msPerDay)) as [[y m] d].
    destruct Hc as (Hdays & Hm & Hd & Hy).
    unfold in_range in Hr. unfold msPerDay in *.
    set (ms := t mod 86400000) in *.
    assert (Hms : 0 <= ms < 86400000) by (subst ms; euclid).
    assert (Ht : t = days_from_civil y m d * 86400000 + ms) by (subst ms; rewrite Hdays; euclid).
    assert (Hy' : -999999 <= y <= 999999) by euclid.
    clearbody ms. clear Hdays Hy.
    unfold read_fields.
    repeat first [rewrite append_assoc | progress cbn [String.append]].
    rewrite read_year_any by exact Hy'.
    repeat first
      [ progress (cbv [mbind option_bind expect]; cbv beta iota)
      | progress change (Ascii.eqb "-" "-") with true
      | progress change (Ascii.eqb "T" "T") with true
      | progress change (Ascii.eqb ":" ":") with true
      | progress change (Ascii.eqb "." ".") with true
      | progress change (Ascii.eqb "Z" "Z") with true
      | rewrite read_digits_exact by (simpl; euclid) ].
    f_equal. subst t. unfold msPerDay. euclid. }
  rewrite Hf, Hr. cbn [andb]. now rewrite String.eqb_refl.
Qed.

End DateFacts.

Module ObjFacts.

Import Obj.

Lemma get_set_eq m k v : get (set m k v) k = Some v.
Proof.
  induction m as [|[k' v'] m IH]; cbn [set get].
  - now rewrite String.eqb_refl.
  - destruct (String.eqb k' k) eqn:E; cbn [get]; rewrite E; [reflexivity | exact IH].
Qed.

Lemma get_set_ne m k v k' : k <> k' -> get (set m k v) k' = get m k'.
Proof.
  intros Hne. induction m as [|[k0 v0] m IH]; cbn [set get].
  - apply String.eqb_neq in Hne. now rewrite Hne.
  - destruct (String.eqb k0 k) eqn:E; cbn [get].
    + apply String.eqb_eq in E. subst k0.
      apply String.eqb_neq in Hne. now rewrite Hne.
    + now rewrite IH.
Qed.

Lemma get_remove_eq m k : get (remove m k) k = None.
Proof.
  induction m as [|[k' v'] m IH]; cbn [remove get]; [reflexivity|].
  destruct (String.eqb k' k) eqn:E; cbn [get]; [exact IH | now rewrite E].
Qed.

Lemma get_remove_ne m k k' : k <> k' -> get (remove m k) k' = get m k'.
Proof.
  intros Hne. induction m as [|[k0 v0] m IH]; cbn [remove get]; [reflexivity|].
  destruct (String.eqb k0 k) eqn:E; cbn [get].
  - apply String.eqb_eq in E. subst k0.
    apply String.eqb_neq in Hne. now rewrite Hne.
  - now rewrite IH.
Qed.

Lemma get_set_opt_eq m k v : get (set_opt m k v) k = v.
Proof. destruct v; [apply get_set_eq | apply get_remove_eq]. Qed.

Lemma get_set_opt_ne m k v k' : k <> k' -> get (set_opt m k v) k' = get m k'.
Proof. destruct v; [apply get_set_ne | apply get_remove_ne]. Qed.

End ObjFacts.

Module JwtFacts.

Import Str StrFacts Base64 Base64Facts JSON JSONFacts Jwt Samples.
Local Open Scope Z_scope.

Lemma split_signed (h b s : Buffer) :
  split dot (base64UrlEncode h +:+ "." +:+ base64UrlEncode b +:+ "." +:+ base64UrlEncode s)
  = [base64UrlEncode h; base64UrlEncode b; base64UrlEncode s].
Proof.
  unfold dot. cbn [String.append].
  rewrite split_app by apply base64UrlEncode_no_dot.
  rewrite split_app by apply base64UrlEncode_no_dot.
  rewrite split_free by apply base64UrlEncode_no_dot.
  reflexivity.
Qed.

Lemma split_unsigned (h b : Buffer) :
  split dot (base64UrlEncode h +:+ "." +:+ base64UrlEncode b)
  = [base64UrlEncode h; base64UrlEncode b].
Proof.
  unfold dot. cbn [String.append].
  rewrite split_app by apply base64UrlEncode_no_dot.
  rewrite split_free by apply base64UrlEncode_no_dot.
  reflexivity.
Qed.

(** Parsing the text of a signed token gives the token back. *)
Lemma fromString_toString (header body : value) (sig : Buffer) :
  plain header = true -> plain body = true ->
  fromString (toString (new header body (Some sig))) = Ok (new header body (Some sig)).
Proof.
  intros Hh Hb. remember (Ok (new header body (Some sig))) as r eqn:Er.
  unfold toString, new, fromString. cbn [stringRepresentation].
  unfold headerBase64, bodyBase64, signatureBase64.
  rewrite !append_assoc, split_signed.
  rewrite !base64UrlDecode_encode. cbn [mbind result_bind].
  rewrite (parse_stringify header Hh), (parse_stringify body Hb).
  subst r. reflexivity.
Qed.

(** The only error [fromString] throws. *)
Lemma fromString_error (s : string) (e : exn) :
  fromString s = Throw e -> e = WrongJwtFormat.
Proof.
  unfold fromString.
  destruct (split dot s) as [|p0 [|p1 [|p2 [|p3 ps]]]]; try congruence.
  unfold catch_all.
  destruct (_ ≫= _); congruence.
Qed.

Lemma plain_header_value (h : IJwtHeader) : plain (header_value h) = true.
Proof. reflexivity. Qed.

Lemma forallb_plain_text (d : list (string * string)) :
  forallb (fun kv : string * value => plain (snd kv))
    (List.map (fun kv : string * string => (fst kv, VStr (snd kv))) d) = true.
Proof. induction d as [|kv d IH]; [reflexivity | exact IH]. Qed.

Lemma plain_text_object (d : list (string * string)) :
  plain (VObj (List.map (fun kv : string * string => (fst kv, VStr (snd kv))) d))
  = distinct (List.map fst d).
Proof.
  cbn [plain]. rewrite forallb_plain_text, andb_true_r, List.map_map.
  reflexivity.
Qed.

Lemma plain_body_value (b : IJwtBody) :
  plain (body_value b) =
  match ada b with
  | Some d => distinct (List.map fst d)
  | None => true
  end.
Proof.
  unfold body_value. destruct (ada b) as [d|]; [|reflexivity].
  pose proof (plain_text_object d) as E. cbn [plain] in E.
  cbn. unfold extra_value. cbn [plain]. rewrite E. now rewrite andb_true_r.
Qed.

Lemma getUnixTimestamp_addSeconds (d : Date.Date) (n : Z) :
  Date.getUnixTimestamp (Date.addSeconds d n) = Date.getUnixTimestamp d + n.
Proof.
  unfold Date.getUnixTimestamp, Date.addSeconds.
  Z.to_euclidean_division_equations; lia.
Qed.




(** C2: the round-trip law.  For a header and a body that are plain JSON
    data and any signature bytes, parsing the text of the signed token gives
    a token with the same header, the same body and the same signature
    bytes (and so the same token). *)
Theorem round_trip (header body : value) (sig : Buffer) :
  plain header = true -> plain body = true ->
  exists jwt,
    fromString (toString (new header body (Some sig))) = Ok jwt /\
    Jwt.header jwt = header /\ Jwt.body jwt = body /\ signature jwt = Some sig /\
    jwt = new header body (Some sig).
Proof.
  intros Hh Hb. exists (new header body (Some sig)).
  split; [now apply fromString_toString | repeat split].
Qed.

(** C2, witness: a token with a four-byte signature. *)
Lemma round_trip_witness :
  plain (header_value sample_header) = true /\
  plain (body_value sample_body) = true /\
  exists jwt,
    fromString (toString (new (header_value sample_header) (body_value sample_body)
                            (Some "sig!"))) = Ok jwt /\
    Jwt.header jwt = header_value sample_header /\
    Jwt.body jwt = body_value sample_body /\ signature jwt = Some "sig!" /\
    jwt = new (header_value sample_header) (body_value sample_body) (Some "sig!").
Proof.
  split; [reflexivity|]. split; [reflexivity|].
  apply (round_trip (header_value sample_header) (body_value sample_body) "sig!");
    reflexivity.
Defined.

(** C10: a token built without a signature is written as two segments, its
    header and its body with one dot between them, and the parser, which
    wants three parts, rejects that text. *)
Theorem unsigned_not_parsed (header body : value) :
  toString (new header body None) = headerBase64 header +:+ "." +:+ bodyBase64 body /\
  split dot (toString (new header body None)) = [headerBase64 header; bodyBase64 body] /\
  fromString (toString (new header body None)) = Throw WrongJwtFormat.
Proof.
  split; [reflexivity|].
  assert (Hs : split dot (toString (new header body None))
               = [headerBase64 header; bodyBase64 body]).
  { unfold toString, new. cbn [stringRepresentation].
    unfold headerBase64, bodyBase64. apply split_unsigned. }
  split; [exact Hs|]. unfold fromString. now rewrite Hs.
Qed.

Lemma decoded_empty (p0 p1 p2 : string) :
  p0 = EmptyString \/ p1 = EmptyString -> exists e, decoded p0 p1 p2 = Throw e.
Proof.
  assert (He : base64UrlDecode "" = Ok EmptyString) by reflexivity.
  assert (Hp : JSON.parse "" = Throw SyntaxError) by reflexivity.
  unfold decoded. intros [-> | ->].
  - rewrite He. cbn [mbind result_bind].
    destruct (base64UrlDecode p1); [|eauto].
    destruct (base64UrlDecode p2); [|eauto].
    cbn [mbind result_bind]. rewrite Hp. eauto.
  - rewrite He.
    destruct (base64UrlDecode p0) as [hj|]; [|eauto]. cbn [mbind result_bind].
    destruct (base64UrlDecode p2); [|eauto]. cbn [mbind result_bind].
    destruct (JSON.parse hj); [|eauto]. cbn [mbind result_bind]. rewrite Hp. eauto.
Qed.

(** C5 (as amended): [fromString] fails with the one error Wrong JWT format
    for every text that does not split on the dot into exactly three parts,
    for every text whose header or body part is empty, and whenever decoding
    a part or parsing the header or the body throws; it throws nothing else;
    and it fails in no other case: three parts that decode and parse give a
    token. *)
Theorem fromString_failures (jwtStr : string) :
  (length (split dot jwtStr) <> 3%nat -> fromString jwtStr = Throw WrongJwtFormat) /\
  (forall p0 p1 p2, split dot jwtStr = [p0; p1; p2] ->
     (p0 = EmptyString \/ p1 = EmptyString -> fromString jwtStr = Throw WrongJwtFormat) /\
     (forall e, decoded p0 p1 p2 = Throw e -> fromString jwtStr = Throw WrongJwtFormat) /\
     (forall header body sig, decoded p0 p1 p2 = Ok (header, body, sig) ->
        fromString jwtStr = Ok (new header body (Some sig)))) /\
  (forall e, fromString jwtStr = Throw e -> e = WrongJwtFormat).
Proof.
  split; [|split].
  - intros Hlen. unfold fromString.
    destruct (split dot jwtStr) as [|p0 [|p1 [|p2 [|p3 ps]]]]; try reflexivity.
    cbn in Hlen. congruence.
  - intros p0 p1 p2 Hs.
    assert (Hfrom : fromString jwtStr =
                    catch_all WrongJwtFormat
                      ('(header, body, sig) ← decoded p0 p1 p2;
                       Ok (new header body (Some sig)))).
    { unfold fromString, decoded. rewrite Hs.
      destruct (base64UrlDecode p0); [|reflexivity].
      destruct (base64UrlDecode p1); [|reflexivity].
      destruct (base64UrlDecode p2); [|reflexivity].
      cbn [mbind result_bind].
      destruct (JSON.parse a); [|reflexivity].
      destruct (JSON.parse a0); reflexivity. }
    split; [|split].
    + intros Hempty. rewrite Hfrom.
      destruct (decoded_empty p0 p1 p2 Hempty) as [e ->]. reflexivity.
    + intros e He. rewrite Hfrom, He. reflexivity.
    + intros header body sig Hd. rewrite Hfrom, Hd. reflexivity.
  - apply fromString_error.
Qed.

(** C5, counterexample: the text e30.e30. has an empty third part (it does
    not split into three non-empty parts), and [fromString] accepts it: the
    token has an empty header, an empty body and an empty signature. *)
Lemma empty_signature_accepted :
  split dot "e30.e30." = ["e30"; "e30"; ""] /\
  fromString "e30.e30." = Ok (new (VObj []) (VObj []) (Some EmptyString)).
Proof. split; vm_compute; reflexivity. Qed.



(** C9: expiry is strict.  For a token whose expiry is a number,
    [isExpired] at a date is true exactly when the expiry is less than the
    Unix seconds of the date: at a date whose Unix seconds are the expiry the
    token is not expired, one second later it is. *)
Theorem expiry_is_strict (jwt : Jwt) (m : list (string * value)) (expiry : Z)
    (atTime : Date.Date) :
  body jwt = VObj m -> Obj.get m "exp" = Some (VNum expiry) ->
  isExpired jwt atTime = Ok (expiry <? Date.getUnixTimestamp atTime) /\
  (isExpired jwt atTime = Ok true <-> expiry < Date.getUnixTimestamp atTime) /\
  (Date.getUnixTimestamp atTime = expiry ->
   isExpired jwt atTime = Ok false /\
   isExpired jwt (Date.addSeconds atTime 1) = Ok true).
Proof.
  intros Hbody Hexp.
  assert (H : forall d, isExpired jwt d = Ok (expiry <? Date.getUnixTimestamp d)).
  { intros d. unfold isExpired. rewrite Hbody. cbn [JS.get mbind result_bind].
    rewrite Hexp. reflexivity. }
  split; [apply H|]. split.
  - rewrite H. split.
    + intros E. injection E as E. now apply Z.ltb_lt.
    + intros E. apply Z.ltb_lt in E. now rewrite E.
  - intros Hnow. rewrite !H, getUnixTimestamp_addSeconds, Hnow.
    rewrite Z.ltb_irrefl. split; [reflexivity|].
    f_equal. apply Z.ltb_lt. lia.
Qed.

(** C9, witness: the sample token expires at 1700003600; at that second
    (plus 999 milliseconds) it is not expired, one second later it is. *)
Lemma expiry_is_strict_witness :
  let jwt := new (header_value sample_header) (body_value sample_body) None in
  JS.get (body jwt) "exp" = Ok (Some (VNum 1700003600)) /\
  Date.getUnixTimestamp 1700003600999 = 1700003600 /\
  isExpired jwt 1700003600999 = Ok false /\
  isExpired jwt (Date.addSeconds 1700003600999 1) = Ok true.
Proof.
  pose proof (expiry_is_strict
                (new (header_value sample_header) (body_value sample_body) None)
                _ 1700003600 1700003600999 eq_refl eq_refl) as (_ & _ & H).
  split; [reflexivity|]. split; [reflexivity|].
  exact (H eq_refl).
Defined.

End JwtFacts.

Module ProviderFacts.

Import Jwt JwtFacts Provider Samples.
Local Open Scope Z_scope.

Lemma inv_create initialToken p : create initialToken = Ok p -> inv p.
Proof.
  unfold create. intros H.
  destruct (match initialToken with None => _ | _ => _ end) as [c|e];
    cbn in H; [|discriminate].
  injection H as <-. reflexivity.
Qed.

Lemma getJwt_cases (p : provider) now r :
  (exists e, cache_hit p now = Throw e /\ getJwt p now r = (Throw e, p)) \/
  (exists jwt, cache_hit p now = Ok (Some jwt) /\ getJwt p now r = (Ok (Resolved jwt), p)) \/
  (exists h, cache_hit p now = Ok None /\ jwtPromise p = Some h /\
             getJwt p now r = (Ok (Shared h), p)) \/
  (exists e, cache_hit p now = Ok None /\ jwtPromise p = None /\ r = Throws e /\
             getJwt p now r =
             (Throw e, {| cachedJwt := cachedJwt p; jwtPromise := None;
                          promises := promises p; outstanding := outstanding p;
                          renewCalls := S (renewCalls p) |})) \/
  (cache_hit p now = Ok None /\ jwtPromise p = None /\ r = Returns /\
   getJwt p now r =
   (Ok (Shared (length (promises p))),
    {| cachedJwt := cachedJwt p; jwtPromise := Some (length (promises p));
       promises := promises p ++ [None];
       outstanding := length (promises p) :: outstanding p;
       renewCalls := S (renewCalls p) |})).
Proof.
  unfold getJwt.
  destruct (cache_hit p now) as [[jwt|]|e]; eauto.
  destruct (jwtPromise p) as [h|]; eauto 10.
  destruct r; eauto 10.
Qed.

Lemma inv_getJwt (p : provider) now r : inv p -> inv (snd (getJwt p now r)).
Proof.
  intros Hi.
  destruct (getJwt_cases p now r)
    as [(e & _ & ->) | [(jwt & _ & ->) | [(h & _ & _ & ->) | [(e & _ & Hn & _ & ->) | (_ & Hn & _ & ->)]]]];
    try exact Hi; unfold inv in *; rewrite Hn in Hi; cbn.
  - exact Hi.
  - rewrite Hi. split; [reflexivity|].
    rewrite lookup_app_r by lia. now rewrite Nat.sub_diag.
Qed.

Lemma handlers_marker (p : provider) (o : outcome) :
  jwtPromise (snd (handlers p o)) = None /\
  promises (snd (handlers p o)) = promises p /\
  outstanding (snd (handlers p o)) = outstanding p /\
  renewCalls (snd (handlers p o)) = renewCalls p.
Proof.
  destruct o as [t|err]; cbn [handlers].
  - unfold onFulfilled. destruct (coerce t) as [jwt|e]; [cbn; auto|].
    unfold onRejected. destruct e; try (cbn; auto; fail).
    destruct (fromString s); cbn; auto.
  - unfold onRejected. destruct err; try (cbn; auto; fail).
    destruct (fromString s); cbn; auto.
Qed.

Lemma settle_spec (p : provider) (h : nat) (o : outcome) :
  inv p -> h ∈ outstanding p ->
  exists p', settle p h o = Some p' /\
    jwtPromise p' = None /\ outstanding p' = [] /\
    cachedJwt p' = cachedJwt (snd (handlers p o)) /\
    renewCalls p' = renewCalls p /\
    mjoin (promises p' !! h) = Some (settle_result (fst (handlers p o))).
Proof.
  intros Hi Hin. unfold settle. rewrite bool_decide_eq_true_2 by exact Hin.
  destruct (handlers_marker p o) as (Hm & Hp & Ho & Hc).
  destruct (handlers p o) as [r p1]. cbn [fst snd] in *.
  eexists. split; [reflexivity|]. cbn.
  unfold inv in Hi. destruct (jwtPromise p) as [h0|].
  - destruct Hi as [Hout Hpend]. rewrite Hout in Hin.
    apply list_elem_of_singleton in Hin. subst h0.
    rewrite Ho, Hout, Hp. cbn. rewrite Nat.eqb_refl. cbn.
    repeat split; try assumption.
    rewrite list_lookup_insert_eq; [reflexivity|].
    now apply lookup_lt_Some in Hpend.
  - rewrite Hi in Hin. now apply not_elem_of_nil in Hin.
Qed.

Lemma inv_settle (p p' : provider) h o : inv p -> settle p h o = Some p' -> inv p'.
Proof.
  intros Hi Hs. unfold settle in Hs.
  destruct (bool_decide (h ∈ outstanding p)) eqn:E; [|discriminate].
  apply bool_decide_eq_true_1 in E.
  destruct (settle_spec p h o Hi E) as (p1 & Hs1 & Hm & Ho & _).
  unfold settle in Hs1. rewrite bool_decide_eq_true_2 in Hs1 by exact E.
  rewrite Hs in Hs1. injection Hs1 as <-.
  unfold inv. now rewrite Hm.
Qed.

Lemma reachable_inv (p : provider) : reachable p -> inv p.
Proof.
  induction 1 as [i p Hc | p ev p' _ IH Hs].
  - exact (inv_create i p Hc).
  - destruct ev as [now r | h o]; cbn in Hs.
    + injection Hs as <-. now apply inv_getJwt.
    + exact (inv_settle p p' h o IH Hs).
Qed.

(** Calls that find no fresh token while a renewal is in flight all get the
    shared promise and leave the provider as it is. *)
Lemma calls_join (p : provider) (h : nat) (nows : list Date.Date) :
  jwtPromise p = Some h ->
  Forall (fun now => cache_hit p now = Ok None) nows ->
  calls p nows = (repeat (Ok (Shared h)) (length nows), p).
Proof.
  intros Hm Hall. induction Hall as [|now nows Hnow _ IH]; [reflexivity|].
  cbn [calls]. unfold getJwt. rewrite Hnow, Hm, IH. reflexivity.
Qed.

(** The first of several calls on a stale cache starts the one renewal. *)
Lemma calls_start (p : provider) (nows : list Date.Date) :
  nows <> [] -> jwtPromise p = None ->
  Forall (fun now => cache_hit p now = Ok None) nows ->
  let h := length (promises p) in
  let p1 := {| cachedJwt := cachedJwt p; jwtPromise := Some h;
               promises := promises p ++ [None];
               outstanding := h :: outstanding p;
               renewCalls := S (renewCalls p) |} in
  calls p nows = (repeat (Ok (Shared h)) (length nows), p1).
Proof.
  intros Hne Hm Hall. destruct Hall as [|now nows Hnow Hall]; [congruence|].
  cbn [calls]. unfold getJwt at 1. rewrite Hnow, Hm.
  set (p1 := {| cachedJwt := cachedJwt p; jwtPromise := Some (length (promises p));
                promises := promises p ++ [None];
                outstanding := length (promises p) :: outstanding p;
                renewCalls := S (renewCalls p) |}).
  rewrite (calls_join p1 (length (promises p)) nows eq_refl Hall). reflexivity.
Qed.

Lemma handlers_resolves (p : provider) (t : token) (jwt : Jwt) :
  coerce t = Ok jwt -> handlers p (Resolves t) = (Ok jwt, with_cache p jwt).
Proof. intros H. cbn [handlers]. unfold onFulfilled. now rewrite H. Qed.

(** A renewal that settles with a token: the token is cached and the shared
    promise is fulfilled with it. *)
Lemma settle_resolves (p : provider) (h : nat) (t : token) (jwt : Jwt) :
  inv p -> h ∈ outstanding p -> coerce t = Ok jwt ->
  exists p', settle p h (Resolves t) = Some p' /\
    resolution p' (Shared h) = Some (Fulfilled jwt) /\
    cachedJwt p' = Some jwt /\ jwtPromise p' = None /\ outstanding p' = [].
Proof.
  intros Hi Hin Hc.
  destruct (settle_spec p h (Resolves t) Hi Hin) as (p' & Hs & Hm & Ho & Hcache & _ & Hr).
  rewrite (handlers_resolves p t jwt Hc) in *.
  exists p'. cbn [resolution]. auto.
Qed.

(** The state right after a call started a renewal. *)
Lemma inv_started (p : provider) :
  inv p -> jwtPromise p = None ->
  inv {| cachedJwt := cachedJwt p; jwtPromise := Some (length (promises p));
         promises := promises p ++ [None];
         outstanding := length (promises p) :: outstanding p;
         renewCalls := S (renewCalls p) |}.
Proof.
  intros Hi Hm. unfold inv in *. rewrite Hm in Hi. cbn. rewrite Hi.
  split; [reflexivity|]. rewrite lookup_app_r by lia. now rewrite Nat.sub_diag.
Qed.

(** What a renewal that succeeds gives, by what the callback's promise is
    resolved with: a token as it is, text as [fromString] reads it. *)
Lemma coerce_given (t : token) (jwt : Jwt) :
  t = TokenJwt jwt \/ (exists s, t = TokenString s /\ fromString s = Ok jwt) ->
  coerce t = Ok jwt.
Proof. intros [-> | (s & -> & Hs)]; [reflexivity | exact Hs]. Qed.

(** C1: single-flight renewal.  In every state the provider can reach, at
    most one call of the renewal callback is outstanding, and the in-flight
    marker is set exactly while it is; a call that arrives meanwhile (and
    finds no fresh cached token) gets the shared promise of that renewal and
    calls nothing; a call invokes the callback only when the marker is clear
    and no call is outstanding; and any number of calls on an empty or stale
    cache, made before the renewal settles, invoke the callback once and all
    get the same promise; when the renewal gives a token (a [Jwt], or text
    that parses to one) every one of the calls is resolved with that one
    token, the token is cached and the marker is cleared. *)
Theorem single_flight (p : provider) :
  reachable p ->
  (length (outstanding p) <= 1)%nat /\
  (forall h, jwtPromise p = Some h <-> outstanding p = [h]) /\
  (forall now r h, jwtPromise p = Some h -> cache_hit p now = Ok None ->
     getJwt p now r = (Ok (Shared h), p)) /\
  (forall now r, renewCalls (snd (getJwt p now r)) <> renewCalls p ->
     jwtPromise p = None /\ outstanding p = []) /\
  (forall nows, nows <> [] -> jwtPromise p = None ->
     Forall (fun now => cache_hit p now = Ok None) nows ->
     exists h p1,
       calls p nows = (repeat (Ok (Shared h)) (length nows), p1) /\
       renewCalls p1 = S (renewCalls p) /\ outstanding p1 = [h] /\
       forall t jwt,
         t = TokenJwt jwt \/ (exists s, t = TokenString s /\ fromString s = Ok jwt) ->
         exists p2, settle p1 h (Resolves t) = Some p2 /\
           Forall (fun r => exists hd, r = Ok hd /\
                              resolution p2 hd = Some (Fulfilled jwt))
             (fst (calls p nows)) /\
           resolution p2 (Shared h) = Some (Fulfilled jwt) /\
           cachedJwt p2 = Some jwt /\ jwtPromise p2 = None /\ outstanding p2 = []).
Proof.
  intros Hreach. pose proof (reachable_inv p Hreach) as Hi.
  assert (Hiff : forall h, jwtPromise p = Some h <-> outstanding p = [h]).
  { intros h. unfold inv in Hi. destruct (jwtPromise p) as [h0|].
    - destruct Hi as [Ho _]. rewrite Ho. split; congruence.
    - rewrite Hi. split; congruence. }
  split; [|split; [exact Hiff|split; [|split]]].
  - unfold inv in Hi. destruct (jwtPromise p); [destruct Hi as [-> _] | rewrite Hi]; cbn; lia.
  - intros now r h Hm Hc. unfold getJwt. now rewrite Hc, Hm.
  - intros now r Hcalls.
    destruct (getJwt_cases p now r)
      as [(e & _ & E) | [(jwt & _ & E) | [(h & _ & _ & E) | [(e & _ & Hn & _ & E) | (_ & Hn & _ & E)]]]];
      rewrite E in Hcalls; cbn in Hcalls; try congruence;
      (split; [exact Hn|]); unfold inv in Hi; now rewrite Hn in Hi.
  - intros nows Hne Hm Hall.
    pose proof (calls_start p nows Hne Hm Hall) as Hcalls. cbv zeta in Hcalls.
    eexists _, _. split; [exact Hcalls|].
    assert (Hout : outstanding p = []) by (unfold inv in Hi; now rewrite Hm in Hi).
    split; [reflexivity|]. split; [cbn; now rewrite Hout|].
    intros t jwt Ht. apply coerce_given in Ht.
    destruct (settle_resolves _ (length (promises p)) t jwt (inv_started p Hi Hm))
      as (p2 & Hs & Hr & Hc & Hm2 & Ho2); [apply list_elem_of_here | exact Ht |].
    exists p2. split; [exact Hs|]. split; [|repeat split; assumption].
    rewrite Hcalls. cbn [fst]. clear Hcalls.
    induction (length nows) as [|n IHn]; cbn [repeat]; [constructor|].
    constructor; [|exact IHn]. eexists. split; [reflexivity | exact Hr].
Qed.

(** C3 (as amended): the string-rejection fallback.  When the promise the
    renewal callback returned rejects with a string that parses as a token,
    the shared promise is fulfilled with that token and the token is cached;
    with any other rejection value the shared promise is rejected with that
    very value and the cache is left as it was.  Either way the in-flight
    marker is cleared, and every call made while the renewal was in flight
    holds that shared promise.  A callback that throws instead of returning
    a promise gets no fallback: the call of [getJwt] throws the value as it
    is, whatever it is, caches nothing and sets no marker. *)
Theorem rejection_fallback (p : provider) :
  reachable p ->
  (forall h err, h ∈ outstanding p ->
     (forall now r, cache_hit p now = Ok None -> fst (getJwt p now r) = Ok (Shared h)) /\
     exists p', settle p h (Rejects err) = Some p' /\
       jwtPromise p' = None /\ outstanding p' = [] /\
       (forall s jwt, err = ThrownString s -> fromString s = Ok jwt ->
          resolution p' (Shared h) = Some (Fulfilled jwt) /\ cachedJwt p' = Some jwt) /\
       ((forall s jwt, err = ThrownString s -> fromString s <> Ok jwt) ->
          resolution p' (Shared h) = Some (Rejected err) /\ cachedJwt p' = cachedJwt p)) /\
  (forall now err, jwtPromise p = None -> cache_hit p now = Ok None ->
     exists p', getJwt p now (Throws err) = (Throw err, p') /\
       cachedJwt p' = cachedJwt p /\ jwtPromise p' = None /\
       outstanding p' = [] /\ promises p' = promises p).
Proof.
  intros Hreach. pose proof (reachable_inv p Hreach) as Hi. split.
  - intros h err Hin. split.
    + intros now r Hc. unfold inv in Hi. destruct (jwtPromise p) as [h0|] eqn:Hm.
      * destruct Hi as [Ho _]. rewrite Ho in Hin. apply list_elem_of_singleton in Hin.
        subst h0. unfold getJwt. now rewrite Hc, Hm.
      * rewrite Hi in Hin. now apply not_elem_of_nil in Hin.
    + destruct (settle_spec p h (Rejects err) Hi Hin)
        as (p' & Hs & Hm & Ho & Hcache & _ & Hr).
      exists p'. split; [exact Hs|]. split; [exact Hm|]. split; [exact Ho|].
      cbn [handlers resolution] in *. split.
      * intros s jwt -> Hparse. unfold onRejected in *. rewrite Hparse in *. cbn in *. auto.
      * intros Hnot. unfold onRejected in *.
        destruct err; try (cbn in *; auto; fail).
        destruct (fromString s) as [jwt|e] eqn:Hparse; [|cbn in *; auto].
        exfalso. exact (Hnot s jwt eq_refl Hparse).
  - intros now err Hm Hc.
    assert (Ho : outstanding p = []) by (unfold inv in Hi; now rewrite Hm in Hi).
    eexists. unfold getJwt. rewrite Hc, Hm. split; [reflexivity|].
    cbn [cachedJwt jwtPromise outstanding promises]. auto.
Qed.

(** C4: the freshness decision.  A cached token that is not expired five
    seconds from now is returned at once and nothing is called.  Otherwise
    (no cached token, or one that is expired five seconds from now) the call
    is answered by a renewal: the one in flight if there is one, else one it
    starts by calling the callback; what that renewal gives, a [Jwt] as it
    is and text as [fromString] parses it, becomes the cached token and is
    what the call gets. *)
Theorem cache_freshness (p : provider) (now : Date.Date) :
  reachable p ->
  (forall jwt r, cachedJwt p = Some jwt ->
     isExpired jwt (Date.addSeconds now 5) = Ok false ->
     getJwt p now r = (Ok (Resolved jwt), p)) /\
  ((cachedJwt p = None \/
    exists jwt, cachedJwt p = Some jwt /\ isExpired jwt (Date.addSeconds now 5) = Ok true) ->
   exists h p1,
     getJwt p now Returns = (Ok (Shared h), p1) /\
     jwtPromise p1 = Some h /\ outstanding p1 = [h] /\
     (jwtPromise p = None -> renewCalls p1 = S (renewCalls p)) /\
     (forall h0, jwtPromise p = Some h0 -> h = h0 /\ p1 = p) /\
     (forall jwt,
        exists p2, settle p1 h (Resolves (TokenJwt jwt)) = Some p2 /\
          cachedJwt p2 = Some jwt /\
          resolution p2 (Shared h) = Some (Fulfilled jwt)) /\
     (forall s jwt, fromString s = Ok jwt ->
        exists p2, settle p1 h (Resolves (TokenString s)) = Some p2 /\
          cachedJwt p2 = Some jwt /\
          resolution p2 (Shared h) = Some (Fulfilled jwt))).
Proof.
  intros Hreach. pose proof (reachable_inv p Hreach) as Hi. split.
  - intros jwt r Hc He. unfold getJwt, cache_hit.
    rewrite Hc. change TOKEN_EXPIRATION_MARGIN with 5%Z. rewrite He. reflexivity.
  - intros Hstale.
    assert (Hmiss : cache_hit p now = Ok None).
    { unfold cache_hit. destruct Hstale as [-> | (jwt & -> & He)]; [reflexivity|].
      change TOKEN_EXPIRATION_MARGIN with 5%Z. rewrite He. reflexivity. }
    assert (Hgives : forall p1 h, inv p1 -> h ∈ outstanding p1 ->
              forall t jwt, coerce t = Ok jwt ->
                exists p2, settle p1 h (Resolves t) = Some p2 /\
                  cachedJwt p2 = Some jwt /\
                  resolution p2 (Shared h) = Some (Fulfilled jwt)).
    { intros p1 h Hi1 Hin t jwt Hc.
      destruct (settle_resolves p1 h t jwt Hi1 Hin Hc) as (p2 & ? & ? & ? & _). eauto. }
    destruct (jwtPromise p) as [h0|] eqn:Hm.
    + exists h0, p. unfold getJwt. rewrite Hmiss, Hm.
      pose proof Hi as Hi'. unfold inv in Hi'. rewrite Hm in Hi'. destruct Hi' as [Ho _].
      assert (Hin : h0 ∈ outstanding p) by (rewrite Ho; apply list_elem_of_here).
      split; [reflexivity|]. split; [reflexivity|]. split; [exact Ho|].
      split; [congruence|]. split; [intros h1 E; split; congruence|]. split.
      * intros jwt. now apply (Hgives p h0 Hi Hin (TokenJwt jwt)).
      * intros s jwt Hs. now apply (Hgives p h0 Hi Hin (TokenString s)).
    + assert (Hout : outstanding p = []) by (unfold inv in Hi; now rewrite Hm in Hi).
      eexists _, _. unfold getJwt. rewrite Hmiss, Hm.
      split; [reflexivity|]. cbn [jwtPromise outstanding renewCalls].
      split; [reflexivity|]. split; [now rewrite Hout|].
      split; [reflexivity|]. split; [congruence|].
      pose proof (inv_started p Hi Hm) as Hi1. split.
      * intros jwt.
        apply (Hgives _ (length (promises p)) Hi1 (list_elem_of_here _ _) (TokenJwt jwt)).
        reflexivity.
      * intros s jwt Hs.
        apply (Hgives _ (length (promises p)) Hi1 (list_elem_of_here _ _) (TokenString s)).
        exact Hs.
Qed.



Lemma reachable_empty : reachable empty_provider.
Proof. apply (reachable_create None). reflexivity. Qed.

Lemma reachable_renewing : reachable renewing_provider.
Proof.
  apply (reachable_step empty_provider (Call 0 Returns)); [apply reachable_empty|].
  reflexivity.
Qed.

Lemma reachable_warm : reachable warm_provider.
Proof. apply (reachable_create (Some (TokenJwt sample_jwt))). reflexivity. Qed.

(** C1, witness: ten calls on the empty cache of a new provider, and a
    renewal that gives the text of the sample token: all ten are resolved
    with the sample token. *)
Lemma single_flight_witness :
  reachable empty_provider /\
  exists h p1,
    calls empty_provider (repeat 0 10) = (repeat (Ok (Shared h)) 10, p1) /\
    renewCalls p1 = 1%nat /\ outstanding p1 = [h] /\
    exists p2, settle p1 h (Resolves (TokenString (toString sample_jwt))) = Some p2 /\
      Forall (fun r => exists hd, r = Ok hd /\
                         resolution p2 hd = Some (Fulfilled sample_jwt))
        (fst (calls empty_provider (repeat 0 10))) /\
      resolution p2 (Shared h) = Some (Fulfilled sample_jwt) /\
      cachedJwt p2 = Some sample_jwt /\ jwtPromise p2 = None /\ outstanding p2 = [].
Proof.
  split; [exact reachable_empty|].
  destruct (single_flight empty_provider reachable_empty) as (_ & _ & _ & _ & H).
  destruct (H (repeat 0 10)) as (h & p1 & Hc & Hn & Ho & Hs).
  - discriminate.
  - reflexivity.
  - repeat constructor.
  - exists h, p1. split; [exact Hc|]. split; [exact Hn|]. split; [exact Ho|].
    apply (Hs (TokenString (toString sample_jwt)) sample_jwt).
    right. exists (toString sample_jwt). split; [reflexivity|].
    apply fromString_toString; reflexivity.
Defined.

(** C3, witness: the renewal in flight is rejected with the text of the
    sample token; the shared promise is fulfilled with that token. *)
Lemma rejection_fallback_witness :
  reachable renewing_provider /\ 0%nat ∈ outstanding renewing_provider /\
  exists p', settle renewing_provider 0 (Rejects (ThrownString (toString sample_jwt)))
             = Some p' /\
    jwtPromise p' = None /\
    resolution p' (Shared 0) = Some (Fulfilled sample_jwt) /\
    cachedJwt p' = Some sample_jwt.
Proof.
  split; [exact reachable_renewing|]. split; [apply list_elem_of_here|].
  destruct (proj1 (rejection_fallback renewing_provider reachable_renewing)
              0%nat (ThrownString (toString sample_jwt)) (list_elem_of_here _ _))
    as (_ & p' & Hs & Hm & _ & Hok & _).
  exists p'. split; [exact Hs|]. split; [exact Hm|].
  apply (Hok (toString sample_jwt) sample_jwt eq_refl).
  apply fromString_toString; reflexivity.
Defined.

(** C3, counterexample: the callback of a new provider throws the text of
    the sample token (which parses) instead of returning a promise that
    rejects with it; the call of [getJwt] throws that text, no token is
    cached and no promise is made. *)
Lemma thrown_token_text_escapes :
  fromString (toString sample_jwt) = Ok sample_jwt /\
  cache_hit empty_provider 0 = Ok None /\
  exists p', getJwt empty_provider 0 (Throws (ThrownString (toString sample_jwt)))
             = (Throw (ThrownString (toString sample_jwt)), p') /\
    cachedJwt p' = None /\ jwtPromise p' = None /\ promises p' = [].
Proof.
  split; [apply fromString_toString; reflexivity|]. split; [reflexivity|].
  eexists. split; [reflexivity|]. repeat split.
Qed.

(** C4, witness: the sample token expires at 1700003600.  Six seconds
    before, a provider holding it returns it at once; five seconds before,
    the token no longer passes the margin and the call starts a renewal,
    which gives the text of a token: the parsed token is cached and is what
    the call gets. *)
Lemma cache_freshness_witness :
  reachable warm_provider /\
  isExpired sample_jwt (Date.addSeconds 1700003595000 5) = Ok false /\
  getJwt warm_provider 1700003595000 Returns = (Ok (Resolved sample_jwt), warm_provider) /\
  isExpired sample_jwt (Date.addSeconds 1700003596000 5) = Ok true /\
  exists h p1,
    getJwt warm_provider 1700003596000 Returns = (Ok (Shared h), p1) /\
    renewCalls p1 = 1%nat /\
    exists p2,
      settle p1 h (Resolves (TokenString (toString (new (VObj []) (body_value odd_body)
                                                      (Some "sig!")))))
      = Some p2 /\
      cachedJwt p2 = Some (new (VObj []) (body_value odd_body) (Some "sig!")) /\
      resolution p2 (Shared h)
      = Some (Fulfilled (new (VObj []) (body_value odd_body) (Some "sig!"))).
Proof.
  split; [exact reachable_warm|]. split; [reflexivity|]. split.
  - destruct (cache_freshness warm_provider 1700003595000 reachable_warm) as (H & _).
    apply H; reflexivity.
  - split; [reflexivity|].
    destruct (cache_freshness warm_provider 1700003596000 reachable_warm) as (_ & H).
    destruct H as (h & p1 & Hg & _ & _ & Hcalls & _ & _ & Htext).
    + right. exists sample_jwt. split; reflexivity.
    + exists h, p1. split; [exact Hg|]. split; [exact (Hcalls eq_refl)|].
      apply Htext. apply fromString_toString; reflexivity.
Defined.

End ProviderFacts.

(** The in-memory adapter keeps the contract. *)
#[global] Instance MemoryAdapter_laws : StorageAdapterLaws (gmap string Buffer).
Proof.
  split.
  - intros st name data Hnone. cbn in *. rewrite Hnone.
    eexists. split; [reflexivity|]. apply lookup_insert_eq.
  - intros st name data Hsome. cbn in *. destruct (st !! name); [reflexivity | congruence].
  - intros st name data _. cbn. eexists. split; [reflexivity|]. apply lookup_insert_eq.
Qed.

Module StorageFacts.

Import Obj ObjFacts JSON JSONFacts JwtFacts KeyEntryStorage Base64Facts DateFacts Samples.
Local Open Scope Z_scope.

Lemma serialize_new_entry name b created modified :
  serializeKeyEntry (new_entry name b created modified) =
  Ok (stringify (VObj [("name", VStr name);
                       ("creationDate", VStr (Date.toISOString created));
                       ("modificationDate", VStr (Date.toISOString modified));
                       ("value", VStr (Base64.encode b))])).
Proof. reflexivity. Qed.

Lemma deserialize_new_entry name b created modified :
  Date.in_range created = true -> Date.in_range modified = true ->
  deserializeKeyEntry
    (stringify (VObj [("name", VStr name);
                      ("creationDate", VStr (Date.toISOString created));
                      ("modificationDate", VStr (Date.toISOString modified));
                      ("value", VStr (Base64.encode b))])) =
  Ok (loaded_entry name b created modified).
Proof.
  intros Hc Hm. unfold deserializeKeyEntry, parse_with.
  rewrite parse_stringify by reflexivity.
  cbn [mbind result_bind internalize reviver String.eqb Ascii.eqb Bool.eqb orb
       VALUE_KEY CREATION_DATE_KEY MODIFICATION_DATE_KEY new_Date Buffer_from_base64].
  rewrite (parse_toISOString created Hc), (parse_toISOString modified Hm).
  rewrite decode_encode. reflexivity.
Qed.

Lemma validateNameProperty_ok (name : string) :
  name <> EmptyString -> validateNameProperty name = Ok tt.
Proof.
  intros Hne. unfold validateNameProperty, requiredProp.
  apply String.eqb_neq in Hne. now rewrite Hne.
Qed.

Lemma validateName_ok (name : string) : name <> EmptyString -> validateName name = Ok tt.
Proof. intros Hne. destruct name; [congruence | reflexivity]. Qed.

Lemma internalize_object rv key m :
  internalize rv key (VObj m) = (m' ← internalize_members rv m; rv key (VObj m')).
Proof.
  cbn [internalize]. f_equal.
  induction m as [|[k x] m IH]; [reflexivity|].
  cbn [internalize_members]. rewrite <- IH. reflexivity.
Qed.

Lemma reviver_other (k : string) (v : value) : reserved k = false -> reviver k v = Ok v.
Proof.
  unfold reserved, reviver. intros Hk.
  apply orb_false_iff in Hk as [Hk Hm]. apply orb_false_iff in Hk as [Hv Hc].
  now rewrite Hv, Hc, Hm.
Qed.

Lemma internalize_meta_members (x : KeyEntryMeta) :
  forallb (fun kv => negb (reserved (fst kv))) x = true ->
  internalize_members reviver (List.map (fun kv => (fst kv, VStr (snd kv))) x)
  = Ok (List.map (fun kv => (fst kv, VStr (snd kv))) x).
Proof.
  induction x as [|[k s] x IH]; [reflexivity|].
  cbn [forallb fst]. intros Hx. apply andb_true_iff in Hx as [Hk Hx].
  cbn [List.map internalize_members fst snd internalize].
  apply negb_true_iff in Hk.
  rewrite (reviver_other k _ Hk). cbn [mbind result_bind]. rewrite (IH Hx). reflexivity.
Qed.

Lemma internalize_meta (x : KeyEntryMeta) :
  forallb (fun kv => negb (reserved (fst kv))) x = true ->
  internalize reviver "meta" (meta_value x) = Ok (meta_value x).
Proof.
  intros Hx. unfold meta_value. rewrite internalize_object, (internalize_meta_members x Hx).
  reflexivity.
Qed.

Lemma serialize_updated_entry name b created now x :
  serializeKeyEntry (updated_entry name b created now x) =
  Ok (stringify (VObj [("name", VStr name);
                       ("creationDate", VStr (Date.toISOString created));
                       ("modificationDate", VStr (Date.toISOString now));
                       ("meta", meta_value x);
                       ("value", VStr (Base64.encode b))])).
Proof. reflexivity. Qed.

Lemma deserialize_updated_entry name b created now x :
  Date.in_range created = true -> Date.in_range now = true -> meta_ok x = true ->
  deserializeKeyEntry
    (stringify (VObj [("name", VStr name);
                      ("creationDate", VStr (Date.toISOString created));
                      ("modificationDate", VStr (Date.toISOString now));
                      ("meta", meta_value x);
                      ("value", VStr (Base64.encode b))])) =
  Ok (VObj [("name", VStr name);
            ("creationDate", VDate (Some created));
            ("modificationDate", VDate (Some now));
            ("meta", meta_value x);
            ("value", VBuffer b)]).
Proof.
  intros Hc Hn Hx. unfold meta_ok in Hx. apply andb_true_iff in Hx as [Hd Hr].
  unfold deserializeKeyEntry, parse_with.
  rewrite parse_stringify.
  - cbn [mbind result_bind]. rewrite internalize_object.
    cbn [internalize_members internalize].
    rewrite (internalize_meta x Hr).
    cbn [mbind result_bind reviver String.eqb Ascii.eqb Bool.eqb orb
         VALUE_KEY CREATION_DATE_KEY MODIFICATION_DATE_KEY new_Date Buffer_from_base64].
    rewrite (parse_toISOString created Hc), (parse_toISOString now Hn).
    rewrite decode_encode. reflexivity.
  - pose proof (plain_text_object x) as Hp. unfold meta_value.
    cbn [plain List.map fst snd forallb] in *. rewrite Hp, Hd. reflexivity.
Qed.

Lemma serialize_saved_entry name b x created modified :
  serializeKeyEntry (saved_entry name b x created modified) =
  Ok (stringify (VObj [("name", VStr name);
                       ("meta", meta_value x);
                       ("creationDate", VStr (Date.toISOString created));
                       ("modificationDate", VStr (Date.toISOString modified));
                       ("value", VStr (Base64.encode b))])).
Proof. reflexivity. Qed.

Lemma plain_stored (name : string) (x : KeyEntryMeta) (c m v : string) :
  distinct (List.map fst x) = true ->
  plain (VObj [("name", VStr name); ("meta", meta_value x); ("creationDate", VStr c);
               ("modificationDate", VStr m); ("value", VStr v)]) = true.
Proof.
  intros Hd. pose proof (plain_text_object x) as Hp. unfold meta_value.
  cbn [plain List.map fst snd forallb] in *. rewrite Hp, Hd. reflexivity.
Qed.

Lemma deserialize_saved_entry name b x created modified :
  Date.in_range created = true -> Date.in_range modified = true -> meta_ok x = true ->
  deserializeKeyEntry
    (stringify (VObj [("name", VStr name);
                      ("meta", meta_value x);
                      ("creationDate", VStr (Date.toISOString created));
                      ("modificationDate", VStr (Date.toISOString modified));
                      ("value", VStr (Base64.encode b))])) =
  Ok (VObj [("name", VStr name);
            ("meta", meta_value x);
            ("creationDate", VDate (Some created));
            ("modificationDate", VDate (Some modified));
            ("value", VBuffer b)]).
Proof.
  intros Hc Hn Hx. unfold meta_ok in Hx. apply andb_true_iff in Hx as [Hd Hr].
  unfold deserializeKeyEntry, parse_with.
  rewrite parse_stringify by now apply plain_stored.
  cbn [mbind result_bind]. rewrite internalize_object.
  cbn [internalize_members internalize].
  rewrite (internalize_meta x Hr).
  cbn [mbind result_bind reviver String.eqb Ascii.eqb Bool.eqb orb
       VALUE_KEY CREATION_DATE_KEY MODIFICATION_DATE_KEY new_Date Buffer_from_base64].
  rewrite (parse_toISOString created Hc), (parse_toISOString modified Hn).
  rewrite decode_encode. reflexivity.
Qed.

Section WithAdapter.

Context {S : Type} `{StorageAdapterLaws S}.

(** C6 (as amended): saving bytes under a name that is not stored yet, with
    no meta, and loading the name gives an entry whose value is those bytes
    (bytes, not base64 text), that has no meta, and whose creationDate and
    modificationDate are the two clock readings [save] took, in that order:
    the two dates are equal exactly when the clock did not move between the
    two readings. *)
Theorem save_then_load (st : S) (created modified : Date.Date) (name : string) (b : Buffer) :
  name <> EmptyString ->
  Date.in_range created = true -> Date.in_range modified = true ->
  adapter_load st name = None ->
  exists st' loaded,
    save st created modified name (DataBytes b) None
      = Ok (new_entry name b created modified, st') /\
    load st' name = Ok (Some (VObj loaded)) /\
    Obj.get loaded "value" = Some (VBuffer b) /\
    Obj.get loaded "meta" = None /\
    Obj.get loaded "creationDate" = Some (VDate (Some created)) /\
    Obj.get loaded "modificationDate" = Some (VDate (Some modified)) /\
    (Obj.get loaded "creationDate" = Obj.get loaded "modificationDate"
     <-> created = modified).
Proof.
  intros Hname Hc Hm Hfree.
  destruct (store_new st name
              (stringify (VObj [("name", VStr name);
                                ("creationDate", VStr (Date.toISOString created));
                                ("modificationDate", VStr (Date.toISOString modified));
                                ("value", VStr (Base64.encode b))])) Hfree)
    as (st' & Hstore & Hload).
  exists st', [("name", VStr name);
               ("creationDate", VDate (Some created));
               ("modificationDate", VDate (Some modified));
               ("value", VBuffer b)].
  split; [|split].
  - assert (Hsave : save st created modified name (DataBytes b) None =
                    (data ← serializeKeyEntry (new_entry name b created modified);
                     match adapter_store st name data with
                     | Ok st' => Ok (new_entry name b created modified, st')
                     | Throw StorageEntryAlreadyExistsError =>
                         Throw (KeyEntryAlreadyExistsError name)
                     | Throw error => Throw error
                     end)).
    { unfold save. rewrite (validateNameProperty_ok name Hname). reflexivity. }
    rewrite Hsave, serialize_new_entry. cbn [mbind result_bind].
    rewrite Hstore. reflexivity.
  - unfold load. rewrite (validateName_ok name Hname). cbn [mbind result_bind].
    rewrite Hload, (deserialize_new_entry name b created modified Hc Hm). reflexivity.
  - cbn. repeat split; congruence.
Qed.

(** What [update] does once its arguments are accepted and the stored entry
    is read: it merges and hands the serialised entry to the adapter. *)
Lemma update_merges (st : S) (now : Date.Date) (name : string) (val : option Data)
    (meta : option KeyEntryMeta) (data : Buffer) (m : Datatypes.list (string * value))
    (old b : Buffer) :
  name <> EmptyString ->
  truthy val = true \/ meta <> None ->
  adapter_load st name = Some data ->
  deserializeKeyEntry data = Ok (VObj m) ->
  Obj.get m "value" = Some (VBuffer old) ->
  (truthy val = false -> b = old) ->
  (forall d, val = Some d -> falsy d = false -> dataToUint8Array d = Ok b) ->
  update st now name val meta =
  (data' ← serializeKeyEntry
             (VObj (Obj.set_opt
                      (Obj.set_opt (Obj.set_opt m "value" (Some (VBuffer b))) "meta"
                         (match meta with
                          | Some x => Some (meta_value x)
                          | None => Obj.get m "meta"
                          end))
                      "modificationDate" (Some (VDate (Some now)))));
   st' ← adapter_update st name data';
   Ok (VObj (Obj.set_opt
               (Obj.set_opt (Obj.set_opt m "value" (Some (VBuffer b))) "meta"
                  (match meta with
                   | Some x => Some (meta_value x)
                   | None => Obj.get m "meta"
                   end))
               "modificationDate" (Some (VDate (Some now)))), st')).
Proof.
  intros Hname Hg Hload Hdes Hold Hkeep Hnew.
  assert (Hgiven : negb (truthy val || bool_decide (is_Some meta)) = false).
  { destruct Hg as [-> | Hm]; [reflexivity|].
    destruct meta as [x|]; [|congruence].
    rewrite bool_decide_eq_true_2 by eauto. now rewrite orb_true_r. }
  assert (Hval : match val with
                 | Some d =>
                     if falsy d then Ok (Obj.get m "value")
                     else b0 ← dataToUint8Array d; Ok (Some (VBuffer b0))
                 | None => Ok (Obj.get m "value")
                 end = Ok (Some (VBuffer b))).
  { destruct val as [d|]; cbn in Hkeep.
    - destruct (falsy d) eqn:Hf; cbn in Hkeep.
      + rewrite Hold, (Hkeep eq_refl). reflexivity.
      + rewrite (Hnew d eq_refl Hf). reflexivity.
    - rewrite Hold, (Hkeep eq_refl). reflexivity. }
  unfold update. rewrite (validateNameProperty_ok name Hname).
  cbn [mbind result_bind]. rewrite Hgiven, Hload, Hdes. cbn [mbind result_bind props].
  rewrite Hval. reflexivity.
Qed.

(** The merged entry of an entry that had a meta: handed to the adapter and
    read back. *)
Lemma update_saved_shape (st : S) (now created : Date.Date) (name : string)
    (val : option Data) (meta : option KeyEntryMeta) (xf : KeyEntryMeta) (b : Buffer) :
  name <> EmptyString ->
  Date.in_range created = true -> Date.in_range now = true -> meta_ok xf = true ->
  adapter_load st name <> None ->
  update st now name val meta =
  (data' ← serializeKeyEntry
             (VObj [("name", VStr name); ("meta", meta_value xf);
                    ("creationDate", VDate (Some created));
                    ("modificationDate", VDate (Some now));
                    ("value", VBuffer b)]);
   st' ← adapter_update st name data';
   Ok (VObj [("name", VStr name); ("meta", meta_value xf);
             ("creationDate", VDate (Some created));
             ("modificationDate", VDate (Some now));
             ("value", VBuffer b)], st')) ->
  exists m' st' loaded,
    update st now name val meta = Ok (VObj m', st') /\
    load st' name = Ok (Some (VObj loaded)) /\
    (forall k, Obj.get loaded k = Obj.get m' k) /\
    Obj.get loaded "name" = Some (VStr name) /\
    Obj.get loaded "value" = Some (VBuffer b) /\
    Obj.get loaded "meta" = Some (meta_value xf) /\
    Obj.get loaded "creationDate" = Some (VDate (Some created)) /\
    Obj.get loaded "modificationDate" = Some (VDate (Some now)).
Proof.
  intros Hname Hc Hn Hxf Hstored Hupd.
  assert (Hser : serializeKeyEntry
                   (VObj [("name", VStr name); ("meta", meta_value xf);
                          ("creationDate", VDate (Some created));
                          ("modificationDate", VDate (Some now));
                          ("value", VBuffer b)])
                 = Ok (stringify (VObj [("name", VStr name);
                                        ("meta", meta_value xf);
                                        ("creationDate", VStr (Date.toISOString created));
                                        ("modificationDate", VStr (Date.toISOString now));
                                        ("value", VStr (Base64.encode b))])))
    by reflexivity.
  rewrite Hser in Hupd. cbn [mbind result_bind] in Hupd.
  destruct (update_existing st name
              (stringify (VObj [("name", VStr name);
                                ("meta", meta_value xf);
                                ("creationDate", VStr (Date.toISOString created));
                                ("modificationDate", VStr (Date.toISOString now));
                                ("value", VStr (Base64.encode b))])) Hstored)
    as (st' & Hupdate & Hload').
  rewrite Hupdate in Hupd. cbn [mbind result_bind] in Hupd.
  eexists _, st', _. split; [exact Hupd|]. split.
  - unfold load. rewrite (validateName_ok name Hname). cbn [mbind result_bind].
    rewrite Hload', (deserialize_saved_entry name b xf created now Hc Hn Hxf).
    reflexivity.
  - split; [reflexivity|]. cbn. repeat split.
Qed.

(** [update] on an entry that [save] wrote, and [load] after it: the merged
    entry is what is returned, and it is what is read back. *)
Lemma update_stored (st : S) (now created modified : Date.Date) (name : string)
    (val : option Data) (meta x0 : option KeyEntryMeta) (data old b : Buffer) :
  name <> EmptyString ->
  truthy val = true \/ meta <> None ->
  Date.in_range created = true -> Date.in_range modified = true ->
  Date.in_range now = true ->
  (forall x, x0 = Some x -> meta_ok x = true) ->
  (forall x, meta = Some x -> meta_ok x = true) ->
  serializeKeyEntry (key_entry name old x0 created modified) = Ok data ->
  adapter_load st name = Some data ->
  (truthy val = false -> b = old) ->
  (forall d, val = Some d -> falsy d = false -> dataToUint8Array d = Ok b) ->
  exists m' st' loaded,
    update st now name val meta = Ok (VObj m', st') /\
    load st' name = Ok (Some (VObj loaded)) /\
    (forall k, Obj.get loaded k = Obj.get m' k) /\
    Obj.get loaded "name" = Some (VStr name) /\
    Obj.get loaded "value" = Some (VBuffer b) /\
    Obj.get loaded "meta" =
      match meta with
      | Some x => Some (meta_value x)
      | None => meta_value <$> x0
      end /\
    Obj.get loaded "creationDate" = Some (VDate (Some created)) /\
    Obj.get loaded "modificationDate" = Some (VDate (Some now)).
Proof.
  intros Hname Hg Hc Hm Hn Hx0 Hx Hser Hload Hkeep Hnew.
  assert (Hstored : adapter_load st name <> None) by (rewrite Hload; discriminate).
  destruct x0 as [x|]; cbn [key_entry] in Hser.
  - (* the stored entry has a meta: the merged entry keeps its layout *)
    rewrite serialize_saved_entry in Hser.
    assert (Hdata : data =
              stringify (VObj [("name", VStr name);
                               ("meta", meta_value x);
                               ("creationDate", VStr (Date.toISOString created));
                               ("modificationDate", VStr (Date.toISOString modified));
                               ("value", VStr (Base64.encode old))])) by congruence.
    clear Hser. subst data.
    pose proof (deserialize_saved_entry name old x created modified Hc Hm (Hx0 x eq_refl))
      as Hdes.
    pose proof (update_merges st now name val meta _ _ old b Hname Hg Hload Hdes eq_refl
                  Hkeep Hnew) as Hupd.
    destruct meta as [y|];
      cbn [Obj.set_opt Obj.set Obj.get String.eqb Ascii.eqb Bool.eqb fmap option_fmap
           option_map] in Hupd |- *.
    + exact (update_saved_shape st now created name val (Some y) y b Hname Hc Hn
               (Hx y eq_refl) Hstored Hupd).
    + exact (update_saved_shape st now created name val None x b Hname Hc Hn
               (Hx0 x eq_refl) Hstored Hupd).
  - rewrite serialize_new_entry in Hser.
    assert (Hdata : data =
              stringify (VObj [("name", VStr name);
                               ("creationDate", VStr (Date.toISOString created));
                               ("modificationDate", VStr (Date.toISOString modified));
                               ("value", VStr (Base64.encode old))])) by congruence.
    clear Hser. subst data.
    pose proof (deserialize_new_entry name old created modified Hc Hm) as Hdes.
    pose proof (update_merges st now name val meta _ _ old b Hname Hg Hload Hdes eq_refl
                  Hkeep Hnew) as Hupd.
    destruct meta as [y|].
    + (* a first meta: it is added after the value, and stored before it *)
      cbn [loaded_entry Obj.set_opt Obj.set Obj.get String.eqb Ascii.eqb Bool.eqb] in Hupd.
      change (VObj _) with (updated_entry name b created now y) in Hupd.
      rewrite serialize_updated_entry in Hupd. cbn [mbind result_bind] in Hupd.
      destruct (update_existing st name
                  (stringify (VObj [("name", VStr name);
                                    ("creationDate", VStr (Date.toISOString created));
                                    ("modificationDate", VStr (Date.toISOString now));
                                    ("meta", meta_value y);
                                    ("value", VStr (Base64.encode b))])) Hstored)
        as (st' & Hupdate & Hload').
      rewrite Hupdate in Hupd. cbn [mbind result_bind] in Hupd.
      eexists _, st', _. split; [exact Hupd|]. split.
      * unfold load. rewrite (validateName_ok name Hname). cbn [mbind result_bind].
        rewrite Hload',
          (deserialize_updated_entry name b created now y Hc Hn (Hx y eq_refl)).
        reflexivity.
      * split; [|cbn; repeat split].
        intros k. unfold updated_entry. cbn [Obj.get].
        destruct (String.eqb "name" k); [reflexivity|].
        destruct (String.eqb "creationDate" k); [reflexivity|].
        destruct (String.eqb "modificationDate" k); [reflexivity|].
        destruct (String.eqb_spec "meta" k) as [<-|_]; [reflexivity|].
        destruct (String.eqb "value" k); reflexivity.
    + (* no meta before and none given *)
      cbn [loaded_entry Obj.set_opt Obj.set Obj.get Obj.remove String.eqb Ascii.eqb
           Bool.eqb] in Hupd.
      change (VObj _) with (loaded_entry name b created now) in Hupd.
      change (serializeKeyEntry (loaded_entry name b created now))
        with (serializeKeyEntry (new_entry name b created now)) in Hupd.
      rewrite serialize_new_entry in Hupd. cbn [mbind result_bind] in Hupd.
      destruct (update_existing st name
                  (stringify (VObj [("name", VStr name);
                                    ("creationDate", VStr (Date.toISOString created));
                                    ("modificationDate", VStr (Date.toISOString now));
                                    ("value", VStr (Base64.encode b))])) Hstored)
        as (st' & Hupdate & Hload').
      rewrite Hupdate in Hupd. cbn [mbind result_bind] in Hupd.
      eexists _, st', _. split; [exact Hupd|]. split.
      * unfold load. rewrite (validateName_ok name Hname). cbn [mbind result_bind].
        rewrite Hload', (deserialize_new_entry name b created now Hc Hn). reflexivity.
      * split; [reflexivity|]. cbn. repeat split.
Qed.

(** C7: the update contract, for a name that passes validation.  With
    neither a value nor a meta the call fails with the argument error
    (TypeError); otherwise, when the name is not stored, it fails with
    KeyEntryDoesNotExistError; otherwise it returns the stored entry with
    the value replaced by the given one when a value was given (kept
    otherwise), the meta replaced by the given one when a meta was given
    (kept otherwise), the name and the creationDate as they were and the
    modificationDate set to the clock reading, and it hands the adapter the
    serialisation of that entry, which the adapter then holds under the
    name.  For an entry that [save] wrote, that merged entry is persisted:
    [load] after the update reads back an entry with the same properties as
    the one returned, the value and the meta replaced or kept as said, the
    creationDate of [save] and the clock reading of [update] as
    modificationDate. *)
Theorem update_contract (st : S) (now : Date.Date) (name : string)
    (val : option Data) (meta : option KeyEntryMeta) :
  name <> EmptyString ->
  (truthy val = false -> meta = None ->
   update st now name val meta =
   Throw (TypeError "Invalid argument. Either `value` or `meta` property is required.")) /\
  (truthy val = true \/ meta <> None ->
   adapter_load st name = None ->
   update st now name val meta = Throw (KeyEntryDoesNotExistError name)) /\
  (forall data m old b,
     truthy val = true \/ meta <> None ->
     adapter_load st name = Some data ->
     deserializeKeyEntry data = Ok (VObj m) ->
     Obj.get m "value" = Some (VBuffer old) ->
     (truthy val = false -> b = old) ->
     (forall d, val = Some d -> falsy d = false -> dataToUint8Array d = Ok b) ->
     exists m' st' data',
       update st now name val meta = Ok (VObj m', st') /\
       serializeKeyEntry (VObj m') = Ok data' /\
       adapter_load st' name = Some data' /\
       Obj.get m' "value" = Some (VBuffer b) /\
       Obj.get m' "meta" =
         match meta with
         | Some x => Some (meta_value x)
         | None => Obj.get m "meta"
         end /\
       Obj.get m' "name" = Obj.get m "name" /\
       Obj.get m' "creationDate" = Obj.get m "creationDate" /\
       Obj.get m' "modificationDate" = Some (VDate (Some now))) /\
  (forall data created modified old x0 b,
     truthy val = true \/ meta <> None ->
     Date.in_range created = true -> Date.in_range modified = true ->
     Date.in_range now = true ->
     (forall x, x0 = Some x -> meta_ok x = true) ->
     (forall x, meta = Some x -> meta_ok x = true) ->
     serializeKeyEntry (key_entry name old x0 created modified) = Ok data ->
     adapter_load st name = Some data ->
     (truthy val = false -> b = old) ->
     (forall d, val = Some d -> falsy d = false -> dataToUint8Array d = Ok b) ->
     exists m' st' loaded,
       update st now name val meta = Ok (VObj m', st') /\
       load st' name = Ok (Some (VObj loaded)) /\
       (forall k, Obj.get loaded k = Obj.get m' k) /\
       Obj.get loaded "name" = Some (VStr name) /\
       Obj.get loaded "value" = Some (VBuffer b) /\
       Obj.get loaded "meta" =
         match meta with
         | Some x => Some (meta_value x)
         | None => meta_value <$> x0
         end /\
       Obj.get loaded "creationDate" = Some (VDate (Some created)) /\
       Obj.get loaded "modificationDate" = Some (VDate (Some now))).
Proof.
  intros Hname.
  assert (Hupd : update st now name val meta =
    if negb (truthy val || bool_decide (is_Some meta)) then
      Throw (TypeError "Invalid argument. Either `value` or `meta` property is required.")
    else
      match adapter_load st name with
      | None => Throw (KeyEntryDoesNotExistError name)
      | Some data =>
          entry ← deserializeKeyEntry data;
          m ← props entry;
          newValue ←
            match val with
            | Some d =>
                if falsy d then Ok (Obj.get m "value")
                else b ← dataToUint8Array d; Ok (Some (VBuffer b))
            | None => Ok (Obj.get m "value")
            end;
          let newMeta :=
            match meta with
            | Some x => Some (meta_value x)
            | None => Obj.get m "meta"
            end in
          let updatedEntry :=
            VObj (Obj.set_opt
                    (Obj.set_opt (Obj.set_opt m "value" newValue) "meta" newMeta)
                    "modificationDate" (Some (VDate (Some now)))) in
          data' ← serializeKeyEntry updatedEntry;
          st' ← adapter_update st name data';
          Ok (updatedEntry, st')
      end).
  { unfold update. rewrite (validateNameProperty_ok name Hname). reflexivity. }
  assert (Hgiven : truthy val = true \/ meta <> None ->
                   negb (truthy val || bool_decide (is_Some meta)) = false).
  { intros [-> | Hm]; [reflexivity|].
    destruct meta as [x|]; [|congruence].
    rewrite bool_decide_eq_true_2 by eauto. now rewrite orb_true_r. }
  split; [|split; [|split]].
  - intros Hv ->. rewrite Hupd, Hv. reflexivity.
  - intros Hg Hnone. rewrite Hupd, (Hgiven Hg), Hnone. reflexivity.
  - intros data m old b Hg Hload Hdes Hold Hkeep Hnew.
    assert (Hval : match val with
                   | Some d =>
                       if falsy d then Ok (Obj.get m "value")
                       else b0 ← dataToUint8Array d; Ok (Some (VBuffer b0))
                   | None => Ok (Obj.get m "value")
                   end = Ok (Some (VBuffer b))).
    { destruct val as [d|]; cbn in Hkeep.
      - destruct (falsy d) eqn:Hf; cbn in Hkeep.
        + rewrite Hold, (Hkeep eq_refl). reflexivity.
        + rewrite (Hnew d eq_refl Hf). reflexivity.
      - rewrite Hold, (Hkeep eq_refl). reflexivity. }
    set (newMeta := match meta with
                    | Some x => Some (meta_value x)
                    | None => Obj.get m "meta"
                    end).
    set (m' := Obj.set_opt
                 (Obj.set_opt (Obj.set_opt m "value" (Some (VBuffer b))) "meta" newMeta)
                 "modificationDate" (Some (VDate (Some now)))).
    assert (Hget : Obj.get m' "value" = Some (VBuffer b)).
    { unfold m'. rewrite !get_set_opt_ne by discriminate. apply get_set_opt_eq. }
    assert (Hser : serializeKeyEntry (VObj m') =
                   Ok (stringify (VObj (Obj.set (Obj.remove m' VALUE_KEY) VALUE_KEY
                                          (VStr (Base64.encode b)))))).
    { unfold serializeKeyEntry. cbn [props mbind result_bind].
      change VALUE_KEY with ("value" : string). rewrite Hget. reflexivity. }
    assert (Hstored : adapter_load st name <> None) by (rewrite Hload; discriminate).
    destruct (update_existing st name
                (stringify (VObj (Obj.set (Obj.remove m' VALUE_KEY) VALUE_KEY
                                    (VStr (Base64.encode b)))))
                Hstored) as (st' & Hupdate & Hload').
    exists m', st', (stringify (VObj (Obj.set (Obj.remove m' VALUE_KEY) VALUE_KEY
                                        (VStr (Base64.encode b))))).
    split; [|split; [exact Hser|split; [exact Hload'|split; [exact Hget|]]]].
    + rewrite Hupd, (Hgiven Hg), Hload, Hdes. cbn [mbind result_bind props].
      rewrite Hval. cbn [mbind result_bind]. fold newMeta. fold m'.
      rewrite Hser. cbn [mbind result_bind]. rewrite Hupdate. reflexivity.
    + unfold m'. repeat split.
      * rewrite get_set_opt_ne by discriminate. apply get_set_opt_eq.
      * now rewrite !get_set_opt_ne by discriminate.
      * now rewrite !get_set_opt_ne by discriminate.
      * apply get_set_opt_eq.
  - intros data created modified old x0 b Hg Hc Hm Hn Hx0 Hx Hser Hload Hkeep Hnew.
    exact (update_stored st now created modified name val meta x0 data old b
             Hname Hg Hc Hm Hn Hx0 Hx Hser Hload Hkeep Hnew).
Qed.

End WithAdapter.

(** C6, witness: the name k and the bytes 1, 2, 3 in the empty in-memory
    store, both clock readings at 1700000000123. *)
Lemma save_then_load_witness :
  ("k" : string) <> EmptyString /\
  Date.in_range 1700000000123 = true /\
  adapter_load (∅ : gmap string Buffer) "k" = None /\
  exists st' loaded,
    save (∅ : gmap string Buffer) 1700000000123 1700000000123 "k" (DataBytes bytes123) None
      = Ok (new_entry "k" bytes123 1700000000123 1700000000123, st') /\
    load st' "k" = Ok (Some (VObj loaded)) /\
    Obj.get loaded "value" = Some (VBuffer bytes123) /\
    Obj.get loaded "meta" = None /\
    Obj.get loaded "creationDate" = Some (VDate (Some 1700000000123)) /\
    Obj.get loaded "modificationDate" = Some (VDate (Some 1700000000123)) /\
    (Obj.get loaded "creationDate" = Obj.get loaded "modificationDate"
     <-> 1700000000123 = 1700000000123).
Proof.
  split; [discriminate|]. split; [reflexivity|]. split; [reflexivity|].
  apply (save_then_load (∅ : gmap string Buffer) 1700000000123 1700000000123 "k" bytes123);
    [discriminate | reflexivity | reflexivity | reflexivity].
Defined.

(** C6, counterexample: the clock moves by one millisecond between the two
    readings of [save]; the entry loaded afterwards has a creationDate
    different from its modificationDate. *)
Lemma save_dates_differ :
  exists entry st' loaded,
    save (∅ : gmap string Buffer) 1700000000123 1700000000124 "k" (DataBytes bytes123) None
      = Ok (entry, st') /\
    load st' "k" = Ok (Some (VObj loaded)) /\
    Obj.get loaded "creationDate" <> Obj.get loaded "modificationDate".
Proof.
  eexists _, _, _. split; [vm_compute; reflexivity|].
  split; [vm_compute; reflexivity|].
  vm_compute. discriminate.
Qed.

(** C7, witness: the entry k, saved without a meta, gets a meta; the entry
    returned and the entry [load] reads back afterwards have the value and
    the creationDate of [save], the new meta and the clock reading as
    modificationDate. *)
Lemma update_contract_witness :
  ("k" : string) <> EmptyString /\
  serializeKeyEntry (key_entry "k" bytes123 None 1700000000123 1700000000123)
    = Ok stored_text /\
  adapter_load store_k "k" = Some stored_text /\
  meta_ok [("a", "b")] = true /\
  exists m' st' loaded,
    update store_k 1700000000999 "k" None (Some [("a", "b")]) = Ok (VObj m', st') /\
    load st' "k" = Ok (Some (VObj loaded)) /\
    (forall k, Obj.get loaded k = Obj.get m' k) /\
    Obj.get loaded "name" = Some (VStr "k") /\
    Obj.get loaded "value" = Some (VBuffer bytes123) /\
    Obj.get loaded "meta" = Some (meta_value [("a", "b")]) /\
    Obj.get loaded "creationDate" = Some (VDate (Some 1700000000123)) /\
    Obj.get loaded "modificationDate" = Some (VDate (Some 1700000000999)).
Proof.
  split; [discriminate|]. split; [vm_compute; reflexivity|]. split; [reflexivity|].
  split; [reflexivity|].
  destruct (update_contract store_k 1700000000999 "k" None (Some [("a", "b")])
              ltac:(discriminate)) as (_ & _ & _ & H).
  apply (H stored_text 1700000000123 1700000000123 bytes123 None bytes123).
  - right. discriminate.
  - reflexivity.
  - reflexivity.
  - reflexivity.
  - discriminate.
  - intros x E. injection E as <-. reflexivity.
  - vm_compute. reflexivity.
  - reflexivity.
  - reflexivity.
  - discriminate.
Defined.



Section UpdateThenLoad.

Context {S : Type} `{StorageAdapterLaws S}.

(** X20: Giving a meta to an entry that [save] stored without one, then loading
    it: the value and the creationDate are those of [save], the meta is the
    given one and the modificationDate is the clock reading of [update]. *)
Theorem update_then_load (st : S) (created modified now : Date.Date) (name : string)
    (b : Buffer) (x : KeyEntryMeta) (data : Buffer) :
  name <> EmptyString ->
  Date.in_range created = true -> Date.in_range modified = true ->
  Date.in_range now = true -> meta_ok x = true ->
  serializeKeyEntry (new_entry name b created modified) = Ok data ->
  adapter_load st name = Some data ->
  exists st' loaded,
    update st now name None (Some x) = Ok (updated_entry name b created now x, st') /\
    load st' name = Ok (Some (VObj loaded)) /\
    Obj.get loaded "value" = Some (VBuffer b) /\
    Obj.get loaded "meta" = Some (meta_value x) /\
    Obj.get loaded "creationDate" = Some (VDate (Some created)) /\
    Obj.get loaded "modificationDate" = Some (VDate (Some now)).
Proof.
  intros Hname Hc Hm Hn Hx Hser Hload.
  rewrite serialize_new_entry in Hser.
  assert (Hdata : data =
                  stringify (VObj [("name", VStr name);
                                   ("creationDate", VStr (Date.toISOString created));
                                   ("modificationDate", VStr (Date.toISOString modified));
                                   ("value", VStr (Base64.encode b))])) by congruence.
  clear Hser. subst data.
  assert (Hstored : adapter_load st name <> None) by (rewrite Hload; discriminate).
  destruct (update_existing st name
              (stringify (VObj [("name", VStr name);
                                ("creationDate", VStr (Date.toISOString created));
                                ("modificationDate", VStr (Date.toISOString now));
                                ("meta", meta_value x);
                                ("value", VStr (Base64.encode b))])) Hstored)
    as (st' & Hupdate & Hload').
  exists st', [("name", VStr name);
               ("creationDate", VDate (Some created));
               ("modificationDate", VDate (Some now));
               ("meta", meta_value x);
               ("value", VBuffer b)].
  split; [|split].
  - unfold update. rewrite (validateNameProperty_ok name Hname).
    cbn [mbind result_bind truthy orb negb]. rewrite bool_decide_eq_true_2 by eauto.
    cbn [negb]. rewrite Hload, (deserialize_new_entry name b created modified Hc Hm).
    cbn [mbind result_bind props loaded_entry].
    change (VObj (Obj.set_opt _ _ _)) with (updated_entry name b created now x).
    rewrite serialize_updated_entry. cbn [mbind result_bind].
    rewrite Hupdate. reflexivity.
  - unfold load. rewrite (validateName_ok name Hname). cbn [mbind result_bind].
    rewrite Hload', (deserialize_updated_entry name b created now x Hc Hn Hx). reflexivity.
  - cbn. repeat split.
Qed.

End UpdateThenLoad.

End StorageFacts.

(** * Further properties of the code *)

Module JSONLaws.

Import Str StrFacts JSON JSONFacts.








End JSONLaws.

Module JwtLaws.

Import Str StrFacts Base64 Base64Facts JSON JSONFacts JSONLaws Jwt JwtFacts Samples.
Local Open Scope Z_scope.

(** What an accepted text is made of. *)
Lemma fromString_ok (jwtStr : string) (jwt : Jwt) :
  fromString jwtStr = Ok jwt ->
  exists p0 p1 p2 header body sig,
    split dot jwtStr = [p0; p1; p2] /\
    base64UrlDecode p0 ≫= JSON.parse = Ok header /\
    base64UrlDecode p1 ≫= JSON.parse = Ok body /\
    base64UrlDecode p2 = Ok sig /\
    jwt = new header body (Some sig).
Proof.
  unfold fromString. intros H.
  destruct (split dot jwtStr) as [|p0 [|p1 [|p2 [|p3 ps]]]]; try discriminate.
  exists p0, p1, p2.
  destruct (base64UrlDecode p0) as [hj|]; [|discriminate].
  destruct (base64UrlDecode p1) as [bj|]; [|discriminate].
  destruct (base64UrlDecode p2) as [sig|]; [|discriminate].
  cbn [mbind result_bind] in *.
  destruct (JSON.parse hj) as [header|]; [|discriminate].
  destruct (JSON.parse bj) as [body|]; [|discriminate].
  cbn [mbind result_bind catch_all] in H. injection H as <-.
  exists header, body, sig. repeat split.
Qed.




(** X2: Two signed tokens with the same text have the same header, body and
    signature. *)
Theorem toString_injective (h b h' b' : value) (s s' : Buffer) :
  plain h = true -> plain b = true -> plain h' = true -> plain b' = true ->
  toString (new h b (Some s)) = toString (new h' b' (Some s')) ->
  h = h' /\ b = b' /\ s = s'.
Proof.
  intros Hh Hb Hh' Hb' E.
  pose proof (fromString_toString h b s Hh Hb) as P.
  rewrite E, (fromString_toString h' b' s' Hh' Hb') in P.
  assert (N : new h' b' (Some s') = new h b (Some s)) by congruence.
  pose proof (f_equal header N) as P1. pose proof (f_equal body N) as P2.
  pose proof (f_equal signature N) as P3.
  cbn in P1, P2, P3. repeat split; congruence.
Qed.

(** X2, witness: the sample token against itself. *)
Lemma toString_injective_witness :
  plain (header_value sample_header) = true /\
  plain (body_value sample_body) = true /\
  header_value sample_header = header_value sample_header /\
  body_value sample_body = body_value sample_body /\ ("sig!" : Buffer) = "sig!".
Proof.
  split; [reflexivity|]. split; [reflexivity|].
  apply (toString_injective (header_value sample_header) (body_value sample_body)
           (header_value sample_header) (body_value sample_body) "sig!" "sig!");
    reflexivity.
Defined.

(** X3: The text of a signed token is never the text of an unsigned one, not
    even when the signature is empty: it has one more dot. *)
Theorem signed_text_not_unsigned (h b h' b' : value) (s : Buffer) :
  toString (new h b (Some s)) <> toString (new h' b' None) /\
  length (split dot (toString (new h b (Some s)))) = 3%nat /\
  length (split dot (toString (new h' b' None))) = 2%nat.
Proof.
  assert (H3 : split dot (toString (new h b (Some s)))
               = [headerBase64 h; bodyBase64 b; signatureBase64 s]).
  { unfold toString, new. cbn [stringRepresentation].
    unfold headerBase64, bodyBase64, signatureBase64.
    rewrite !append_assoc. apply split_signed. }
  assert (H2 : split dot (toString (new h' b' None)) = [headerBase64 h'; bodyBase64 b']).
  { unfold toString, new. cbn [stringRepresentation].
    unfold headerBase64, bodyBase64. apply split_unsigned. }
  split; [|now rewrite H3, H2].
  intros E. rewrite E, H2 in H3. discriminate.
Qed.

Lemma isExpired_cases (jwt : Jwt) :
  (exists e, forall t, isExpired jwt t = Throw e) \/
  (forall t, isExpired jwt t = Ok false) \/
  (exists x, forall t, isExpired jwt t = Ok (x <? Date.getUnixTimestamp t)).
Proof.
  unfold isExpired. destruct (JS.get (body jwt) "exp") as [e|]; [|eauto].
  cbn [mbind result_bind]. unfold JS.lt.
  destruct (JS.ToNumber e) as [x|]; eauto.
Qed.

Lemma getUnixTimestamp_le (t t' : Date.Date) :
  t <= t' -> Date.getUnixTimestamp t <= Date.getUnixTimestamp t'.
Proof. unfold Date.getUnixTimestamp. intros. Z.to_euclidean_division_equations; lia. Qed.

(** X5: Once expired, always expired: a token expired at some date is expired at
    every later date, one that is not expired at some date was not expired
    at any earlier date, and whether [isExpired] throws does not depend on
    the date. *)
Theorem expired_stays_expired (jwt : Jwt) (t t' : Date.Date) :
  t <= t' ->
  (isExpired jwt t = Ok true -> isExpired jwt t' = Ok true) /\
  (isExpired jwt t' = Ok false -> isExpired jwt t = Ok false) /\
  (forall e, isExpired jwt t = Throw e <-> isExpired jwt t' = Throw e).
Proof.
  intros Hle. apply getUnixTimestamp_le in Hle.
  destruct (isExpired_cases jwt) as [(e & H) | [H | (x & H)]]; rewrite !H.
  - repeat split; congruence.
  - repeat split; congruence.
  - repeat split; try congruence.
    + intros E. injection E as E. apply Z.ltb_lt in E. f_equal. apply Z.ltb_lt. lia.
    + intros E. injection E as E. apply Z.ltb_ge in E. f_equal. apply Z.ltb_ge. lia.
Qed.

(** X5, witness: the sample token is expired one second after its expiry, and
    so it is years later. *)
Lemma expired_stays_expired_witness :
  1700003601000 <= 1800000000000 /\
  isExpired sample_jwt 1700003601000 = Ok true /\
  isExpired sample_jwt 1800000000000 = Ok true.
Proof.
  split; [lia|]. split; [reflexivity|].
  apply (proj1 (expired_stays_expired sample_jwt 1700003601000 1800000000000 ltac:(lia))).
  reflexivity.
Defined.

(** X6: [identity] and [appId] on a body that has no text under sub (iss): when
    the property is missing, or is null, a number, a boolean or an object,
    the call fails with a TypeError, not with the format error. *)
Theorem prefix_of_non_text (jwt : Jwt) (m : list (string * value)) :
  body jwt = VObj m ->
  let non_text (x : option value) :=
    x = None \/ x = Some VNull \/ (exists n, x = Some (VNum n)) \/
    (exists b, x = Some (VBool b)) \/ (exists o, x = Some (VObj o)) in
  (non_text (Obj.get m "sub") ->
   exists msg, identity jwt = Throw (TypeError msg)) /\
  (non_text (Obj.get m "iss") ->
   exists msg, appId jwt = Throw (TypeError msg)).
Proof.
  intros Hb non_text. unfold identity, appId. rewrite Hb. cbn [JS.get mbind result_bind].
  split; intros [-> | [-> | [[n ->] | [[b ->] | [o ->]]]]]; cbn; eauto.
Qed.

(** X6, witness: a token whose sub is the number 7 and that has no iss; its
    text parses, and both calls fail with a TypeError. *)
Lemma prefix_of_non_text_witness :
  let jwt := new (VObj []) (VObj [("sub", VNum 7)]) (Some "sig") in
  fromString (toString jwt) = Ok jwt /\
  (exists msg, identity jwt = Throw (TypeError msg)) /\
  (exists msg, appId jwt = Throw (TypeError msg)).
Proof.
  pose proof (prefix_of_non_text (new (VObj []) (VObj [("sub", VNum 7)]) (Some "sig"))
                [("sub", VNum 7)] eq_refl) as [Hs Hi].
  split; [reflexivity|]. split.
  - apply Hs. right. right. left. exists 7. reflexivity.
  - apply Hi. left. reflexivity.
Defined.

Lemma split_parts_free sep (s : string) : Forall (fun p => mem sep p = false) (split sep s).
Proof.
  induction s as [|c s IH]; cbn [split].
  - repeat constructor.
  - destruct (Ascii.eqb c sep) eqn:E.
    + constructor; [reflexivity | exact IH].
    + destruct (split sep s) as [|p ps]; [repeat constructor; cbn; now rewrite E|].
      inversion IH as [|? ? Hp Hps]; subst. constructor; [|exact Hps].
      cbn. now rewrite E, Hp.
Qed.

Lemma append_cancel_l (a b c : string) : a +:+ b = a +:+ c -> b = c.
Proof. induction a as [|x a IH]; cbn; [auto|]. intros E. injection E as E. auto. Qed.

Lemma joined_parts (a b c d : string) :
  mem dot a = false -> mem dot c = false ->
  a +:+ "." +:+ b = c +:+ "." +:+ d -> a = c /\ b = d.
Proof.
  intros Ha Hc E. pose proof (f_equal (split dot) E) as Es.
  unfold dot in *. cbn [String.append] in Es.
  rewrite !split_app in Es by assumption.
  injection Es as -> _. split; [reflexivity|].
  apply append_cancel_l in E. cbn in E. now injection E.
Qed.

(** X4: [unsignedData] of a parsed token is written anew from the parsed header
    and body; it is the first two segments of the parsed text only when
    those are the encoding [toString] would write. *)
Theorem unsignedData_rewritten (jwtStr p0 p1 p2 : string) (jwt : Jwt) :
  split dot jwtStr = [p0; p1; p2] ->
  fromString jwtStr = Ok jwt ->
  unsignedData jwt = headerBase64 (header jwt) +:+ "." +:+ bodyBase64 (body jwt) /\
  (unsignedData jwt = p0 +:+ "." +:+ p1 <->
   p0 = headerBase64 (header jwt) /\ p1 = bodyBase64 (body jwt)).
Proof.
  intros Hs H.
  destruct (fromString_ok jwtStr jwt H) as (q0 & q1 & q2 & h & b & sig & Hq & _ & _ & _ & ->).
  cbn [unsignedData header body new]. split; [reflexivity|].
  pose proof (split_parts_free dot jwtStr) as Hfree. rewrite Hs in Hfree.
  inversion Hfree as [|? ? H0 _]; subst.
  split.
  - intros E. apply joined_parts in E as [-> ->]; [auto | | exact H0].
    apply base64UrlEncode_no_dot.
  - intros [-> ->]. reflexivity.
Qed.

(** X4, witness: the text with a blank inside the braces; [unsignedData] is
    e30.e30, not the first two segments of the text. *)
Lemma unsignedData_rewritten_witness :
  split dot "eyB9.eyB9.c2ln" = ["eyB9"; "eyB9"; "c2ln"] /\
  fromString "eyB9.eyB9.c2ln" = Ok (new (VObj []) (VObj []) (Some "sig")) /\
  unsignedData (new (VObj []) (VObj []) (Some "sig")) = "e30.e30" /\
  unsignedData (new (VObj []) (VObj []) (Some "sig")) <> "eyB9.eyB9".
Proof.
  split; [reflexivity|]. split; [reflexivity|].
  destruct (unsignedData_rewritten "eyB9.eyB9.c2ln" "eyB9" "eyB9" "c2ln"
              (new (VObj []) (VObj []) (Some "sig")) eq_refl eq_refl) as [E Hiff].
  split; [exact E|].
  intros Hbad. apply Hiff in Hbad as [Hbad _]. discriminate Hbad.
Defined.

End JwtLaws.

Module ProviderLaws.

Import Jwt JwtFacts Provider ProviderFacts Samples.
Local Open Scope Z_scope.

(** The handlers cache a token exactly when they return one. *)
Lemma handlers_cache (p : provider) (o : outcome) :
  match fst (handlers p o) with
  | Ok jwt => cachedJwt (snd (handlers p o)) = Some jwt
  | Throw _ => cachedJwt (snd (handlers p o)) = cachedJwt p
  end.
Proof.
  destruct o as [t|err]; cbn [handlers].
  - unfold onFulfilled. destruct (coerce t) as [jwt|e]; [reflexivity|].
    unfold onRejected. destruct e; try reflexivity.
    destruct (fromString s); reflexivity.
  - unfold onRejected. destruct err; try reflexivity.
    destruct (fromString s); reflexivity.
Qed.

Lemma settle_outstanding (p p' : provider) h o :
  settle p h o = Some p' -> h ∈ outstanding p.
Proof.
  unfold settle. destruct (bool_decide (h ∈ outstanding p)) eqn:E; [|discriminate].
  intros _. now apply bool_decide_eq_true_1 in E.
Qed.

(** X7: The constructor and an initial token given as text: the empty text
    counts as no token; any other text must parse, or the constructor throws
    the parser's error; the parsed token is cached, and calls get it without
    a call of the callback for as long as it is fresh. *)
Theorem created_with_text :
  create (Some (TokenString "")) = create None /\
  forall s, s <> EmptyString ->
    (forall e, fromString s = Throw e ->
       create (Some (TokenString s)) = Throw WrongJwtFormat) /\
    (forall jwt, fromString s = Ok jwt ->
       exists p, create (Some (TokenString s)) = Ok p /\
         cachedJwt p = Some jwt /\ jwtPromise p = None /\ renewCalls p = 0%nat /\
         forall now r, isExpired jwt (Date.addSeconds now 5) = Ok false ->
           getJwt p now r = (Ok (Resolved jwt), p)).
Proof.
  split; [reflexivity|]. intros s Hs.
  destruct s as [|c s]; [congruence|]. split.
  - intros e He. unfold create. rewrite He.
    apply fromString_error in He. now subst e.
  - intros jwt Hj. unfold create. rewrite Hj. cbn [mbind result_bind].
    eexists. split; [reflexivity|]. cbn [cachedJwt jwtPromise renewCalls].
    repeat split. intros now r He.
    unfold getJwt, cache_hit. cbn [cachedJwt].
    change TOKEN_EXPIRATION_MARGIN with 5. now rewrite He.
Qed.

(** X9: A renewal that fails leaves the provider ready for the next one: after
    the renewal in flight is rejected with a value that is not the text of
    a token, the next call that finds no fresh token calls the callback
    again and gets a new promise, which is pending, while the promise of
    the failed renewal stays rejected with the value it failed with. *)
Theorem failed_renewal_retried (p : provider) (h : nat) (err : exn) :
  reachable p -> h ∈ outstanding p ->
  (forall s jwt, err = ThrownString s -> fromString s <> Ok jwt) ->
  exists p', settle p h (Rejects err) = Some p' /\
    forall now, cache_hit p' now = Ok None ->
      exists h' p'', getJwt p' now Returns = (Ok (Shared h'), p'') /\
        h' <> h /\ renewCalls p'' = S (renewCalls p) /\
        outstanding p'' = [h'] /\
        resolution p'' (Shared h') = None /\
        resolution p'' (Shared h) = Some (Rejected err).
Proof.
  intros Hreach Hin Hnot. pose proof (reachable_inv p Hreach) as Hi.
  destruct (settle_spec p h (Rejects err) Hi Hin) as (p' & Hs & Hm & Ho & _ & Hr & Hp).
  assert (Hrej : fst (handlers p (Rejects err)) = Throw err).
  { cbn [handlers]. unfold onRejected. destruct err; try reflexivity.
    destruct (fromString s) as [jwt|e] eqn:E; [|reflexivity].
    exfalso. exact (Hnot s jwt eq_refl E). }
  rewrite Hrej in Hp. cbn [settle_result] in Hp.
  exists p'. split; [exact Hs|]. intros now Hc.
  assert (Hlt : (h < length (promises p'))%nat).
  { destruct (promises p' !! h) as [x|] eqn:E; [|discriminate].
    now apply lookup_lt_Some in E. }
  eexists _, _. unfold getJwt. rewrite Hc, Hm.
  split; [reflexivity|]. cbn [renewCalls outstanding resolution promises].
  split; [lia|]. split; [now rewrite Hr|]. split; [now rewrite Ho|]. split.
  - rewrite lookup_app_r by lia. now rewrite Nat.sub_diag.
  - rewrite lookup_app_l by exact Hlt. exact Hp.
Qed.

(** X9, witness: the renewal in flight fails with an Error; the next call
    gets a new promise and the callback has been called twice. *)
Lemma failed_renewal_retried_witness :
  reachable renewing_provider /\ 0%nat ∈ outstanding renewing_provider /\
  exists p', settle renewing_provider 0 (Rejects (Error "offline")) = Some p' /\
    exists h' p'', getJwt p' 0 Returns = (Ok (Shared h'), p'') /\
      h' <> 0%nat /\ renewCalls p'' = 2%nat /\
      resolution p'' (Shared 0) = Some (Rejected (Error "offline")).
Proof.
  split; [exact reachable_renewing|]. split; [apply list_elem_of_here|].
  destruct (failed_renewal_retried renewing_provider 0 (Error "offline")
              reachable_renewing (list_elem_of_here _ _))
    as (p' & Hs & Hnext); [discriminate|].
  exists p'. split; [exact Hs|].
  assert (Hp' : p' = {| cachedJwt := None; jwtPromise := None;
                        promises := [Some (Rejected (Error "offline"))];
                        outstanding := []; renewCalls := 1 |}).
  { cbv in Hs. now injection Hs as <-. }
  destruct (Hnext 0) as (h' & p'' & Hg & Hne & Hc & _ & _ & Hr).
  - rewrite Hp'. reflexivity.
  - exists h', p''. repeat split; assumption.
Defined.

(** X10: A renewal that gives text that is not a token: the parser's error goes
    through the rejection handler, which passes it on (it is not a string):
    the shared promise is rejected with the parser's error, the cache keeps
    what it had, and the marker is cleared. *)
Theorem unparsable_renewal (p : provider) (h : nat) (s : string) (e : exn) :
  reachable p -> h ∈ outstanding p -> fromString s = Throw e ->
  exists p', settle p h (Resolves (TokenString s)) = Some p' /\
    resolution p' (Shared h) = Some (Rejected WrongJwtFormat) /\
    cachedJwt p' = cachedJwt p /\ jwtPromise p' = None /\ outstanding p' = [].
Proof.
  intros Hreach Hin He. pose proof (reachable_inv p Hreach) as Hi.
  destruct (settle_spec p h (Resolves (TokenString s)) Hi Hin)
    as (p' & Hs & Hm & Ho & Hc & _ & Hp).
  assert (Hh : handlers p (Resolves (TokenString s))
               = (Throw WrongJwtFormat, clear_promise p)).
  { cbn [handlers]. unfold onFulfilled. cbn [coerce]. rewrite He.
    apply fromString_error in He. subst e. reflexivity. }
  rewrite Hh in Hc, Hp. exists p'. cbn [resolution]. auto.
Qed.

(** X10, witness: the renewal gives the text onepart. *)
Lemma unparsable_renewal_witness :
  reachable renewing_provider /\ 0%nat ∈ outstanding renewing_provider /\
  fromString "onepart" = Throw WrongJwtFormat /\
  exists p', settle renewing_provider 0 (Resolves (TokenString "onepart")) = Some p' /\
    resolution p' (Shared 0) = Some (Rejected WrongJwtFormat) /\
    cachedJwt p' = None /\ jwtPromise p' = None.
Proof.
  split; [exact reachable_renewing|]. split; [apply list_elem_of_here|].
  split; [reflexivity|].
  destruct (unparsable_renewal renewing_provider 0 "onepart" WrongJwtFormat
              reachable_renewing (list_elem_of_here _ _) eq_refl)
    as (p' & Hs & Hr & Hc & Hm & _).
  exists p'. auto.
Defined.

(** X11: A callback that throws instead of returning a promise: the call of
    [getJwt] throws the same value, no marker is set and nothing is
    outstanding, the cache is untouched, and the next call that finds no
    fresh token calls the callback again. *)
Theorem throwing_callback (p : provider) (now now' : Date.Date) (e : exn) :
  reachable p -> jwtPromise p = None ->
  cache_hit p now = Ok None -> cache_hit p now' = Ok None ->
  exists p', getJwt p now (Throws e) = (Throw e, p') /\
    jwtPromise p' = None /\ outstanding p' = [] /\
    cachedJwt p' = cachedJwt p /\ promises p' = promises p /\
    exists h p'', getJwt p' now' Returns = (Ok (Shared h), p'') /\
      renewCalls p'' = S (S (renewCalls p)) /\ outstanding p'' = [h].
Proof.
  intros Hreach Hm Hc Hc'. pose proof (reachable_inv p Hreach) as Hi.
  assert (Ho : outstanding p = []) by (unfold inv in Hi; now rewrite Hm in Hi).
  set (p1 := {| cachedJwt := cachedJwt p; jwtPromise := None;
                promises := promises p; outstanding := outstanding p;
                renewCalls := S (renewCalls p) |}).
  exists p1. split; [unfold getJwt; now rewrite Hc, Hm|].
  split; [reflexivity|]. split; [exact Ho|]. split; [reflexivity|].
  split; [reflexivity|].
  assert (Hc1 : cache_hit p1 now' = Ok None) by exact Hc'.
  eexists _, _. unfold getJwt. rewrite Hc1. subst p1.
  cbn [jwtPromise promises renewCalls outstanding cachedJwt].
  split; [reflexivity|]. split; [reflexivity | now rewrite Ho].
Qed.

(** X11, witness: a new provider whose callback throws an Error. *)
Lemma throwing_callback_witness :
  reachable empty_provider /\ jwtPromise empty_provider = None /\
  cache_hit empty_provider 0 = Ok None /\
  exists p', getJwt empty_provider 0 (Throws (Error "boom")) = (Throw (Error "boom"), p') /\
    jwtPromise p' = None /\ outstanding p' = [] /\
    exists h p'', getJwt p' 0 Returns = (Ok (Shared h), p'') /\ renewCalls p'' = 2%nat.
Proof.
  split; [exact reachable_empty|]. split; [reflexivity|]. split; [reflexivity|].
  destruct (throwing_callback empty_provider 0 0 (Error "boom") reachable_empty
              eq_refl eq_refl eq_refl)
    as (p' & Hg & Hm & Ho & _ & _ & h & p'' & Hg' & Hc & _).
  exists p'. repeat (split; [assumption|]). exists h, p''. split; assumption.
Defined.

(** X8: A cached token without an expiry is never renewed: [isExpired] is false
    for it at every date (a missing exp compares as not a number), so every
    call, at any time, returns the cached token and leaves the provider as
    it is; the callback is not called. *)
Theorem token_without_exp_kept (p : provider) (jwt : Jwt) (m : list (string * value)) :
  cachedJwt p = Some jwt -> body jwt = VObj m -> Obj.get m "exp" = None ->
  (forall at_, isExpired jwt at_ = Ok false) /\
  (forall now r, getJwt p now r = (Ok (Resolved jwt), p)) /\
  (forall nows, calls p nows = (repeat (Ok (Resolved jwt)) (length nows), p)).
Proof.
  intros Hc Hb Hexp.
  assert (He : forall at_, isExpired jwt at_ = Ok false).
  { intros at_. unfold isExpired. rewrite Hb. cbn [JS.get mbind result_bind].
    now rewrite Hexp. }
  assert (Hg : forall now r, getJwt p now r = (Ok (Resolved jwt), p)).
  { intros now r. unfold getJwt, cache_hit. now rewrite Hc, He. }
  split; [exact He|]. split; [exact Hg|].
  induction nows as [|now nows IH]; [reflexivity|].
  cbn [calls]. now rewrite Hg, IH.
Qed.

(** X8, witness: a provider created with a token whose body has no exp, asked
    far in the future. *)
Lemma token_without_exp_kept_witness :
  let jwt := new (VObj []) (VObj [("sub", VStr "identity-a")]) (Some "sig") in
  let p := {| cachedJwt := Some jwt; jwtPromise := None; promises := [];
              outstanding := []; renewCalls := 0 |} in
  create (Some (TokenJwt jwt)) = Ok p /\
  getJwt p 99999999999999 Returns = (Ok (Resolved jwt), p).
Proof.
  split; [reflexivity|].
  apply (token_without_exp_kept
           {| cachedJwt := Some (new (VObj []) (VObj [("sub", VStr "identity-a")]) (Some "sig"));
              jwtPromise := None; promises := []; outstanding := []; renewCalls := 0 |}
           (new (VObj []) (VObj [("sub", VStr "identity-a")]) (Some "sig"))
           [("sub", VStr "identity-a")] eq_refl eq_refl eq_refl).
Defined.

(** X12: The cached token changes only when a renewal settles with a token: a
    call never changes it, a settlement that fulfils the shared promise
    caches the token it is fulfilled with, a settlement that rejects it
    leaves the cache as it was; so a provider that holds a token always
    holds one. *)
Theorem cache_changes_on_renewal (p p' : provider) (ev : event) :
  reachable p -> step p ev = Some p' ->
  (forall now r, ev = Call now r -> cachedJwt p' = cachedJwt p) /\
  (forall h o jwt, ev = Settle h o ->
     resolution p' (Shared h) = Some (Fulfilled jwt) -> cachedJwt p' = Some jwt) /\
  (forall h o e, ev = Settle h o ->
     resolution p' (Shared h) = Some (Rejected e) -> cachedJwt p' = cachedJwt p) /\
  (is_Some (cachedJwt p) -> is_Some (cachedJwt p')).
Proof.
  intros Hreach Hstep. pose proof (reachable_inv p Hreach) as Hi.
  destruct ev as [now r | h o]; cbn [step] in Hstep.
  - injection Hstep as <-.
    assert (Hsame : cachedJwt (snd (getJwt p now r)) = cachedJwt p).
    { destruct (getJwt_cases p now r)
        as [(e & _ & ->) | [(jwt & _ & ->) | [(h & _ & _ & ->) | [(e & _ & _ & _ & ->) | (_ & _ & _ & ->)]]]];
        reflexivity. }
    repeat split; try discriminate; [auto | now rewrite Hsame].
  - pose proof (settle_outstanding p p' h o Hstep) as Hin.
    destruct (settle_spec p h o Hi Hin) as (p1 & Hs & _ & _ & Hc & _ & Hp).
    rewrite Hstep in Hs. injection Hs as <-.
    pose proof (handlers_cache p o) as Hh.
    split; [discriminate|].
    cbn [resolution]. split; [|split].
    + intros h0 o0 jwt E Hr. injection E as <- <-. rewrite Hp in Hr.
      destruct (fst (handlers p o)); cbn in Hr; [|discriminate].
      injection Hr as <-. congruence.
    + intros h0 o0 e E Hr. injection E as <- <-. rewrite Hp in Hr.
      destruct (fst (handlers p o)); cbn in Hr; [discriminate|]. congruence.
    + intros Hsome. rewrite Hc. destruct (fst (handlers p o)); rewrite Hh; eauto.
Qed.

(** X12, witness: a call that starts a renewal leaves the stale sample token
    in the cache. *)
Lemma cache_changes_on_renewal_witness :
  reachable warm_provider /\
  step warm_provider (Call 1700003596000 Returns)
    = Some (snd (getJwt warm_provider 1700003596000 Returns)) /\
  jwtPromise (snd (getJwt warm_provider 1700003596000 Returns)) = Some 0%nat /\
  cachedJwt (snd (getJwt warm_provider 1700003596000 Returns)) = Some sample_jwt.
Proof.
  split; [exact reachable_warm|]. split; [reflexivity|]. split; [reflexivity|].
  apply (proj1 (cache_changes_on_renewal warm_provider _ (Call 1700003596000 Returns)
                  reachable_warm eq_refl) 1700003596000 Returns eq_refl).
Defined.

(** X13: A settled promise stays as it is: whatever a shared promise was
    fulfilled or rejected with, no later call or settlement changes it. *)
Theorem settled_promise_stable (p p' : provider) (ev : event) (h : nat) (s : settled) :
  reachable p -> step p ev = Some p' ->
  resolution p (Shared h) = Some s -> resolution p' (Shared h) = Some s.
Proof.
  intros Hreach Hstep Hr. pose proof (reachable_inv p Hreach) as Hi.
  cbn [resolution] in *.
  assert (Hlt : (h < length (promises p))%nat).
  { destruct (promises p !! h) as [x|] eqn:E; [|discriminate].
    now apply lookup_lt_Some in E. }
  destruct ev as [now r | h' o]; cbn [step] in Hstep.
  - injection Hstep as <-.
    destruct (getJwt_cases p now r)
      as [(e & _ & ->) | [(jwt & _ & ->) | [(h0 & _ & _ & ->) | [(e & _ & _ & _ & ->) | (_ & _ & _ & ->)]]]];
      cbn [snd promises]; try exact Hr.
    now rewrite lookup_app_l by exact Hlt.
  - pose proof (settle_outstanding p p' h' o Hstep) as Hin.
    unfold settle in Hstep. rewrite bool_decide_eq_true_2 in Hstep by exact Hin.
    destruct (handlers_marker p o) as (_ & Hp & _ & _).
    destruct (handlers p o) as [r p1]. cbn [snd] in Hp.
    injection Hstep as <-. cbn [promises]. rewrite Hp.
    assert (Hne : h' <> h).
    { intros ->. unfold inv in Hi. destruct (jwtPromise p) as [h0|].
      - destruct Hi as [Ho Hpend]. rewrite Ho in Hin.
        apply list_elem_of_singleton in Hin. subst h0.
        rewrite Hpend in Hr. discriminate.
      - rewrite Hi in Hin. now apply not_elem_of_nil in Hin. }
    now rewrite list_lookup_insert_ne by exact Hne.
Qed.

(** X13, witness: after a failed renewal, the call that starts the next one
    leaves the first promise rejected. *)
Lemma settled_promise_stable_witness :
  let p := {| cachedJwt := None; jwtPromise := None;
              promises := [Some (Rejected (Error "offline"))];
              outstanding := []; renewCalls := 1 |} in
  reachable p /\
  resolution p (Shared 0) = Some (Rejected (Error "offline")) /\
  resolution (snd (getJwt p 0 Returns)) (Shared 0) = Some (Rejected (Error "offline")) /\
  resolution (snd (getJwt p 0 Returns)) (Shared 1) = None.
Proof.
  assert (Hreach : reachable {| cachedJwt := None; jwtPromise := None;
                                promises := [Some (Rejected (Error "offline"))];
                                outstanding := []; renewCalls := 1 |}).
  { apply (reachable_step renewing_provider (Settle 0 (Rejects (Error "offline"))));
      [exact reachable_renewing | reflexivity]. }
  split; [exact Hreach|]. split; [reflexivity|]. split; [|reflexivity].
  apply (settled_promise_stable _ _ (Call 0 Returns) 0%nat (Rejected (Error "offline"))
           Hreach eq_refl eq_refl).
Defined.

(** X23: The provider does not look at the token a renewal gives: a token
    that is already expired (five seconds from now) is still what the shared
    promise is fulfilled with and what is cached, and the next call finds it
    stale and calls the callback again, for a promise of its own. *)
Theorem expired_renewal_delivered (p : provider) (h : nat) (t : token) (jwt : Jwt)
    (now : Date.Date) :
  reachable p -> h ∈ outstanding p -> coerce t = Ok jwt ->
  isExpired jwt (Date.addSeconds now 5) = Ok true ->
  exists p', settle p h (Resolves t) = Some p' /\
    resolution p' (Shared h) = Some (Fulfilled jwt) /\ cachedJwt p' = Some jwt /\
    exists h' p'', getJwt p' now Returns = (Ok (Shared h'), p'') /\
      h' <> h /\ renewCalls p'' = S (renewCalls p) /\ outstanding p'' = [h'] /\
      cachedJwt p'' = Some jwt.
Proof.
  intros Hreach Hin Hc He. pose proof (reachable_inv p Hreach) as Hi.
  destruct (settle_spec p h (Resolves t) Hi Hin) as (p' & Hs & Hm & Ho & Hcache & Hr & Hp).
  rewrite (handlers_resolves p t jwt Hc) in Hcache, Hp. cbn in Hcache, Hp.
  exists p'. split; [exact Hs|]. split; [exact Hp|]. split; [exact Hcache|].
  assert (Hlt : (h < length (promises p'))%nat).
  { destruct (promises p' !! h) as [x|] eqn:E; [|discriminate].
    now apply lookup_lt_Some in E. }
  assert (Hmiss : cache_hit p' now = Ok None).
  { unfold cache_hit. rewrite Hcache. change TOKEN_EXPIRATION_MARGIN with 5.
    now rewrite He. }
  eexists _, _. unfold getJwt. rewrite Hmiss, Hm.
  split; [reflexivity|]. cbn [renewCalls outstanding cachedJwt].
  split; [lia|]. split; [now rewrite Hr|]. split; [now rewrite Ho | exact Hcache].
Qed.

(** X23, witness: the renewal in flight gives the sample token, and the time
    is an hour after its expiry. *)
Lemma expired_renewal_delivered_witness :
  reachable renewing_provider /\ 0%nat ∈ outstanding renewing_provider /\
  isExpired sample_jwt (Date.addSeconds 1700007200000 5) = Ok true /\
  exists p', settle renewing_provider 0 (Resolves (TokenJwt sample_jwt)) = Some p' /\
    resolution p' (Shared 0) = Some (Fulfilled sample_jwt) /\
    cachedJwt p' = Some sample_jwt /\
    exists h' p'', getJwt p' 1700007200000 Returns = (Ok (Shared h'), p'') /\
      h' <> 0%nat /\ renewCalls p'' = 2%nat.
Proof.
  split; [exact reachable_renewing|]. split; [apply list_elem_of_here|].
  split; [reflexivity|].
  destruct (expired_renewal_delivered renewing_provider 0 (TokenJwt sample_jwt) sample_jwt
              1700007200000 reachable_renewing (list_elem_of_here _ _) eq_refl eq_refl)
    as (p' & Hs & Hr & Hc & h' & p'' & Hg & Hne & Hn & _).
  exists p'. repeat (split; [assumption|]). exists h', p''. auto.
Defined.

End ProviderLaws.

Module StorageLaws.

Import Obj ObjFacts JSON JSONFacts JwtFacts KeyEntryStorage.
Import Base64Facts DateFacts StorageFacts Samples.
Local Open Scope Z_scope.


Lemma encode_nonempty (b : Buffer) : b <> EmptyString -> Base64.encode b <> EmptyString.
Proof. destruct b as [|x [|y [|z b]]]; [congruence | discriminate ..]. Qed.

Section Validation.

Context {S : Type} `{IStorageAdapter S}.

(** X14: The arguments are checked first, the name before the value: with the
    empty name every operation throws its TypeError whatever else it is
    given and whatever is stored; [save] with the empty text for a value
    throws its TypeError, also under a name that is stored already; with a
    name that is not empty [exists] and [remove] give what the adapter
    gives. *)
Theorem arguments_checked_first (st : S) :
  exists_ st "" = Throw (TypeError "Argument 'name' is required.") /\
  load st "" = Throw (TypeError "Argument 'name' is required.") /\
  remove st "" = Throw (TypeError "Argument 'name' is required.") /\
  (forall created modified val meta,
     save st created modified "" val meta
     = Throw (TypeError "Invalid argument. Property name is required")) /\
  (forall now val meta,
     update st now "" val meta
     = Throw (TypeError "Invalid argument. Property name is required")) /\
  (forall name created modified meta, name <> EmptyString ->
     save st created modified name (DataString "") meta
     = Throw (TypeError "Invalid argument. Property value is required")) /\
  (forall name, name <> EmptyString ->
     exists_ st name = Ok (adapter_exists st name) /\
     remove st name = Ok (adapter_remove st name)).
Proof.
  repeat (split; [reflexivity|]). split.
  - intros name created modified meta Hn. unfold save.
    rewrite (validateNameProperty_ok name Hn). reflexivity.
  - intros name Hn. unfold exists_, remove.
    rewrite (validateName_ok name Hn). split; reflexivity.
Qed.

(** X17: A value given as base64 text is the value given as the bytes the text
    stands for, to [save] and to [update] alike. *)
Theorem text_value_is_bytes (st : S) (created modified now : Date.Date) (name : string)
    (b : Buffer) (meta : option KeyEntryMeta) :
  b <> EmptyString ->
  save st created modified name (DataString (Base64.encode b)) meta
  = save st created modified name (DataBytes b) meta /\
  update st now name (Some (DataString (Base64.encode b))) meta
  = update st now name (Some (DataBytes b)) meta.
Proof.
  intros Hb. apply encode_nonempty in Hb.
  assert (Hf : falsy (DataString (Base64.encode b)) = false).
  { cbn. destruct (Base64.encode b); [congruence | reflexivity]. }
  assert (Hd : dataToUint8Array (DataString (Base64.encode b)) = Ok b).
  { cbn. now rewrite decode_encode. }
  split.
  - unfold save, validateValueProperty, requiredProp. rewrite Hf, Hd. reflexivity.
  - unfold update, truthy. rewrite Hf, Hd. reflexivity.
Qed.



End Validation.

Section WithLaws.

Context {S : Type} `{StorageAdapterLaws S}.

(** X15: [save] never overwrites: under a name the adapter holds already it
    throws KeyEntryAlreadyExistsError with that name, whatever the value and
    the meta. *)
Theorem save_existing_name (st : S) (created modified : Date.Date) (name : string)
    (val : Data) (b : Buffer) (meta : option KeyEntryMeta) :
  name <> EmptyString -> falsy val = false -> dataToUint8Array val = Ok b ->
  adapter_load st name <> None ->
  save st created modified name val meta = Throw (KeyEntryAlreadyExistsError name).
Proof.
  intros Hn Hf Hd Hstored. unfold save, validateValueProperty, requiredProp.
  rewrite (validateNameProperty_ok name Hn), Hf, Hd. cbn [mbind result_bind].
  destruct meta as [x|]; cbn [fmap option_fmap option_map Obj.set_opt Obj.set Obj.remove
                                String.eqb Ascii.eqb Bool.eqb].
  - change (VObj _) with (saved_entry name b x created modified).
    rewrite serialize_saved_entry. cbn [mbind result_bind].
    now rewrite (store_existing st name _ Hstored).
  - change (VObj _) with (new_entry name b created modified).
    rewrite serialize_new_entry. cbn [mbind result_bind].
    now rewrite (store_existing st name _ Hstored).
Qed.

(** X16: Saving with a meta and loading: for a meta that has no key twice and no
    key named value, creationDate or modificationDate, the loaded entry has
    the saved bytes, the saved meta and the two dates of [save]. *)
Theorem save_meta_then_load (st : S) (created modified : Date.Date) (name : string)
    (b : Buffer) (x : KeyEntryMeta) :
  name <> EmptyString ->
  Date.in_range created = true -> Date.in_range modified = true ->
  meta_ok x = true -> adapter_load st name = None ->
  exists st' loaded,
    save st created modified name (DataBytes b) (Some x)
      = Ok (saved_entry name b x created modified, st') /\
    load st' name = Ok (Some (VObj loaded)) /\
    Obj.get loaded "name" = Some (VStr name) /\
    Obj.get loaded "value" = Some (VBuffer b) /\
    Obj.get loaded "meta" = Some (meta_value x) /\
    Obj.get loaded "creationDate" = Some (VDate (Some created)) /\
    Obj.get loaded "modificationDate" = Some (VDate (Some modified)).
Proof.
  intros Hn Hc Hm Hx Hfree.
  destruct (store_new st name
              (stringify (VObj [("name", VStr name);
                                ("meta", meta_value x);
                                ("creationDate", VStr (Date.toISOString created));
                                ("modificationDate", VStr (Date.toISOString modified));
                                ("value", VStr (Base64.encode b))])) Hfree)
    as (st' & Hstore & Hload).
  exists st', [("name", VStr name);
               ("meta", meta_value x);
               ("creationDate", VDate (Some created));
               ("modificationDate", VDate (Some modified));
               ("value", VBuffer b)].
  split; [|split].
  - unfold save. rewrite (validateNameProperty_ok name Hn).
    cbn [validateValueProperty requiredProp falsy dataToUint8Array mbind result_bind
         fmap option_fmap option_map Obj.set_opt Obj.set String.eqb Ascii.eqb Bool.eqb].
    change (VObj _) with (saved_entry name b x created modified).
    rewrite serialize_saved_entry. cbn [mbind result_bind].
    rewrite Hstore. reflexivity.
  - unfold load. rewrite (validateName_ok name Hn). cbn [mbind result_bind].
    rewrite Hload, (deserialize_saved_entry name b x created modified Hc Hm Hx).
    reflexivity.
  - cbn. repeat split.
Qed.

(** X21: Replacing the value of an entry that [save] stored without a meta, then
    loading it: the value is the new one, the creationDate is that of
    [save], the modificationDate is the clock reading of [update], and there
    is still no meta. *)
Theorem update_value_then_load (st : S) (created modified now : Date.Date)
    (name : string) (b b' : Buffer) (data : Buffer) :
  name <> EmptyString ->
  Date.in_range created = true -> Date.in_range modified = true ->
  Date.in_range now = true ->
  serializeKeyEntry (new_entry name b created modified) = Ok data ->
  adapter_load st name = Some data ->
  exists st' loaded,
    update st now name (Some (DataBytes b')) None
      = Ok (loaded_entry name b' created now, st') /\
    load st' name = Ok (Some (VObj loaded)) /\
    Obj.get loaded "value" = Some (VBuffer b') /\
    Obj.get loaded "meta" = None /\
    Obj.get loaded "creationDate" = Some (VDate (Some created)) /\
    Obj.get loaded "modificationDate" = Some (VDate (Some now)).
Proof.
  intros Hn Hc Hm Hnow Hser Hload.
  rewrite serialize_new_entry in Hser.
  assert (Hdata : data =
                  stringify (VObj [("name", VStr name);
                                   ("creationDate", VStr (Date.toISOString created));
                                   ("modificationDate", VStr (Date.toISOString modified));
                                   ("value", VStr (Base64.encode b))])) by congruence.
  clear Hser. subst data.
  assert (Hstored : adapter_load st name <> None) by (rewrite Hload; discriminate).
  destruct (update_existing st name
              (stringify (VObj [("name", VStr name);
                                ("creationDate", VStr (Date.toISOString created));
                                ("modificationDate", VStr (Date.toISOString now));
                                ("value", VStr (Base64.encode b'))])) Hstored)
    as (st' & Hupdate & Hload').
  exists st', [("name", VStr name);
               ("creationDate", VDate (Some created));
               ("modificationDate", VDate (Some now));
               ("value", VBuffer b')].
  split; [|split].
  - unfold update. rewrite (validateNameProperty_ok name Hn).
    cbn [mbind result_bind truthy falsy orb negb].
    rewrite Hload, (deserialize_new_entry name b created modified Hc Hm).
    cbn [mbind result_bind props loaded_entry dataToUint8Array].
    change (VObj (Obj.set_opt _ _ _)) with (loaded_entry name b' created now).
    change (serializeKeyEntry (loaded_entry name b' created now))
      with (serializeKeyEntry (new_entry name b' created now)).
    rewrite serialize_new_entry. cbn [mbind result_bind].
    rewrite Hupdate. reflexivity.
  - unfold load. rewrite (validateName_ok name Hn). cbn [mbind result_bind].
    rewrite Hload', (deserialize_new_entry name b' created now Hc Hnow). reflexivity.
  - cbn. repeat split.
Qed.

(** X22: The reviver reaches into the meta: a meta key named creationDate or
    modificationDate does not come back as the text that was saved but as a
    Date made from it. *)
Theorem meta_date_key_revived (st : S) (created modified : Date.Date) (name : string)
    (b : Buffer) (k s : string) :
  name <> EmptyString ->
  Date.in_range created = true -> Date.in_range modified = true ->
  k = CREATION_DATE_KEY \/ k = MODIFICATION_DATE_KEY ->
  adapter_load st name = None ->
  exists st' loaded d,
    save st created modified name (DataBytes b) (Some [(k, s)])
      = Ok (saved_entry name b [(k, s)] created modified, st') /\
    load st' name = Ok (Some (VObj loaded)) /\
    Obj.get loaded "meta" = Some (VObj [(k, VDate d)]) /\
    Obj.get loaded "meta" <> Some (meta_value [(k, s)]) /\
    Obj.get loaded "value" = Some (VBuffer b).
Proof.
  intros Hn Hc Hm Hk Hfree.
  destruct (store_new st name
              (stringify (VObj [("name", VStr name);
                                ("meta", meta_value [(k, s)]);
                                ("creationDate", VStr (Date.toISOString created));
                                ("modificationDate", VStr (Date.toISOString modified));
                                ("value", VStr (Base64.encode b))])) Hfree)
    as (st' & Hstore & Hload).
  exists st',
    [("name", VStr name);
     ("meta", VObj [(k, VDate (Date.parse s))]);
     ("creationDate", VDate (Some created));
     ("modificationDate", VDate (Some modified));
     ("value", VBuffer b)], (Date.parse s).
  split; [|split].
  - unfold save. rewrite (validateNameProperty_ok name Hn).
    cbn [validateValueProperty requiredProp falsy dataToUint8Array mbind result_bind
         fmap option_fmap option_map Obj.set_opt Obj.set String.eqb Ascii.eqb Bool.eqb].
    change (VObj _) with (saved_entry name b [(k, s)] created modified).
    rewrite serialize_saved_entry. cbn [mbind result_bind].
    rewrite Hstore. reflexivity.
  - unfold load. rewrite (validateName_ok name Hn). cbn [mbind result_bind].
    rewrite Hload. unfold deserializeKeyEntry, parse_with.
    rewrite parse_stringify by (apply plain_stored; reflexivity).
    cbn [mbind result_bind]. rewrite internalize_object.
    assert (Hrk : forall v, reviver k v = Ok (new_Date v)).
    { intros v. destruct Hk as [-> | ->]; reflexivity. }
    assert (Hmeta : reviver "meta" (VObj [(k, VDate (Date.parse s))])
                    = Ok (VObj [(k, VDate (Date.parse s))])) by reflexivity.
    cbn [internalize_members internalize meta_value List.map fst snd].
    rewrite Hrk. cbn [mbind result_bind new_Date]. rewrite Hmeta.
    cbn [mbind result_bind reviver String.eqb Ascii.eqb Bool.eqb orb
         VALUE_KEY CREATION_DATE_KEY MODIFICATION_DATE_KEY new_Date Buffer_from_base64].
    rewrite (parse_toISOString created Hc), (parse_toISOString modified Hm).
    rewrite decode_encode. reflexivity.
  - cbn. repeat split. discriminate.
Qed.

End WithLaws.

(** X17, witness: the bytes 1, 2, 3 and their base64 text AQID. *)
Lemma text_value_is_bytes_witness :
  bytes123 <> EmptyString /\
  Base64.encode bytes123 = "AQID" /\
  save (∅ : gmap string Buffer) 0 0 "k" (DataString "AQID") None
  = save (∅ : gmap string Buffer) 0 0 "k" (DataBytes bytes123) None.
Proof.
  split; [discriminate|]. split; [reflexivity|].
  apply (proj1 (text_value_is_bytes (∅ : gmap string Buffer) 0 0 0 "k" bytes123 None
                  ltac:(discriminate))).
Defined.


(** X15, witness: saving under the name k in a store that holds it. *)
Lemma save_existing_name_witness :
  ("k" : string) <> EmptyString /\
  adapter_load store_k "k" <> None /\
  save store_k 0 0 "k" (DataBytes bytes123) None = Throw (KeyEntryAlreadyExistsError "k").
Proof.
  split; [discriminate|]. split; [discriminate|].
  apply (save_existing_name store_k 0 0 "k" (DataBytes bytes123) bytes123 None);
    [discriminate | reflexivity | reflexivity | discriminate].
Defined.

(** X16, witness: the name k, the bytes 1, 2, 3 and a meta of one pair in the
    empty in-memory store. *)
Lemma save_meta_then_load_witness :
  ("k" : string) <> EmptyString /\
  meta_ok [("a", "b")] = true /\
  exists st' loaded,
    save (∅ : gmap string Buffer) 1700000000123 1700000000124 "k" (DataBytes bytes123)
      (Some [("a", "b")])
      = Ok (saved_entry "k" bytes123 [("a", "b")] 1700000000123 1700000000124, st') /\
    load st' "k" = Ok (Some (VObj loaded)) /\
    Obj.get loaded "name" = Some (VStr "k") /\
    Obj.get loaded "value" = Some (VBuffer bytes123) /\
    Obj.get loaded "meta" = Some (meta_value [("a", "b")]) /\
    Obj.get loaded "creationDate" = Some (VDate (Some 1700000000123)) /\
    Obj.get loaded "modificationDate" = Some (VDate (Some 1700000000124)).
Proof.
  split; [discriminate|]. split; [reflexivity|].
  apply (save_meta_then_load (∅ : gmap string Buffer) 1700000000123 1700000000124 "k"
           bytes123 [("a", "b")]);
    [discriminate | reflexivity | reflexivity | reflexivity | reflexivity].
Defined.

(** X21, witness: the entry k gets new bytes. *)
Lemma update_value_then_load_witness :
  serializeKeyEntry (new_entry "k" bytes123 1700000000123 1700000000123) = Ok stored_text /\
  adapter_load store_k "k" = Some stored_text /\
  exists st' loaded,
    update store_k 1700000000999 "k" (Some (DataBytes "new")) None
      = Ok (loaded_entry "k" "new" 1700000000123 1700000000999, st') /\
    load st' "k" = Ok (Some (VObj loaded)) /\
    Obj.get loaded "value" = Some (VBuffer "new") /\
    Obj.get loaded "meta" = None /\
    Obj.get loaded "creationDate" = Some (VDate (Some 1700000000123)) /\
    Obj.get loaded "modificationDate" = Some (VDate (Some 1700000000999)).
Proof.
  split; [vm_compute; reflexivity|]. split; [reflexivity|].
  apply (update_value_then_load store_k 1700000000123 1700000000123 1700000000999 "k"
           bytes123 "new" stored_text);
    [discriminate | reflexivity | reflexivity | reflexivity
     | vm_compute; reflexivity | reflexivity].
Defined.

(** X20, witness: the entry k gets a meta of one pair. *)
Lemma update_then_load_witness :
  serializeKeyEntry (new_entry "k" bytes123 1700000000123 1700000000123) = Ok stored_text /\
  adapter_load store_k "k" = Some stored_text /\
  meta_ok [("a", "b")] = true /\
  exists st' loaded,
    update store_k 1700000000999 "k" None (Some [("a", "b")])
      = Ok (updated_entry "k" bytes123 1700000000123 1700000000999 [("a", "b")], st') /\
    load st' "k" = Ok (Some (VObj loaded)) /\
    Obj.get loaded "value" = Some (VBuffer bytes123) /\
    Obj.get loaded "meta" = Some (meta_value [("a", "b")]) /\
    Obj.get loaded "creationDate" = Some (VDate (Some 1700000000123)) /\
    Obj.get loaded "modificationDate" = Some (VDate (Some 1700000000999)).
Proof.
  split; [vm_compute; reflexivity|]. split; [reflexivity|]. split; [reflexivity|].
  apply (update_then_load store_k 1700000000123 1700000000123 1700000000999 "k"
           bytes123 [("a", "b")] stored_text);
    [discriminate | reflexivity | reflexivity | reflexivity | reflexivity
     | vm_compute; reflexivity | reflexivity].
Defined.

(** X22, witness: a meta whose key creationDate holds the text yesterday. *)
Lemma meta_date_key_revived_witness :
  ("k" : string) <> EmptyString /\
  exists st' loaded d,
    save (∅ : gmap string Buffer) 1700000000123 1700000000124 "k" (DataBytes bytes123)
      (Some [("creationDate", "yesterday")])
      = Ok (saved_entry "k" bytes123 [("creationDate", "yesterday")]
              1700000000123 1700000000124, st') /\
    load st' "k" = Ok (Some (VObj loaded)) /\
    Obj.get loaded "meta" = Some (VObj [("creationDate", VDate d)]) /\
    Obj.get loaded "meta" <> Some (meta_value [("creationDate", "yesterday")]) /\
    Obj.get loaded "value" = Some (VBuffer bytes123).
Proof.
  split; [discriminate|].
  apply (meta_date_key_revived (∅ : gmap string Buffer) 1700000000123 1700000000124 "k"
           bytes123 "creationDate" "yesterday");
    [discriminate | reflexivity | reflexivity | left; reflexivity | reflexivity].
Defined.

End StorageLaws.
